(** * kaaoune: extraction and reconciliation of real-estate listings

    A shallow embedding of [src/lib/storage.ts] (the JSON file store, its
    schema migration and the two merge operations) and of the text
    heuristics of [src/lib/scraper.ts] (number normaliser, construction-year
    rule, image gathering), with the properties of the specification stated
    and proved over them.

    Layout: the JavaScript value model, the store, the regular-expression
    matcher and the scraper functions come first; all lemmas follow. *)

From Stdlib Require Import ZArith QArith String Ascii List Bool Lia.
From stdpp Require Import gmap strings list fin_maps pretty.

Close Scope Q_scope.
Set Warnings "-register-all".

(** ** JavaScript values

    The store is read with [JSON.parse] and handled as [any]; the code
    inspects it with truthiness tests, [Array.isArray] and property reads.
    Values are therefore modelled as JSON trees plus [undefined].  A
    [TypeError] thrown by the runtime is the [None] of [option]. *)

Module Js.

(** IEEE doubles are modelled by exact rationals plus [NaN]; rounding is
    outside the model. *)
Inductive number :=
| NaN
| Num (q : Q).

Definition num_add (a b : number) : number :=
  match a, b with
  | Num x, Num y => Num (x + y)%Q
  | _, _ => NaN
  end.

Definition num_mul (a b : number) : number :=
  match a, b with
  | Num x, Num y => Num (x * y)%Q
  | _, _ => NaN
  end.

Definition num_eqb (a b : number) : bool :=
  match a, b with
  | Num x, Num y => Qeq_bool x y
  | _, _ => false
  end.

Definition num_sub (a b : number) : number :=
  match a, b with
  | Num x, Num y => Num (x - y)%Q
  | _, _ => NaN
  end.

Definition num_leb (a b : number) : bool :=
  match a, b with
  | Num x, Num y => Qle_bool x y
  | _, _ => false
  end.

Definition num_ltb (a b : number) : bool :=
  match a, b with
  | Num x, Num y => negb (Qle_bool y x)
  | _, _ => false
  end.

(** [Math.min(a, b)] *)
Definition num_min (a b : number) : number :=
  match a, b with
  | Num x, Num y => if Qle_bool x y then a else b
  | _, _ => NaN
  end.

(** [a || 0] on numbers *)
Definition num_or0 (a : number) : number :=
  match a with
  | NaN => Num 0
  | Num q => if Qeq_bool q 0 then Num 0 else a
  end.

Definition num_of_Z (z : Z) : number := Num (inject_Z z).

Definition num_of_nat (n : nat) : number := num_of_Z (Z.of_nat n).

Inductive value :=
| VUndef
| VNull
| VBool (b : bool)
| VNum (n : number)
| VStr (s : string)
| VArr (l : list value)
| VObj (o : gmap string value).

(** ToBoolean. *)
Definition truthy (v : value) : bool :=
  match v with
  | VUndef | VNull => false
  | VBool b => b
  | VNum NaN => false
  | VNum (Num q) => negb (Qeq_bool q 0)
  | VStr s => negb (String.eqb s EmptyString)
  | VArr _ | VObj _ => true
  end.

(** [a || b] *)
Definition or_else (a b : value) : value := if truthy a then a else b.

Definition isArray (v : value) : bool :=
  match v with VArr _ => true | _ => false end.

Definition is_nullish (v : value) : bool :=
  match v with VUndef | VNull => true | _ => false end.

(** [a === b].  Two objects or arrays are compared by reference; the
    operands compared in this program never alias (one side is a string
    literal, a parameter, or a value of another object graph). *)
Definition strict_eq (a b : value) : bool :=
  match a, b with
  | VUndef, VUndef => true
  | VNull, VNull => true
  | VBool x, VBool y => Bool.eqb x y
  | VNum x, VNum y => num_eqb x y
  | VStr x, VStr y => String.eqb x y
  | _, _ => false
  end.

(** SameValueZero, the comparison of [Array.prototype.includes] and [Set]. *)
Definition same_value_zero (a b : value) : bool :=
  match a, b with
  | VNum NaN, VNum NaN => true
  | _, _ => strict_eq a b
  end.

(** Property read [v.k].  Reading from [null] or [undefined] throws; a
    missing property reads as [undefined].  The [length] of a string is
    only ever compared with 0 here, so the count of stored bytes stands
    for the count of UTF-16 units: both are 0 for the empty string only. *)
Definition getp (v : value) (k : string) : option value :=
  match v with
  | VUndef | VNull => None
  | VObj o => Some (default VUndef (o !! k))
  | VArr l => Some (if String.eqb k "length" then VNum (num_of_nat (length l)) else VUndef)
  | VStr s => Some (if String.eqb k "length" then VNum (num_of_nat (String.length s)) else VUndef)
  | VBool _ | VNum _ => Some VUndef
  end.

(** [v?.k] *)
Definition getp_opt (v : value) (k : string) : option value :=
  if is_nullish v then Some VUndef else getp v k.

(** Property write [v.k = x] (module code is strict: writing to a
    primitive throws).  A named property put on an array lives only in
    memory and is dropped by [JSON.stringify]; the model keeps the JSON
    form of the array. *)
Definition setp (v : value) (k : string) (x : value) : option value :=
  match v with
  | VObj o => Some (VObj (<[k := x]> o))
  | VArr l => Some (VArr l)
  | _ => None
  end.

(** [delete v.k]: never throws on the values met here. *)
Definition deletep (v : value) (k : string) : value :=
  match v with
  | VObj o => VObj (delete k o)
  | _ => v
  end.

(** [k in v] *)
Definition has_key (k : string) (v : value) : option bool :=
  match v with
  | VObj o => Some (bool_decide (is_Some (o !! k)))
  | VArr l => Some (String.eqb k "length")
  | _ => None
  end.

Definition single (c : ascii) : value := VStr (String c EmptyString).

(** The own enumerable properties copied by [{...v}].  Strings are split
    per stored byte, which is the UTF-16 split for ASCII text. *)
Definition spread (v : value) : gmap string value :=
  match v with
  | VObj o => o
  | VArr l => list_to_map (imap (fun i x => (pretty i, x)) l)
  | VStr s => list_to_map (imap (fun i c => (pretty i, single c)) (list_ascii_of_string s))
  | _ => ∅
  end.

(** [for (const x of v)]: only arrays and strings are iterable. *)
Definition iterate (v : value) : option (list value) :=
  match v with
  | VArr l => Some l
  | VStr s => Some (map single (list_ascii_of_string s))
  | _ => None
  end.

(** Receiver of an [Array.prototype] method. *)
Definition asArray (v : value) : option (list value) :=
  match v with
  | VArr l => Some l
  | _ => None
  end.

Fixpoint is_infix (p s : string) : bool :=
  String.prefix p s ||
  match s with
  | EmptyString => false
  | String _ s' => is_infix p s'
  end.

(** [v.includes(x)] for [x] a string: array membership, or substring test
    when [v] is a string; any other receiver has no such method. *)
Definition includes (v : value) (x : string) : option bool :=
  match v with
  | VArr l => Some (existsb (same_value_zero (VStr x)) l)
  | VStr s => Some (is_infix x s)
  | _ => None
  end.

(** [l.findIndex(f)], [None] inside for -1. *)
Fixpoint findIndex (f : value -> option bool) (l : list value) : option (option nat) :=
  match l with
  | [] => Some None
  | x :: l' =>
      b ← f x;
      if b : bool then Some (Some 0)
      else r ← findIndex f l'; Some (option_map S r)
  end.

(** [l.find(f)], [undefined] when nothing is found. *)
Fixpoint find (f : value -> option bool) (l : list value) : option value :=
  match l with
  | [] => Some VUndef
  | x :: l' =>
      b ← f x;
      if b : bool then Some x else find f l'
  end.

(** [l.filter(f)] *)
Fixpoint filterM (f : value -> option bool) (l : list value) : option (list value) :=
  match l with
  | [] => Some []
  | x :: l' =>
      b ← f x;
      r ← filterM f l';
      Some (if b : bool then x :: r else r)
  end.

(** A loop that updates the elements of a list in place and raises a flag
    when it changed something. *)
Fixpoint for_each (f : value -> option (value * bool)) (l : list value)
  : option (list value * bool) :=
  match l with
  | [] => Some ([], false)
  | x :: l' =>
      r ← f x;
      rs ← for_each f l';
      Some (r.1 :: rs.1, r.2 || rs.2)
  end.

(** An insertion-ordered [Set] of values. *)
Definition set_add (x : value) (s : list value) : list value :=
  if existsb (same_value_zero x) s then s else s ++ [x].

Definition new_Set (l : list value) : list value :=
  fold_left (fun s x => set_add x s) l [].

End Js.

(** ** The store: [src/lib/storage.ts]

    [db.json] holds one JSON document.  Every exported operation loads it
    through [getDb] (which runs the migration first), changes the parsed
    value and hands it to [saveDb].  The model threads the file through a
    state monad; [writes] counts the calls of [saveDb] so that "no rewrite"
    can be stated.  A file that does not parse is outside the model: the
    state holds the parsed document.  Values handed to [saveDb] are kept as
    they are in memory; reads go through [Js.getp], for which an absent
    key and a key holding [undefined] are the same, as they are after
    [JSON.stringify]. *)

Module Storage.
Import Js.

Record store := { file : option value; writes : nat }.

Definition M (A : Type) : Type := store -> option (A * store).

Definition ret {A} (a : A) : M A := fun st => Some (a, st).

Definition bind {A B} (c : M A) (f : A -> M B) : M B :=
  fun st => match c st with
            | Some (a, st') => f a st'
            | None => None
            end.

Notation "'let!' x ':=' c 'in' k" := (bind c (fun x => k))
  (at level 10, x name, c at level 100, k at level 200).

(** A pure step that may throw. *)
Definition lift {A} (o : option A) : M A :=
  fun st => match o with
            | Some a => Some (a, st)
            | None => None
            end.

(** [fs.readFile] followed by [JSON.parse]; rejects when the file is absent. *)
Definition readFile : M value :=
  fun st => match file st with
            | Some v => Some (v, st)
            | None => None
            end.

(** [fs.access] succeeded. *)
Definition fileExists : M bool :=
  fun st => Some (bool_decide (is_Some (file st)), st).

(** write to [db.json.tmp], rename into place *)
Definition saveDb (db : value) : M unit :=
  fun st => Some (tt, {| file := Some db; writes := S (writes st) |}).

Definition obj (l : list (string * value)) : value := VObj (list_to_map l).

Definition defaultLoan : value :=
  obj [("interestRate", VNum (Num (1 # 2))); ("termYears", VNum (Num 35));
       ("downPayment", VNum (Num 0))].

Definition userConfig (id name icon : value) : value :=
  obj [("id", id); ("name", name); ("icon", icon)].

Definition defaultDb : value :=
  obj [("properties", VArr []);
       ("settings", obj [("users", VArr [userConfig (VStr "u1") (VStr "ユーザー1") (VStr "👤")]);
                         ("loan", defaultLoan)])].

(** *** migrateDb *)

(** One [if (oldSettings.partnerX) users.push({...})]. *)
Definition legacyUser (id dflt : string) (partner : value) : option (list value) :=
  if truthy partner then
    name ← getp partner "name";
    icon ← getp partner "icon";
    Some [userConfig (VStr id) (or_else name (VStr dflt)) (or_else icon (VStr "👤"))]
  else Some [].

(** Lines 115-138. *)
Definition migrateSettings (db : value) : option (value * bool) :=
  settings ← getp db "settings";
  missing ← (if negb (truthy settings) then Some true
             else users ← getp settings "users";
                  if negb (truthy users) then Some true
                  else len ← getp users "length";
                       Some (strict_eq len (VNum (Num 0))));
  if missing : bool then
    let oldSettings := or_else settings (obj []) in
    pa ← getp oldSettings "partnerA";
    ua ← legacyUser "u1" "ユーザー1" pa;
    pb ← getp oldSettings "partnerB";
    ub ← legacyUser "u2" "ユーザー2" pb;
    let users := ua ++ ub in
    let users := if Nat.eqb (length users) 0
                 then [userConfig (VStr "u1") (VStr "ユーザー1") (VStr "👤")]
                 else users in
    db' ← setp db "settings" (obj [("users", VArr users); ("loan", defaultLoan)]);
    Some (db', true)
  else
    loan ← getp settings "loan";
    if negb (truthy loan) then
      settings' ← setp settings "loan" defaultLoan;
      db' ← setp db "settings" settings';
      Some (db', true)
    else Some (db, false).

(** One [if (oldRatings.partnerX && (... .score || ... .comment)) newRatings.push({...})]. *)
Definition legacyRating (uid : string) (prop partner : value) : option (list value) :=
  if truthy partner then
    score ← getp partner "score";
    comment ← getp partner "comment";
    if truthy score || truthy comment then
      createdAt ← getp prop "createdAt";
      Some [obj [("userId", VStr uid); ("score", score); ("comment", comment);
                 ("updatedAt", createdAt)]]
    else Some []
  else Some [].

(** The two consecutive tests
    [if (x.key === 'user-a') { x.key = 'u1'; ... }]
    [if (x.key === 'user-b') { x.key = 'u2'; ... }],
    used with [key = "userId"] on ratings and [key = "id"] on users. *)
Definition renameLegacy (key : string) (x : value) : option (value * bool) :=
  a ← getp x key;
  r1 ← (if strict_eq a (VStr "user-a")
        then x' ← setp x key (VStr "u1"); Some (x', true)
        else Some (x, false));
  b ← getp r1.1 key;
  r2 ← (if strict_eq b (VStr "user-b")
        then x' ← setp r1.1 key (VStr "u2"); Some (x', true)
        else Some (r1.1, false));
  Some (r2.1, r1.2 || r2.2).

(** Body of the loop over [db.properties], lines 143-177. *)
Definition migrateProp (prop : value) : option (value * bool) :=
  ratings ← getp prop "ratings";
  if truthy ratings && negb (isArray ratings) then
    pa ← getp ratings "partnerA";
    ra ← legacyRating "u1" prop pa;
    pb ← getp ratings "partnerB";
    rb ← legacyRating "u2" prop pb;
    prop' ← setp prop "ratings" (VArr (ra ++ rb));
    Some (prop', true)
  else if negb (truthy ratings) then
    prop' ← setp prop "ratings" (VArr []);
    Some (prop', true)
  else if isArray ratings then
    rs ← asArray ratings;
    r ← for_each (renameLegacy "userId") rs;
    prop' ← setp prop "ratings" (VArr r.1);
    Some (prop', r.2)
  else Some (prop, false).

(** Lines 141-179.  The loop mutates the elements in place; the model
    rebuilds the array from the updated elements. *)
Definition migrateProperties (db : value) : option (value * bool) :=
  props ← getp db "properties";
  if truthy props then
    ps ← iterate props;
    r ← for_each migrateProp ps;
    db' ← (if isArray props then setp db "properties" (VArr r.1) else Some db);
    Some (db', r.2)
  else Some (db, false).

(** Lines 182-187. *)
Definition migrateUserIds (db : value) : option (value * bool) :=
  settings ← getp db "settings";
  users ← getp_opt settings "users";
  if truthy users then
    us ← iterate users;
    r ← for_each (renameLegacy "id") us;
    db' ← (if isArray users
           then settings' ← setp settings "users" (VArr r.1); setp db "settings" settings'
           else Some db);
    Some (db', r.2)
  else Some (db, false).

(** The in-memory part of [migrateDb]: the migrated document and [changed]. *)
Definition migrate (db : value) : option (value * bool) :=
  r1 ← migrateSettings db;
  r2 ← migrateProperties r1.1;
  r3 ← migrateUserIds r2.1;
  Some (r3.1, r1.2 || r2.2 || r3.2).

Definition migrateDb : M unit :=
  let! db := readFile in
  let! r := lift (migrate db) in
  if r.2 : bool then saveDb r.1 else ret tt.

Definition ensureDb : M unit :=
  let! present := fileExists in
  let! _ := (if present : bool then ret tt else saveDb defaultDb) in
  migrateDb.

Definition getDb : M value :=
  let! _ := ensureDb in
  readFile.

(** [db.properties || []] *)
Definition getProperties : M value :=
  let! db := getDb in
  let! props := lift (getp db "properties") in
  ret (or_else props (VArr [])).

(** *** The operations on properties *)

(** [p => p.id === id] *)
Definition hasId (id : string) (p : value) : option bool :=
  v ← getp p "id";
  Some (strict_eq v (VStr id)).

(** [p => p.url === property.url] *)
Definition hasUrl (url : value) (p : value) : option bool :=
  v ← getp p "url";
  Some (strict_eq v url).

(** [crypto.randomUUID()] and [new Date().toISOString()] are inputs. *)
Definition addProperty (property : gmap string value) (uuid now : string) : M value :=
  let! db := getDb in
  let! props := lift (getp db "properties") in
  let! properties := lift (asArray props) in
  let! existing := lift (find (hasUrl (default VUndef (property !! "url"))) properties) in
  if truthy existing then ret existing
  else
    let newProperty :=
      VObj (<["ratings" := VArr []]> (<["status" := VStr "considering"]>
           (<["createdAt" := VStr now]> (<["id" := VStr uuid]> property)))) in
    let! db' := lift (setp db "properties" (VArr (newProperty :: properties))) in
    let! _ := saveDb db' in
    ret newProperty.

(** Store [prop] at [index] of [db.properties] and save. *)
Definition putProperty (db : value) (properties : list value) (index : nat) (prop : value)
  : M value :=
  let! db' := lift (setp db "properties" (VArr (<[index := prop]> properties))) in
  let! _ := saveDb db' in
  ret prop.

Definition updateRating (id userId : string) (ratingData : gmap string value) (now : string)
  : M value :=
  let! db := getDb in
  let! props := lift (getp db "properties") in
  let! properties := lift (asArray props) in
  let! index := lift (findIndex (hasId id) properties) in
  match index with
  | None => ret VNull
  | Some i =>
      let prop := default VUndef (properties !! i) in
      let! rv := lift (getp prop "ratings") in
      let! ratings := lift (asArray rv) in
      let! ratingIndex :=
        lift (findIndex (fun r => v ← getp r "userId"; Some (strict_eq v (VStr userId))) ratings) in
      let ratings' :=
        match ratingIndex with
        | Some ri =>
            <[ri := VObj (<["updatedAt" := VStr now]>
                            (ratingData ∪ spread (default VUndef (ratings !! ri))))]> ratings
        | None =>
            ratings ++ [VObj (<["updatedAt" := VStr now]>
                               (ratingData ∪ {["userId" := VStr userId]}))]
        end in
      let! prop' := lift (setp prop "ratings" (VArr ratings')) in
      putProperty db properties i prop'
  end.

Definition updatePropertyStatus (id status : string) : M value :=
  let! db := getDb in
  let! props := lift (getp db "properties") in
  let! properties := lift (asArray props) in
  let! index := lift (findIndex (hasId id) properties) in
  match index with
  | None => ret VNull
  | Some i =>
      let! prop' := lift (setp (default VUndef (properties !! i)) "status" (VStr status)) in
      putProperty db properties i prop'
  end.

(** Returns [Promise<void>]. *)
Definition deleteProperty (id : string) : M unit :=
  let! db := getDb in
  let! props := lift (getp db "properties") in
  let! properties := lift (asArray props) in
  let! kept := lift (filterM (fun p => b ← hasId id p; Some (negb b)) properties) in
  let! db' := lift (setp db "properties" (VArr kept)) in
  saveDb db'.

Definition topLevelFields : list string :=
  ["price"; "area"; "yearBuilt"; "units"; "station"; "stationMinute"; "parkingStatus"].

(** [for (const field of topLevelFields) if (editedFields.includes(field)) delete updateData[field]] *)
Fixpoint dropEdited (editedFields : value) (fields : list string)
    (updateData : gmap string value) : option (gmap string value) :=
  match fields with
  | [] => Some updateData
  | field :: fields' =>
      b ← includes editedFields field;
      dropEdited editedFields fields' (if b : bool then delete field updateData else updateData)
  end.

(** [if (editedFields.includes('fees.' + k)) delete fees[k]] *)
Definition dropEditedFee (editedFields : value) (k : string) (fees : value) : option value :=
  b ← includes editedFields ("fees." +:+ k);
  Some (if b : bool then deletep fees k else fees).

(** Lines 311-315.  [updateData] is a shallow copy, so the deletions
    reach the caller's [data.fees] too; only [updateData] is used later. *)
Definition dropEditedFees (editedFields : value) (updateData : gmap string value)
  : option (gmap string value) :=
  let fees := default VUndef (updateData !! "fees") in
  if truthy fees then
    f1 ← dropEditedFee editedFields "management" fees;
    f2 ← dropEditedFee editedFields "repair" f1;
    f3 ← dropEditedFee editedFields "parking" f2;
    Some (<["fees" := f3]> updateData)
  else Some updateData.

Definition refreshProperty (id : string) (data : gmap string value) : M value :=
  let! db := getDb in
  let! props := lift (getp db "properties") in
  let! properties := lift (asArray props) in
  let! index := lift (findIndex (hasId id) properties) in
  match index with
  | None => ret VNull
  | Some i =>
      let current := default VUndef (properties !! i) in
      let! mef := lift (getp current "manuallyEditedFields") in
      let editedFields := or_else mef (VArr []) in
      let! updateData := lift (dropEdited editedFields topLevelFields data) in
      let! updateData := lift (dropEditedFees editedFields updateData) in
      let! currentFees := lift (getp current "fees") in
      let newFees := or_else (default VUndef (updateData !! "fees")) (obj []) in
      putProperty db properties i
        (VObj (<["fees" := VObj (spread newFees ∪ spread currentFees)]>
                 (updateData ∪ spread current)))
  end.

(** Body of [Object.keys(updates).forEach(key => ...)], lines 345-353. *)
Definition trackKey (updates : gmap string value) (editedFields : list value) (key : string)
  : option (list value) :=
  let fees := default VUndef (updates !! "fees") in
  if String.eqb key "fees" && truthy fees then
    m ← has_key "management" fees;
    let s1 := if m : bool then set_add (VStr "fees.management") editedFields else editedFields in
    r ← has_key "repair" fees;
    let s2 := if r : bool then set_add (VStr "fees.repair") s1 else s1 in
    p ← has_key "parking" fees;
    Some (if p : bool then set_add (VStr "fees.parking") s2 else s2)
  else if negb (String.eqb key "manuallyEditedFields") && negb (String.eqb key "ratings")
          && negb (String.eqb key "status") then
    Some (set_add (VStr key) editedFields)
  else Some editedFields.

(** [Object.keys]; the enumeration order of the keys is not modelled. *)
Definition keys (o : gmap string value) : list string := (map_to_list o).*1.

Definition trackKeys (updates : gmap string value) (editedFields : list value)
  : option (list value) :=
  fold_left (fun acc key => s ← acc; trackKey updates s key) (keys updates) (Some editedFields).

Definition updateProperty (id : string) (updates : gmap string value) : M value :=
  let! db := getDb in
  let! props := lift (getp db "properties") in
  let! properties := lift (asArray props) in
  let! index := lift (findIndex (hasId id) properties) in
  match index with
  | None => ret VNull
  | Some i =>
      let current := default VUndef (properties !! i) in
      let! mef := lift (getp current "manuallyEditedFields") in
      let! old := lift (iterate (or_else mef (VArr []))) in
      let! editedFields := lift (trackKeys updates (new_Set old)) in
      let! currentFees := lift (getp current "fees") in
      let updFees := default VUndef (updates !! "fees") in
      let fees := if truthy updFees
                  then VObj (spread updFees ∪ spread currentFees)
                  else currentFees in
      putProperty db properties i
        (VObj (<["manuallyEditedFields" := VArr editedFields]>
                 (<["fees" := fees]> (updates ∪ spread current))))
  end.

(** *** Settings *)

(** [defaultDb.settings] *)
Definition defaultSettings : value :=
  obj [("users", VArr [userConfig (VStr "u1") (VStr "ユーザー1") (VStr "👤")]);
       ("loan", defaultLoan)].

(** [db.settings || defaultDb.settings] *)
Definition getSettings : M value :=
  let! db := getDb in
  let! settings := lift (getp db "settings") in
  ret (or_else settings defaultSettings).

(** [db.settings = { ...db.settings, ...updates }] *)
Definition updateUserSettings (updates : gmap string value) : M value :=
  let! db := getDb in
  let! old := lift (getp db "settings") in
  let settings := VObj (updates ∪ spread old) in
  let! db' := lift (setp db "settings" settings) in
  let! _ := saveDb db' in
  ret settings.

End Storage.

(** ** Regular expressions

    The scraper reads its fields with regular-expression literals.  They
    are kept as syntax and run by a backtracking matcher written in
    continuation-passing style, after the matcher of the ECMAScript
    standard: alternatives are tried left to right, a greedy star tries one
    more iteration before it tries to leave, a lazy star the other way
    round, and an iteration that consumes nothing is rejected.  Strings are
    lists of UTF-16 code units. *)

Module Regex.

Definition jsstring : Type := list N.

(** Code points of the UTF-8 bytes of a literal; U+FFFD on a truncated
    sequence. *)
Fixpoint utf8_decode (l : list N) : list N :=
  match l with
  | [] => []
  | b0 :: l1 =>
      if (b0 <? 128)%N then b0 :: utf8_decode l1
      else if (b0 <? 224)%N then
        match l1 with
        | b1 :: l2 => ((b0 - 192) * 64 + (b1 - 128))%N :: utf8_decode l2
        | _ => [65533%N]
        end
      else if (b0 <? 240)%N then
        match l1 with
        | b1 :: b2 :: l3 =>
            ((b0 - 224) * 4096 + (b1 - 128) * 64 + (b2 - 128))%N :: utf8_decode l3
        | _ => [65533%N]
        end
      else
        match l1 with
        | b1 :: b2 :: b3 :: l4 =>
            ((b0 - 240) * 262144 + (b1 - 128) * 4096 + (b2 - 128) * 64 + (b3 - 128))%N
              :: utf8_decode l4
        | _ => [65533%N]
        end
  end.

Definition utf16 (cp : N) : list N :=
  if (cp <? 65536)%N then [cp]
  else [(55296 + (cp - 65536) / 1024)%N; (56320 + (cp - 65536) mod 1024)%N].

(** The JavaScript string written by a literal of this file. *)
Definition js (s : string) : jsstring :=
  flat_map utf16 (utf8_decode (map N_of_ascii (list_ascii_of_string s))).

Inductive regex :=
| Eps
| Chr (p : N -> bool)
| Seq (r1 r2 : regex)
| Alt (r1 r2 : regex)
| Star (greedy : bool) (r : regex)
| Group (n : nat) (r : regex).

(** What is left of the input, and the captures made so far. *)
Record mstate := { rest : jsstring; caps : gmap nat jsstring }.

Section Matcher.
Context {A : Type}.

Definition or_try (a b : option A) : option A :=
  match a with
  | Some x => Some x
  | None => b
  end.

(** [fuel] bounds the iterations; each one consumes a unit, so the
    length of the input is enough. *)
Fixpoint star_loop (step : mstate -> (mstate -> option A) -> option A) (greedy : bool)
    (fuel : nat) (st : mstate) (k : mstate -> option A) : option A :=
  match fuel with
  | 0 => k st
  | S fuel' =>
      let again :=
        step st (fun st' =>
                   if length (rest st') <? length (rest st)
                   then star_loop step greedy fuel' st' k
                   else None) in
      if greedy then or_try again (k st) else or_try (k st) again
  end.

Fixpoint run (r : regex) (st : mstate) (k : mstate -> option A) : option A :=
  match r with
  | Eps => k st
  | Chr p =>
      match rest st with
      | c :: s => if p c then k {| rest := s; caps := caps st |} else None
      | [] => None
      end
  | Seq r1 r2 => run r1 st (fun st1 => run r2 st1 k)
  | Alt r1 r2 => or_try (run r1 st k) (run r2 st k)
  | Star greedy r1 => star_loop (run r1) greedy (length (rest st)) st k
  | Group n r1 =>
      run r1 st (fun st1 =>
        k {| rest := rest st1;
             caps := <[n := take (length (rest st) - length (rest st1)) (rest st)]> (caps st1) |})
  end.

End Matcher.

(** A successful match: where it starts, the groups (0 is the whole
    match) and the input after it. *)
Record rmatch := { index : nat; groups : gmap nat jsstring; after : jsstring }.

(** [s.match(r)] for [r] without the [g] flag: the first start position,
    from the left, at which the matcher succeeds. *)
Fixpoint search_from (r : regex) (i : nat) (s : jsstring) : option rmatch :=
  match run r {| rest := s; caps := ∅ |} Some with
  | Some st =>
      Some {| index := i;
              groups := <[0 := take (length s - length (rest st)) s]> (caps st);
              after := rest st |}
  | None =>
      match s with
      | [] => None
      | _ :: s' => search_from r (S i) s'
      end
  end.

Definition search (r : regex) (s : jsstring) : option rmatch := search_from r 0 s.

(** [s.matchAll(r)] for [r] with the [g] flag: matches are searched one
    after the other, each from the end of the previous one (one unit
    further after an empty match). *)
Fixpoint matchAll_from (fuel : nat) (r : regex) (i : nat) (s : jsstring) : list rmatch :=
  match fuel with
  | 0 => []
  | S fuel' =>
      match search_from r i s with
      | None => []
      | Some m =>
          let stop := (i + (length s - length (after m)))%nat in
          m :: (if length (after m) <? length (drop (index m - i) s)
                then matchAll_from fuel' r stop (after m)
                else match after m with
                     | [] => []
                     | _ :: s' => matchAll_from fuel' r (S stop) s'
                     end)
      end
  end.

Definition matchAll (r : regex) (s : jsstring) : list rmatch :=
  matchAll_from (S (length s)) r 0 s.

(** [m[n]]; [None] is [undefined]. *)
Definition group (n : nat) (m : rmatch) : option jsstring := groups m !! n.

(** *** Syntax used by the literals *)

Definition chr (c : N) : regex := Chr (N.eqb c).

Fixpoint lit (w : jsstring) : regex :=
  match w with
  | [] => Eps
  | c :: w' => Seq (chr c) (lit w')
  end.

Definition plus (r : regex) : regex := Seq r (Star true r).

(** [[0-9]] *)
Definition is_digit (c : N) : bool := (48 <=? c)%N && (c <=? 57)%N.

(** [[0-9\.]] *)
Definition is_digit_dot (c : N) : bool := is_digit c || (c =? 46)%N.

(** LineTerminator: LF, CR, LS, PS. *)
Definition is_line_terminator (c : N) : bool :=
  (c =? 10)%N || (c =? 13)%N || (c =? 8232)%N || (c =? 8233)%N.

(** [\s]: WhiteSpace and LineTerminator. *)
Definition is_space (c : N) : bool :=
  (c =? 9)%N || (c =? 11)%N || (c =? 12)%N || (c =? 32)%N || (c =? 160)%N
  || (c =? 5760)%N || ((8192 <=? c)%N && (c <=? 8202)%N) || (c =? 8239)%N
  || (c =? 8287)%N || (c =? 12288)%N || (c =? 65279)%N || is_line_terminator c.

(** [.] *)
Definition dot : regex := Chr (fun c => negb (is_line_terminator c)).

End Regex.

(** ** The text heuristics of [src/lib/scraper.ts] *)

Module Scraper.
Import Js Regex.

Fixpoint take_while (p : N -> bool) (s : jsstring) : jsstring :=
  match s with
  | c :: s' => if p c then c :: take_while p s' else []
  | [] => []
  end.

Fixpoint drop_while (p : N -> bool) (s : jsstring) : jsstring :=
  match s with
  | c :: s' => if p c then drop_while p s' else s
  | [] => []
  end.

(** Value of a string of decimal digits. *)
Definition digits_value (ds : jsstring) : Z :=
  fold_left (fun acc c => (acc * 10 + (Z.of_N c - 48))%Z) ds 0%Z.

(** [parseFloat] on the strings it receives here, which are made of
    digits and dots only: the longest prefix [digits], [digits.],
    [digits.digits] or [.digits] is read, and [NaN] is returned when there
    is none.  Leading blanks, signs and exponents do not occur. *)
Definition parseFloat (s : jsstring) : number :=
  let ip := take_while is_digit s in
  let fp := match drop_while is_digit s with
            | c :: s' => if (c =? 46)%N then take_while is_digit s' else []
            | [] => []
            end in
  if Nat.eqb (length ip) 0 && Nat.eqb (length fp) 0 then NaN
  else Num (Qmake (digits_value (ip ++ fp)) (Z.to_pos (10 ^ Z.of_nat (length fp)))).

(** [parseInt(s, 10)] on strings that carry no blank and no sign. *)
Definition parseInt (s : jsstring) : number :=
  let ds := take_while is_digit s in
  if Nat.eqb (length ds) 0 then NaN else num_of_Z (digits_value ds).

(** The literal of line 29, its tokens set apart by blanks:
    [( [0-9\.]+ ) \s* 万 \s* ( [0-9\.]* ) | ( [0-9\.]+ )]. *)
Definition re_number : regex :=
  Alt (Seq (Group 1 (plus (Chr is_digit_dot)))
        (Seq (Star true (Chr is_space))
          (Seq (lit (js "万"))
            (Seq (Star true (Chr is_space))
                 (Group 2 (Star true (Chr is_digit_dot)))))))
      (Group 3 (plus (Chr is_digit_dot))).

(** [val.replace(/,/g, '')] *)
Definition strip_commas (val : jsstring) : jsstring :=
  List.filter (fun c => negb (c =? 44)%N) val.

(** A string is truthy when it is not empty; [undefined] is not. *)
Definition present (g : option jsstring) : bool :=
  match g with
  | Some (_ :: _) => true
  | _ => false
  end.

Definition parseJapaneseNumber (val : jsstring) : number :=
  if Nat.eqb (length val) 0 then Num 0
  else
    match search re_number (strip_commas val) with
    | None => Num 0
    | Some m =>
        if present (group 1 m) then
          let man := num_mul (parseFloat (default [] (group 1 m))) (Num 10000) in
          let remainder := if present (group 2 m)
                           then parseFloat (default [] (group 2 m))
                           else Num 0 in
          num_add man remainder
        else num_or0 (parseFloat (default [] (group 3 m)))
    end.

(** *** Construction year, lines 181-200 *)

(** [[0-9]{4}] *)
Definition digit4 : regex :=
  Seq (Chr is_digit) (Seq (Chr is_digit) (Seq (Chr is_digit) (Chr is_digit))).

(** The literal of line 181: [(?: 築年月 | 竣工 | 建築 ) .*? ( [0-9]{4} )]. *)
Definition re_specificYear : regex :=
  Seq (Alt (lit (js "築年月")) (Alt (lit (js "竣工")) (lit (js "建築"))))
      (Seq (Star false dot) (Group 1 digit4)).

(** The literal of line 185, with the [g] flag: [( [0-9]{4} ) 年]. *)
Definition re_allYears : regex := Seq (Group 1 digit4) (lit (js "年")).

(** The literal of line 194: [築 ( [0-9]+ ) 年]. *)
Definition re_yearRelative : regex :=
  Seq (lit (js "築")) (Seq (Group 1 (plus (Chr is_digit))) (lit (js "年"))).

(** [Math.min(...ys)] for a list that is not empty. *)
Definition min_of (y : number) (ys : list number) : number := fold_left num_min ys y.

(** The value left in [data.yearBuilt] by the generic heuristic, [None]
    when it stays unset.  [thisYear] is [new Date().getFullYear()]. *)
Definition yearBuilt (bodyText : jsstring) (thisYear : Z) : option number :=
  match search re_specificYear bodyText with
  | Some m => Some (parseInt (default [] (group 1 m)))
  | None =>
      let years := map (fun m => parseInt (default [] (group 1 m)))
                       (matchAll re_allYears bodyText) in
      let validYears :=
        List.filter (fun y => num_ltb (Num 1900) y && num_leb y (num_of_Z thisYear)) years in
      match validYears with
      | y :: ys => Some (min_of y ys)
      | [] =>
          match search re_yearRelative bodyText with
          | Some m => Some (num_sub (num_of_Z thisYear) (parseInt (default [] (group 1 m))))
          | None => None
          end
      end
  end.

(** *** Fees read from the body text, lines 213-221 *)

(** [[0-9,万\.]] *)
Definition is_amount (c : N) : bool :=
  is_digit c || (c =? 44)%N || (c =? 19975)%N || (c =? 46)%N.

(** The literals of lines 214, 217 and 220, which differ by their label
    only: [label .*? ( [0-9,万\.]+ ) 円]. *)
Definition re_fee (label : string) : regex :=
  Seq (lit (js label))
      (Seq (Star false dot) (Seq (Group 1 (plus (Chr is_amount))) (lit (js "円")))).

(** [m = bodyText.match(...); if (m) ... = parseJapaneseNumber(m[1])];
    [None] when the field stays unset. *)
Definition feeAmount (label : string) (bodyText : jsstring) : option number :=
  match search (re_fee label) bodyText with
  | Some m => Some (parseJapaneseNumber (default [] (group 1 m)))
  | None => None
  end.

(** [data.fees] after the generic pass. *)
Record scrapedFees := {
  management : option number;
  repair : option number;
  parking : option number
}.

Definition genericFees (bodyText : jsstring) : scrapedFees :=
  {| management := feeAmount "管理費" bodyText;
     repair := feeAmount "修繕" bodyText;
     parking := feeAmount "駐車場" bodyText |}.

(** *** Images, lines 119-147 *)

(** The four attributes read from a gallery element; [None] is [null]. *)
Record img := {
  attr_rel : option jsstring;
  attr_data_src : option jsstring;
  attr_data_original : option jsstring;
  attr_src : option jsstring
}.

(** What the page answers: the [content] of its [og:image] meta tag
    ([None] when the read fails or finds nothing) and the elements matched
    by a selector.  A read that throws inside a selector's loop ends that
    loop, which is the same as a shorter list of elements. *)
Record page := {
  ogImage : option jsstring;
  locator : string -> list img
}.

Definition gallerySelectors : list string :=
  [".p-article-pc-hero__image"; ".p-timeline__photoImage img";
   ".p-article-pc-info-summary__layout img"; ".property_view_main-item-img img";
   ".property_view_object-img img"; ".bh-detailSummary_image img";
   ".mod-packData img"; ".img_box img"; ".lazyloader img"]%string.

(** [a || b] on attribute values *)
Definition attr_or (a b : option jsstring) : option jsstring :=
  if present a then a else b.

Fixpoint startsWith (p s : jsstring) : bool :=
  match p, s with
  | [], _ => true
  | c :: p', d :: s' => (c =? d)%N && startsWith p' s'
  | _ :: _, [] => false
  end.

Fixpoint str_includes (p s : jsstring) : bool :=
  startsWith p s ||
  match s with
  | [] => false
  | _ :: s' => str_includes p s'
  end.

Definition str_eqb (a b : jsstring) : bool := bool_decide (a = b).

(** Body of [for (const img of imgs)]. *)
Definition pushImg (images : list jsstring) (i : img) : list jsstring :=
  let src := attr_or (attr_rel i) (attr_or (attr_data_src i)
               (attr_or (attr_data_original i) (attr_src i))) in
  match src with
  | Some s =>
      if present src && startsWith (js "http") s && negb (existsb (str_eqb s) images)
         && negb (str_includes (js "spacer.gif") s)
      then images ++ [s] else images
  | None => images
  end.

(** Body of [for (const sel of gallerySelectors)].  After the [break]
    the list no longer grows, so leaving the loop and skipping every later
    selector are the same. *)
Definition gatherSelector (p : page) (images : list jsstring) (sel : string) : list jsstring :=
  if 12 <=? length images then images
  else fold_left pushImg (locator p sel) images.

(** [data.images] after the image pass. *)
Definition images (p : page) : list jsstring :=
  let initial := if present (ogImage p) then [default [] (ogImage p)] else [] in
  fold_left (gatherSelector p) gallerySelectors initial.

End Scraper.

(** ** Vocabulary of the statements *)

Module Spec.
Import Js Storage.

(** The JavaScript read [o.f] of a stored object. *)
Definition field (o : gmap string value) (f : string) : value := default VUndef (o !! f).

(** [o.fees?.k] *)
Definition fee (o : gmap string value) (k : string) : value :=
  default VUndef (getp_opt (field o "fees") k).

Definition is_object (v : value) : Prop := exists o, v = VObj o.

(** Loading the store [st] yields the document [db], whose list of
    properties is [ps], and leaves the store [st1]. *)
Definition loads (st : store) (db : gmap string value) (ps : list value) (st1 : store) : Prop :=
  getDb st = Some (VObj db, st1) /\ db !! "properties" = Some (VArr ps).

(** [cur] is the record of identifier [id]: the first one, at index [i]. *)
Definition record_at (id : string) (ps : list value) (i : nat) (cur : gmap string value) : Prop :=
  ps !! i = Some (VObj cur) /\ cur !! "id" = Some (VStr id) /\
  forall j q, j < i -> ps !! j = Some q -> hasId id q = Some false.

(** No record has the identifier [id]. *)
Definition no_record (id : string) (ps : list value) : Prop :=
  Forall (fun q => hasId id q = Some false) ps.

(** [ed] is the manually-edited set of [cur] ([manuallyEditedFields || []]). *)
Definition edited_fields (cur : gmap string value) (ed : list value) : Prop :=
  or_else (field cur "manuallyEditedFields") (VArr []) = VArr ed.

(** The fee bundle, when there is one, is an object. *)
Definition fees_typed (o : gmap string value) : Prop :=
  o !! "fees" = None \/ exists f, o !! "fees" = Some (VObj f).

(** The store after [saveDb] of [db] with its properties replaced by [ps']. *)
Definition saved (st1 : store) (db : gmap string value) (ps' : list value) : store :=
  {| file := Some (VObj (<["properties" := VArr ps']> db)); writes := S (writes st1) |}.

Definition feeFields : list string := ["management"; "repair"; "parking"].

Definition internalFields : list string := ["id"; "createdAt"; "ratings"; "status"].

(** *** Shapes of the stored document *)

(** [x] is an object whose [key] is neither of the two legacy identifiers. *)
Definition legacy_free (key : string) (x : value) : Prop :=
  exists o, x = VObj o /\ o !! key ≠ Some (VStr "user-a") /\ o !! key ≠ Some (VStr "user-b").

(** The ratings of [p] are a list without legacy identifiers. *)
Definition current_property (p : value) : Prop :=
  exists o rs, p = VObj o /\ o !! "ratings" = Some (VArr rs)
               /\ Forall (legacy_free "userId") rs.

(** The current shape in the words of the claim: settings with a user
    list that is not empty and a loan bundle, and every property with a
    list of ratings free of legacy identifiers. *)
Definition claimed_current (db : gmap string value) (us : list value) : Prop :=
  exists s loan ps,
    db !! "settings" = Some (VObj s) /\ s !! "users" = Some (VArr us) /\ us ≠ []
    /\ Forall is_object us /\ s !! "loan" = Some (VObj loan)
    /\ db !! "properties" = Some (VArr ps) /\ Forall current_property ps.

(** The current shape: the above, and no user of the settings has a
    legacy identifier either. *)
Definition current_shape (db : gmap string value) : Prop :=
  exists us, claimed_current db us /\ Forall (legacy_free "id") us.

(** A property as [PropertyWithId] or as its legacy form: an object whose
    ratings, when they are a list, are a list of objects. *)
Definition typed_property (p : value) : Prop :=
  exists o, p = VObj o /\ forall rs, o !! "ratings" = Some (VArr rs) -> Forall is_object rs.

(** The user list of the settings, when there is one, is a list of objects. *)
Definition typed_users (db : gmap string value) : Prop :=
  forall u, getp_opt (field db "settings") "users" = Some u -> truthy u = true ->
            exists us, u = VArr us /\ Forall is_object us.

(** The legacy two-partner bundle holding a rating of partner A only. *)
Definition legacy_ratings (score comment : value) : value :=
  obj [("partnerA", obj [("score", score); ("comment", comment)])].

(** The list entry it migrates to. *)
Definition migrated_rating (score comment createdAt : value) : value :=
  obj [("userId", VStr "u1"); ("score", score); ("comment", comment);
       ("updatedAt", createdAt)].

(** *** Vocabulary of the further properties *)

(** The loan bundle of the settings, when there is one, is an object. *)
Definition typed_loan (db : gmap string value) : Prop :=
  forall l, getp_opt (field db "settings") "loan" = Some l -> truthy l = true -> is_object l.

(** The settings have a user list that is not empty, made of objects,
    and a loan bundle. *)
Definition settled (db1 : gmap string value) : Prop :=
  exists s us loan,
    db1 !! "settings" = Some (VObj s) /\ s !! "users" = Some (VArr us) /\ us ≠ []
    /\ Forall is_object us /\ s !! "loan" = Some (VObj loan).

(** The user a rating belongs to: [r.userId]. *)
Definition rating_user (r : value) : value := default VUndef (getp r "userId").

(** The keys that [updateProperty] never records as manually edited, and
    the parent key of the fee bundle, recorded through its sub-keys. *)
Definition untrackedKeys : list string :=
  ["fees"; "manuallyEditedFields"; "ratings"; "status"].

(** What the key [key] of a manual update adds to the edited set: its
    own name, or, for the fee bundle, the compound names of the fee
    sub-fields the bundle holds. *)
Definition tracked (updates : gmap string value) (key : string) (x : value) : Prop :=
  ((key ∉ untrackedKeys) /\ x = VStr key)
  \/ (key = "fees" /\ exists f k, updates !! "fees" = Some (VObj f) /\ (k ∈ feeFields)
                                  /\ is_Some (f !! k) /\ x = VStr ("fees." +:+ k)).

(** No record of [ps] has the URL [url]. *)
Definition no_url (url : value) (ps : list value) : Prop :=
  Forall (fun q => hasUrl url q = Some false) ps.

End Spec.

(** ** The text rules, read directly off the text *)

Module Rules.
Import Js Regex Scraper.

Definition c_man : N := 19975.   (* 万 *)
Definition c_nen : N := 24180.   (* 年 *)

(** *** Numbers *)

(** The first maximal run of digits and dots of a text, and what follows it. *)
Definition first_numeral (t : jsstring) : option (jsstring * jsstring) :=
  match drop_while (fun c => negb (is_digit_dot c)) t with
  | [] => None
  | c :: t' => Some (take_while is_digit_dot (c :: t'), drop_while is_digit_dot (c :: t'))
  end.

(** The first numeral decides.  When it is followed, after optional
    blanks, by 万, the result is the numeral times 10000 plus the run of
    digits and dots that follows 万 and optional blanks (0 when that run is
    empty); otherwise it is the numeral; a text without digit and dot
    gives 0. *)
Definition number_rule (val : jsstring) : number :=
  match first_numeral (strip_commas val) with
  | None => Num 0
  | Some (numeral, rest) =>
      match drop_while is_space rest with
      | c :: rest' =>
          if (c =? c_man)%N then
            let second := take_while is_digit_dot (drop_while is_space rest') in
            num_add (num_mul (parseFloat numeral) (Num 10000))
                    (match second with [] => Num 0 | _ => parseFloat second end)
          else num_or0 (parseFloat numeral)
      | [] => num_or0 (parseFloat numeral)
      end
  end.

(** The rule in the words of the claim: the form "number 万 number" is
    looked for in the whole text; only when the text has none is a bare
    numeral looked for; else 0.  The two forms are the two alternatives of
    the source's literal, each searched on its own. *)
Definition re_man_form : regex :=
  Seq (Group 1 (plus (Chr is_digit_dot)))
    (Seq (Star true (Chr is_space))
      (Seq (lit (js "万"))
        (Seq (Star true (Chr is_space))
             (Group 2 (Star true (Chr is_digit_dot)))))).

Definition re_bare_form : regex := Group 3 (plus (Chr is_digit_dot)).


(** *** What the literal of the normaliser captures *)

(** The groups the literal captures at a position that starts with a
    digit or a dot. *)
Definition number_groups (s : jsstring) : gmap nat jsstring * jsstring :=
  let numeral := take_while is_digit_dot s in
  match drop_while is_space (drop_while is_digit_dot s) with
  | c :: r3 =>
      if (c =? c_man)%N then
        let r4 := drop_while is_space r3 in
        (<[2 := take_while is_digit_dot r4]> (<[1 := numeral]> ∅), drop_while is_digit_dot r4)
      else (<[3 := numeral]> ∅, drop_while is_digit_dot s)
  | [] => (<[3 := numeral]> ∅, drop_while is_digit_dot s)
  end.

(** Groups 1 to 3 of a match. *)
Definition three_groups (m : rmatch) : option jsstring * option jsstring * option jsstring :=
  (group 1 m, group 2 m, group 3 m).

(** *** Construction year *)

(** Four digits at the head of a text. *)
Definition four_digits (s : jsstring) : option jsstring :=
  match s with
  | d1 :: d2 :: d3 :: d4 :: _ =>
      if is_digit d1 && is_digit d2 && is_digit d3 && is_digit d4
      then Some [d1; d2; d3; d4] else None
  | _ => None
  end.

(** The first four consecutive digits before the end of the line. *)
Fixpoint year_on_line (s : jsstring) : option jsstring :=
  match four_digits s with
  | Some y => Some y
  | None =>
      match s with
      | c :: s' => if is_line_terminator c then None else year_on_line s'
      | [] => None
      end
  end.

(** The year that follows the label [l] on its line, when [l] starts the text. *)
Definition year_after (l s : jsstring) : option jsstring :=
  if startsWith l s then year_on_line (drop (length l) s) else None.

(** The explicitly labelled year: the first label, from the left, that
    has four consecutive digits after it on its line, gives them. *)
Fixpoint labelled_year (s : jsstring) : option jsstring :=
  match or_try (year_after (js "築年月") s)
               (or_try (year_after (js "竣工") s) (year_after (js "建築") s)) with
  | Some y => Some y
  | None =>
      match s with
      | _ :: s' => labelled_year s'
      | [] => None
      end
  end.

(** Every run of four digits that 年 follows at once, left to right. *)
Fixpoint year_tokens (s : jsstring) : list jsstring :=
  match s with
  | [] => []
  | _ :: s' =>
      match four_digits s, drop 4 s with
      | Some y, c :: _ => if (c =? c_nen)%N then y :: year_tokens s' else year_tokens s'
      | _, _ => year_tokens s'
      end
  end.

(** The age of the first "築 N 年", N a run of digits. *)
Fixpoint relative_age (s : jsstring) : option jsstring :=
  match s with
  | [] => None
  | c :: s' =>
      let found :=
        if (c =? 31689)%N then   (* 築 *)
          match take_while is_digit s', drop_while is_digit s' with
          | d :: ds, n :: _ => if (n =? c_nen)%N then Some (d :: ds) else None
          | _, _ => None
          end
        else None in
      match found with
      | Some age => Some age
      | None => relative_age s'
      end
  end.

Definition in_range (thisYear : Z) (y : number) : bool :=
  num_ltb (Num 1900) y && num_leb y (num_of_Z thisYear).

(** The labelled year when there is one; else the least year token in
    (1900, thisYear]; else thisYear minus the relative age; else nothing. *)
Definition year_rule (bodyText : jsstring) (thisYear : Z) : option number :=
  match labelled_year bodyText with
  | Some y => Some (parseInt y)
  | None =>
      match List.filter (in_range thisYear) (map parseInt (year_tokens bodyText)) with
      | y :: ys => Some (min_of y ys)
      | [] =>
          match relative_age bodyText with
          | Some age => Some (num_sub (num_of_Z thisYear) (parseInt age))
          | None => None
          end
      end
  end.

(** *** Reading the shapes of a text *)

(** The text [s] is empty or starts with a character outside [p]. *)
Definition stops (p : N -> bool) (s : jsstring) : bool :=
  match s with
  | [] => true
  | c :: _ => negb (p c)
  end.

(** *** Fees in the body text *)

Definition c_en : N := 20870.   (* 円 *)

(** The run of amount characters at the head of a text, when 円 follows it. *)
Definition amount_here (s : jsstring) : option jsstring :=
  match take_while is_amount s, drop_while is_amount s with
  | c :: r, e :: _ => if (e =? c_en)%N then Some (c :: r) else None
  | _, _ => None
  end.

(** The first run of amount characters that 円 follows, before the end
    of the line. *)
Fixpoint amount_on_line (s : jsstring) : option jsstring :=
  match amount_here s with
  | Some a => Some a
  | None =>
      match s with
      | c :: s' => if is_line_terminator c then None else amount_on_line s'
      | [] => None
      end
  end.

(** The amount that follows the label [l] on its line, when [l] starts the text. *)
Definition amount_after (l s : jsstring) : option jsstring :=
  if startsWith l s then amount_on_line (drop (length l) s) else None.

(** The first occurrence of the label, from the left, that has an
    amount after it on its line, gives that amount. *)
Fixpoint labelled_amount (l s : jsstring) : option jsstring :=
  match amount_after l s with
  | Some a => Some a
  | None =>
      match s with
      | _ :: s' => labelled_amount l s'
      | [] => None
      end
  end.

(** *** Where a picture comes from *)

(** The attribute the image pass reads from an element:
    [rel || data-src || data-original || src]. *)
Definition picture_source (i : img) : option jsstring :=
  attr_or (attr_rel i) (attr_or (attr_data_src i)
    (attr_or (attr_data_original i) (attr_src i))).

(** [s] is read from an element matched by a gallery selector, begins
    with "http" and does not hold "spacer.gif". *)
Definition from_gallery (p : page) (s : jsstring) : Prop :=
  exists sel i, sel ∈ gallerySelectors /\ i ∈ locator p sel
                /\ picture_source i = Some s
                /\ startsWith (js "http") s = true
                /\ str_includes (js "spacer.gif") s = false.

(** *** Pages used to run the image pass *)

Definition plain (src : jsstring) : img :=
  {| attr_rel := None; attr_data_src := None; attr_data_original := None;
     attr_src := Some src |}.

(** Thirteen different pictures under the first gallery selector. *)
Definition crowdedPage : page :=
  {| ogImage := None;
     locator := fun sel =>
       if String.eqb sel ".p-article-pc-hero__image"
       then map (fun c => plain (js "https://cdn.example.jp/" ++ [c]))
                [97; 98; 99; 100; 101; 102; 103; 104; 105; 106; 107; 108; 109]%N
       else [] |}.

(** An [og:image] given as a path. *)
Definition relativeOgPage : page :=
  {| ogImage := Some (js "/img/top.jpg"); locator := fun _ => [] |}.

End Rules.

(** ** A small store used to run the operations *)

Module Demo.
Import Js Storage.

Definition settings : value :=
  obj [("users", VArr [userConfig (VStr "u1") (VStr "A") (VStr "*")]); ("loan", defaultLoan)].

(** A record whose price and management fee were edited by hand. *)
Definition property : gmap string value :=
  list_to_map
    [("id", VStr "p1"); ("url", VStr "https://example.jp/1");
     ("createdAt", VStr "2024-01-01T00:00:00.000Z"); ("status", VStr "considering");
     ("ratings", VArr []); ("title", VStr "Mansion"); ("price", VStr "3980万円");
     ("area", VNum (Num 60)); ("images", VArr []);
     ("fees", obj [("management", VNum (Num 12000)); ("repair", VNum (Num 8000))]);
     ("manuallyEditedFields", VArr [VStr "price"; VStr "fees.management"])].

Definition db : gmap string value :=
  list_to_map [("properties", VArr [VObj property]); ("settings", settings)].

Definition st : store := {| file := Some (VObj db); writes := 0 |}.

(** A fresh extraction of the same page. *)
Definition data : gmap string value :=
  list_to_map
    [("title", VStr "Mansion"); ("price", VStr "4100万円");
     ("url", VStr "https://example.jp/1"); ("images", VArr []);
     ("area", VNum (Num 62));
     ("fees", obj [("management", VNum (Num 15000)); ("repair", VNum (Num 9000))])].

(** A manual edit of the management fee only. *)
Definition feeEdit : gmap string value :=
  list_to_map [("fees", obj [("management", VNum (Num 13000))])].

(** A document of the current shape but for a legacy user identifier. *)
Definition legacyUserDb : gmap string value :=
  list_to_map
    [("properties", VArr []);
     ("settings", obj [("users", VArr [userConfig (VStr "user-a") (VStr "A") (VStr "*")]);
                       ("loan", defaultLoan)])].

(** A document in the legacy two-partner shape. *)
Definition legacyProperty : gmap string value :=
  list_to_map
    [("id", VStr "p0"); ("url", VStr "https://example.jp/0");
     ("createdAt", VStr "2023-05-05T00:00:00.000Z"); ("title", VStr "Old");
     ("price", VStr "2500万円"); ("images", VArr []);
     ("ratings", obj [("partnerA", obj [("score", VStr "good"); ("comment", VStr "c")])])].

Definition legacyDb : gmap string value :=
  list_to_map
    [("properties", VArr [VObj legacyProperty]);
     ("settings", obj [("partnerA", obj [("name", VStr "A")]);
                       ("partnerB", obj [("name", VStr "B")])])].

(** A manual edit that carries a status. *)
Definition statusEdit : gmap string value :=
  list_to_map [("status", VStr "excluded")].

(** The extraction of another page. *)
Definition otherData : gmap string value :=
  list_to_map
    [("title", VStr "Tower"); ("price", VStr "5200万円");
     ("url", VStr "https://example.jp/2"); ("images", VArr [])].

(** A manual edit of the price. *)
Definition priceEdit : gmap string value :=
  list_to_map [("price", VStr "3900万円")].

(** A rating as the rating form sends it. *)
Definition ratingData : gmap string value :=
  list_to_map [("score", VStr "good"); ("comment", VStr "bright")].

End Demo.

(** * Properties of the store *)

Section JsFacts.
Import Js.

Lemma same_value_zero_str (x : string) (v : value) :
  same_value_zero (VStr x) v = true <-> v = VStr x.
Proof.
  destruct v; simpl; try (split; [discriminate | congruence]).
  rewrite String.eqb_eq. split; congruence.
Qed.

Lemma existsb_str (ed : list value) (x : string) :
  existsb (same_value_zero (VStr x)) ed = true <-> VStr x ∈ ed.
Proof.
  rewrite existsb_exists. split.
  - intros (v & Hin & Hv). apply same_value_zero_str in Hv. subst v.
    by apply list_elem_of_In.
  - intros Hin. exists (VStr x). split; [by apply list_elem_of_In |].
    by apply same_value_zero_str.
Qed.


Lemma strict_eq_str (v : value) (x : string) :
  strict_eq v (VStr x) = true <-> v = VStr x.
Proof.
  destruct v; simpl; try (split; [discriminate | congruence]).
  rewrite String.eqb_eq. split; congruence.
Qed.

Lemma existsb_eqb_elem (f : string) (l : list string) :
  existsb (String.eqb f) l = true <-> f ∈ l.
Proof.
  rewrite existsb_exists. split.
  - intros (x & Hin & Hx). apply String.eqb_eq in Hx. subst x. by apply list_elem_of_In.
  - intros Hin. exists f. split; [by apply list_elem_of_In | apply String.eqb_refl].
Qed.

End JsFacts.

Section StorageFacts.
Import Js Storage Spec.

Lemma findIndex_record (id : string) (ps : list value) (i : nat) (cur : gmap string value) :
  record_at id ps i cur -> findIndex (hasId id) ps = Some (Some i).
Proof.
  intros (Hi & Hid & Hbefore). revert ps Hi Hbefore.
  induction i as [|i IH]; intros [|p ps] Hi Hbefore; simplify_eq/=.
  - unfold hasId. simpl. rewrite Hid. simpl. by rewrite String.eqb_refl.
  - rewrite (Hbefore 0 p); [simpl | lia | done].
    rewrite (IH ps); [done | done |].
    intros j q Hj Hq. apply (Hbefore (S j) q); [lia | done].
Qed.

Lemma findIndex_no_record (id : string) (ps : list value) :
  no_record id ps -> findIndex (hasId id) ps = Some None.
Proof.
  induction 1 as [|p ps Hp _ IH]; simpl; [done |].
  by rewrite Hp, IH.
Qed.

Lemma record_at_lt (id : string) (ps : list value) (i : nat) (cur : gmap string value) :
  record_at id ps i cur -> i < length ps.
Proof. intros (Hi & _). by apply lookup_lt_Some in Hi. Qed.

(** The loop over [topLevelFields] removes exactly the marked fields. *)
Lemma dropEdited_spec (ed : list value) (fields : list string) (data : gmap string value) :
  exists d, dropEdited (VArr ed) fields data = Some d /\
    forall f, d !! f = if existsb (String.eqb f) fields && existsb (same_value_zero (VStr f)) ed
                       then None else data !! f.
Proof.
  revert data. induction fields as [|field fields IH]; intros data.
  - exists data. split; [done |]. intros f. done.
  - cbn [dropEdited includes]. cbn [mbind option_bind].
    destruct (IH (if existsb (same_value_zero (VStr field)) ed
                  then delete field data else data)) as (d & Hd & Hlook).
    exists d. split; [exact Hd |]. intros f. rewrite Hlook. cbn [existsb].
    destruct (String.eqb_spec f field) as [->|Hne]; cbn [orb].
    + destruct (existsb (same_value_zero (VStr field)) ed) eqn:Hm.
      * rewrite andb_true_r. destruct (existsb _ fields); [done |].
        cbn. by rewrite lookup_delete_eq.
      * by rewrite !andb_false_r.
    + destruct (existsb (String.eqb f) fields && existsb (same_value_zero (VStr f)) ed);
        [done |].
      destruct (existsb (same_value_zero (VStr field)) ed); [| done].
      by rewrite lookup_delete_ne.
Qed.


(** The three tests on the fee bundle remove exactly the marked fees. *)
Lemma dropEditedFees_spec (ed : list value) (d : gmap string value) :
  fees_typed d ->
  exists d', dropEditedFees (VArr ed) d = Some d' /\
    (forall f, f ≠ "fees" -> d' !! f = d !! f) /\
    (forall k, spread (or_else (default VUndef (d' !! "fees")) (obj [])) !! k =
               if existsb (String.eqb k) feeFields
                  && existsb (same_value_zero (VStr ("fees." +:+ k))) ed
               then None else spread (field d "fees") !! k).
Proof.
  unfold dropEditedFees, field. intros [Hn | (f & Hf)].
  - rewrite Hn. cbn. exists d. split; [done |]. split; [done |].
    intros k. rewrite Hn. cbn. rewrite lookup_empty. by destruct (_ && _).
  - rewrite Hf. cbn [default truthy]. unfold dropEditedFee.
    cbn [includes mbind option_bind].
    eexists. split; [reflexivity |]. split.
    + intros g Hg. by rewrite lookup_insert_ne.
    + intros k. rewrite lookup_insert_eq. cbn [default].
      set (b1 := existsb (same_value_zero (VStr ("fees." +:+ "management"))) ed).
      set (b2 := existsb (same_value_zero (VStr ("fees." +:+ "repair"))) ed).
      set (b3 := existsb (same_value_zero (VStr ("fees." +:+ "parking"))) ed).
      cbn [feeFields existsb].
      destruct (String.eqb_spec k "management") as [->|H1];
        [|destruct (String.eqb_spec k "repair") as [->|H2];
          [|destruct (String.eqb_spec k "parking") as [->|H3]]];
        cbn [orb andb]; fold b1 b2 b3;
        destruct b1, b2, b3; cbn;
        repeat (rewrite lookup_delete_eq || (rewrite lookup_delete_ne by done)); done.
Qed.

(** Every operation that takes an identifier starts in the same way:
    load, read the list, look the identifier up. *)
Lemma lookup_steps {A} (st st1 : store) (db : gmap string value) (ps : list value)
    (id : string) (k : value -> list value -> option nat -> M A) :
  loads st db ps st1 ->
  (let! d := getDb in
   let! props := lift (getp d "properties") in
   let! properties := lift (asArray props) in
   let! index := lift (findIndex (hasId id) properties) in
   k d properties index) st
  = match findIndex (hasId id) ps with
    | Some index => k (VObj db) ps index st1
    | None => None
    end.
Proof.
  intros (Hload & Hps). unfold bind at 1. rewrite Hload.
  unfold bind, lift. simpl. rewrite Hps. simpl. by destruct (findIndex _ ps).
Qed.

Lemma putProperty_saved (st1 : store) (db : gmap string value) (ps : list value) (i : nat)
    (prop : value) :
  putProperty (VObj db) ps i prop st1 = Some (prop, saved st1 db (<[i := prop]> ps)).
Proof. reflexivity. Qed.

End StorageFacts.

Section Merges.
Import Js Storage Spec.

(** What [refreshProperty] stores and returns for a record that exists:
    the incoming data without its marked fields, laid over the record, with
    the two fee bundles merged in the same way. *)
Lemma refresh_result (st st1 : store) (db : gmap string value) (ps : list value)
    (id : string) (i : nat) (cur : gmap string value) (ed : list value)
    (data : gmap string value) :
  loads st db ps st1 -> record_at id ps i cur -> edited_fields cur ed -> fees_typed data ->
  exists upd nf,
    refreshProperty id data st
    = Some (VObj (<["fees" := VObj (nf ∪ spread (field cur "fees"))]> (upd ∪ cur)),
            saved st1 db (<[i := VObj (<["fees" := VObj (nf ∪ spread (field cur "fees"))]>
                                          (upd ∪ cur))]> ps))
    /\ (forall f, f ≠ "fees" ->
          upd !! f = if existsb (String.eqb f) topLevelFields
                        && existsb (same_value_zero (VStr f)) ed
                     then None else data !! f)
    /\ (forall k,
          nf !! k = if existsb (String.eqb k) feeFields
                       && existsb (same_value_zero (VStr ("fees." +:+ k))) ed
                    then None else spread (field data "fees") !! k).
Proof.
  intros Hload Hrec Hed Hdf.
  unfold refreshProperty. rewrite (lookup_steps _ _ _ _ _ _ Hload).
  rewrite (findIndex_record _ _ _ _ Hrec).
  destruct Hrec as (Hi & Hid & _). rewrite Hi. cbn [from_option Datatypes.id].
  unfold bind at 1. cbn [lift getp]. fold (field cur "manuallyEditedFields").
  rewrite Hed.
  destruct (dropEdited_spec ed topLevelFields data) as (d1 & Hd1 & Hlook1).
  assert (d1 !! "fees" = data !! "fees") as Hsame.
  { rewrite Hlook1.
    by cbn [topLevelFields existsb String.eqb Ascii.eqb Bool.eqb orb andb]. }
  assert (fees_typed d1) as Hd1f by (unfold fees_typed; by rewrite Hsame).
  destruct (dropEditedFees_spec ed d1 Hd1f) as (d2 & Hd2 & Hlook2 & Hfees2).
  unfold bind at 1. rewrite Hd1. cbn [lift].
  unfold bind at 1. rewrite Hd2. cbn [lift].
  unfold bind at 1. cbn [lift getp]. rewrite putProperty_saved.
  eexists d2, _. split; [reflexivity |]. split.
  - intros f Hf. by rewrite Hlook2, Hlook1.
  - intros k. rewrite Hfees2. unfold field. by rewrite Hsame.
Qed.



Lemma trackKey_total (updates : gmap string value) (s : list value) (key : string) :
  fees_typed updates -> is_Some (trackKey updates s key).
Proof.
  unfold trackKey. intros [Hn | (f & Hf)].
  - rewrite Hn. cbn. rewrite andb_false_r. by destruct (_ && _).
  - rewrite Hf. cbn. rewrite andb_true_r.
    destruct (String.eqb key "fees"); [done |]. by destruct (_ && _).
Qed.

Lemma trackKeys_total (updates : gmap string value) (s : list value) :
  fees_typed updates -> is_Some (trackKeys updates s).
Proof.
  intros Hf. unfold trackKeys. generalize (keys updates). intros l. revert s.
  induction l as [|key l IH]; intros s; [done |].
  cbn [fold_left]. destruct (trackKey_total updates s key Hf) as (s' & Hs').
  cbn. rewrite Hs'. apply IH.
Qed.

(** What [updateProperty] stores and returns for a record that exists. *)
Lemma update_result (st st1 : store) (db : gmap string value) (ps : list value)
    (id : string) (i : nat) (cur : gmap string value) (ed : list value)
    (updates : gmap string value) :
  loads st db ps st1 -> record_at id ps i cur -> edited_fields cur ed -> fees_typed updates ->
  exists ed' new,
    updateProperty id updates st = Some (VObj new, saved st1 db (<[i := VObj new]> ps))
    /\ trackKeys updates (new_Set ed) = Some ed'
    /\ new = <["manuallyEditedFields" := VArr ed']>
               (<["fees" := if truthy (field updates "fees")
                            then VObj (spread (field updates "fees") ∪ spread (field cur "fees"))
                            else field cur "fees"]> (updates ∪ cur)).
Proof.
  intros Hload Hrec Hed Hdf.
  unfold updateProperty. rewrite (lookup_steps _ _ _ _ _ _ Hload).
  rewrite (findIndex_record _ _ _ _ Hrec).
  destruct Hrec as (Hi & Hid & _). rewrite Hi. cbn [from_option Datatypes.id].
  unfold bind at 1. cbn [lift getp]. fold (field cur "manuallyEditedFields").
  rewrite Hed. unfold bind at 1. cbn [lift iterate].
  destruct (trackKeys_total updates (new_Set ed) Hdf) as (ed' & Hed').
  unfold bind at 1. rewrite Hed'. cbn [lift].
  unfold bind at 1. cbn [lift getp]. rewrite putProperty_saved.
  eexists ed', _. split; [reflexivity |]. split; [done |]. reflexivity.
Qed.

(** C2, as amended.  The refresh merge, whose payload is a [PropertyData]
    and so has none of the fields [id], [createdAt], [ratings], [status],
    and the manual-edit merge when its payload has none of them, leave
    these four fields of the record as they were. *)
Theorem merges_keep_internal_fields (st st1 : store) (db : gmap string value)
    (ps : list value) (id : string) (i : nat) (cur : gmap string value)
    (ed : list value) (payload : gmap string value) :
  loads st db ps st1 -> record_at id ps i cur -> edited_fields cur ed ->
  fees_typed payload ->
  (forall k, k ∈ internalFields -> payload !! k = None) ->
  (exists new,
     refreshProperty id payload st = Some (VObj new, saved st1 db (<[i := VObj new]> ps))
     /\ forall k, k ∈ internalFields -> new !! k = cur !! k)
  /\ (exists new,
        updateProperty id payload st = Some (VObj new, saved st1 db (<[i := VObj new]> ps))
        /\ forall k, k ∈ internalFields -> new !! k = cur !! k).
Proof.
  intros Hload Hrec Hed Hpf Hnone.
  assert (forall k, k ∈ internalFields -> k ≠ "fees" /\ k ≠ "manuallyEditedFields") as Hint.
  { intros k Hk. apply existsb_eqb_elem in Hk. split; intros ->; discriminate. }
  split.
  - destruct (refresh_result _ _ _ _ _ _ _ _ _ Hload Hrec Hed Hpf)
      as (upd & nf & Hrun & Hupd & _).
    eexists. split; [exact Hrun |]. intros k Hk. destruct (Hint k Hk) as (Hne & _).
    rewrite lookup_insert_ne by done. apply lookup_union_r.
    rewrite Hupd by done. rewrite (Hnone k Hk). by destruct (_ && _).
  - destruct (update_result _ _ _ _ _ _ _ _ _ Hload Hrec Hed Hpf)
      as (ed' & new & Hrun & _ & ->).
    eexists. split; [exact Hrun |]. intros k Hk. destruct (Hint k Hk) as (Hne & Hne').
    rewrite !lookup_insert_ne by done. apply lookup_union_r. by apply Hnone.
Qed.

(** C3. Fee bundle: in both merges, a payload whose fee bundle has no
    [repair] (for one, a bundle holding [management] only) leaves the
    stored [fees.repair] in the merged record. *)
Theorem merges_keep_repair_fee (st st1 : store) (db : gmap string value)
    (ps : list value) (id : string) (i : nat) (cur : gmap string value)
    (ed : list value) (payload cf pf : gmap string value) (v : value) :
  loads st db ps st1 -> record_at id ps i cur -> edited_fields cur ed ->
  cur !! "fees" = Some (VObj cf) -> cf !! "repair" = Some v ->
  payload !! "fees" = Some (VObj pf) -> pf !! "repair" = None ->
  (exists new,
     refreshProperty id payload st = Some (VObj new, saved st1 db (<[i := VObj new]> ps))
     /\ fee new "repair" = v)
  /\ (exists new,
        updateProperty id payload st = Some (VObj new, saved st1 db (<[i := VObj new]> ps))
        /\ fee new "repair" = v).
Proof.
  intros Hload Hrec Hed Hcf Hv Hpf Hnone.
  assert (fees_typed payload) as Hty by (right; eauto).
  split.
  - destruct (refresh_result _ _ _ _ _ _ _ _ _ Hload Hrec Hed Hty)
      as (upd & nf & Hrun & _ & Hnf).
    eexists. split; [exact Hrun |].
    unfold fee, field. rewrite lookup_insert_eq. cbn.
    rewrite lookup_union_r.
    + unfold field. rewrite Hcf. cbn. by rewrite Hv.
    + rewrite Hnf. unfold field. rewrite Hpf.
      change (spread (default VUndef (Some (VObj pf)))) with pf. rewrite Hnone.
      by destruct (_ && _).
  - destruct (update_result _ _ _ _ _ _ _ _ _ Hload Hrec Hed Hty)
      as (ed' & new & Hrun & _ & ->).
    eexists. split; [exact Hrun |].
    unfold fee, field. rewrite lookup_insert_ne by done. rewrite lookup_insert_eq.
    rewrite Hpf, Hcf. cbn. rewrite lookup_union_r by done. by rewrite Hv.
Qed.

Lemma demo_loads : loads Demo.st Demo.db [VObj Demo.property] Demo.st.
Proof. split; vm_compute; reflexivity. Qed.

Lemma demo_record : record_at "p1" [VObj Demo.property] 0 Demo.property.
Proof. split; [reflexivity |]. split; [reflexivity |]. intros j q Hj. lia. Qed.

Lemma demo_edited :
  edited_fields Demo.property [VStr "price"; VStr "fees.management"].
Proof. reflexivity. Qed.


(** C2 as stated fails for the manual-edit merge: a payload that carries
    [status] replaces the stored status. *)
Lemma update_overwrites_status :
  exists new st',
    updateProperty "p1" Demo.statusEdit Demo.st = Some (VObj new, st')
    /\ field Demo.property "status" = VStr "considering"
    /\ field new "status" = VStr "excluded"
    /\ new !! "status" ≠ Demo.property !! "status".
Proof.
  eexists _, _. split; [vm_compute; reflexivity |].
  split; [reflexivity |]. split; [reflexivity |]. vm_compute. discriminate.
Qed.

Lemma merges_keep_internal_fields_witness :
  (exists new,
     refreshProperty "p1" Demo.data Demo.st
     = Some (VObj new, saved Demo.st Demo.db (<[0 := VObj new]> [VObj Demo.property]))
     /\ forall k, k ∈ internalFields -> new !! k = Demo.property !! k)
  /\ (exists new,
        updateProperty "p1" Demo.data Demo.st
        = Some (VObj new, saved Demo.st Demo.db (<[0 := VObj new]> [VObj Demo.property]))
        /\ forall k, k ∈ internalFields -> new !! k = Demo.property !! k).
Proof.
  apply (merges_keep_internal_fields Demo.st Demo.st Demo.db [VObj Demo.property]
           "p1" 0 Demo.property [VStr "price"; VStr "fees.management"] Demo.data).
  - exact demo_loads.
  - exact demo_record.
  - exact demo_edited.
  - right. eexists. reflexivity.
  - intros k Hk. apply existsb_eqb_elem in Hk. cbn in Hk.
    repeat (apply orb_prop in Hk as [Hk | Hk];
            [apply String.eqb_eq in Hk; subst k; reflexivity |]).
    discriminate.
Defined.

Lemma merges_keep_repair_fee_witness :
  (exists new,
     refreshProperty "p1" Demo.feeEdit Demo.st
     = Some (VObj new, saved Demo.st Demo.db (<[0 := VObj new]> [VObj Demo.property]))
     /\ fee new "repair" = VNum (Num 8000))
  /\ (exists new,
        updateProperty "p1" Demo.feeEdit Demo.st
        = Some (VObj new, saved Demo.st Demo.db (<[0 := VObj new]> [VObj Demo.property]))
        /\ fee new "repair" = VNum (Num 8000)).
Proof.
  apply (merges_keep_repair_fee Demo.st Demo.st Demo.db [VObj Demo.property]
           "p1" 0 Demo.property [VStr "price"; VStr "fees.management"] Demo.feeEdit
           (list_to_map [("management", VNum (Num 12000)); ("repair", VNum (Num 8000))])
           (list_to_map [("management", VNum (Num 13000))])).
  - exact demo_loads.
  - exact demo_record.
  - exact demo_edited.
  - reflexivity.
  - reflexivity.
  - reflexivity.
  - reflexivity.
Defined.

End Merges.

Section Lookup.
Import Js Storage Spec.

Lemma getDb_file (st st1 : store) (d : value) :
  getDb st = Some (d, st1) -> file st1 = Some d.
Proof.
  unfold getDb, bind, readFile. destruct (ensureDb st) as [[[] st']|]; [| done].
  destruct (file st') eqn:Hf; [| done]. intros [= <- <-]. done.
Qed.

Lemma find_first_url (u : string) (ps : list value) :
  Forall is_object ps ->
  (exists q, VObj q ∈ ps /\ q !! "url" = Some (VStr u)) ->
  exists e, find (hasUrl (VStr u)) ps = Some (VObj e) /\ VObj e ∈ ps
            /\ e !! "url" = Some (VStr u).
Proof.
  induction 1 as [|p ps (o & ->) Hps IH]; intros (q & Hq & Hu).
  - by apply elem_of_nil in Hq.
  - cbn [find hasUrl getp mbind option_bind].
    destruct (strict_eq (default VUndef (o !! "url")) (VStr u)) eqn:Heq.
    + exists o. split; [done |]. split; [apply list_elem_of_here |].
      apply strict_eq_str in Heq. destruct (o !! "url"); [by simplify_eq/= | done].
    + apply elem_of_cons in Hq as [Hq | Hq].
      * simplify_eq. rewrite Hu in Heq. cbn in Heq. by rewrite String.eqb_refl in Heq.
      * destruct IH as (e & He & Hin & Hurl); [by eauto |].
        exists e. split; [done |]. split; [by apply list_elem_of_further | done].
Qed.

(** C8. Adding a property whose URL is the URL of a stored record
    returns that stored record (the first one with this URL) and writes
    nothing: the store is the store left by the load, so the list of
    properties and its length are what they were. *)
Theorem addProperty_existing_url (st st1 : store) (db : gmap string value)
    (ps : list value) (property : gmap string value) (u uuid now : string) :
  loads st db ps st1 -> Forall is_object ps ->
  property !! "url" = Some (VStr u) ->
  (exists q, VObj q ∈ ps /\ q !! "url" = Some (VStr u)) ->
  exists e,
    addProperty property uuid now st = Some (VObj e, st1)
    /\ VObj e ∈ ps /\ e !! "url" = Some (VStr u)
    /\ file st1 = Some (VObj db) /\ db !! "properties" = Some (VArr ps).
Proof.
  intros Hload Hobj Hurl Hex.
  destruct (find_first_url u ps Hobj Hex) as (e & Hfind & Hin & He).
  exists e. destruct Hload as (Hload & Hps).
  split; [| by eauto using getDb_file].
  unfold addProperty. unfold bind at 1. rewrite Hload.
  unfold bind, lift. cbn [getp]. rewrite Hps, Hurl. cbn. by rewrite Hfind.
Qed.

Lemma filterM_no_record (id : string) (ps : list value) :
  no_record id ps -> filterM (fun p => b ← hasId id p; Some (negb b)) ps = Some ps.
Proof.
  induction 1 as [|p ps Hp _ IH]; [done |].
  cbn [filterM]. rewrite Hp. cbn. by rewrite IH.
Qed.

(** C9, as amended.  For an identifier that no record has,
    [updateRating], [updatePropertyStatus], [refreshProperty] and
    [updateProperty] return [null] and write nothing; [deleteProperty]
    returns nothing at all and writes the document back, unchanged. *)
Theorem unknown_id_outcomes (st st1 : store) (db : gmap string value) (ps : list value)
    (id userId status now : string) (ratingData data updates : gmap string value) :
  loads st db ps st1 -> no_record id ps ->
  updateRating id userId ratingData now st = Some (VNull, st1)
  /\ updatePropertyStatus id status st = Some (VNull, st1)
  /\ refreshProperty id data st = Some (VNull, st1)
  /\ updateProperty id updates st = Some (VNull, st1)
  /\ deleteProperty id st
     = Some (tt, {| file := Some (VObj db); writes := S (writes st1) |}).
Proof.
  intros Hload Hno.
  unfold updateRating, updatePropertyStatus, refreshProperty, updateProperty.
  rewrite !(lookup_steps _ _ _ _ _ _ Hload), (findIndex_no_record _ _ Hno).
  repeat (split; [reflexivity |]).
  destruct Hload as (Hload & Hps).
  unfold deleteProperty. unfold bind at 1. rewrite Hload.
  unfold bind, lift. cbn [getp]. rewrite Hps. cbn [default from_option Datatypes.id asArray].
  rewrite (filterM_no_record _ _ Hno). cbn. by rewrite insert_id.
Qed.

Lemma demo_no_record : no_record "zz" [VObj Demo.property].
Proof. repeat constructor. Qed.

Lemma addProperty_existing_url_witness :
  exists e,
    addProperty Demo.data "uuid-1" "2026-01-01T00:00:00.000Z" Demo.st = Some (VObj e, Demo.st)
    /\ VObj e ∈ [VObj Demo.property] /\ e !! "url" = Some (VStr "https://example.jp/1")
    /\ file Demo.st = Some (VObj Demo.db)
    /\ Demo.db !! "properties" = Some (VArr [VObj Demo.property]).
Proof.
  apply (addProperty_existing_url Demo.st Demo.st Demo.db [VObj Demo.property] Demo.data
           "https://example.jp/1").
  - exact demo_loads.
  - repeat constructor. by eexists.
  - reflexivity.
  - exists Demo.property. split; [apply list_elem_of_here | reflexivity].
Defined.

Lemma unknown_id_outcomes_witness :
  updateRating "zz" "u1" ∅ "2026-01-01T00:00:00.000Z" Demo.st = Some (VNull, Demo.st)
  /\ updatePropertyStatus "zz" "viewed" Demo.st = Some (VNull, Demo.st)
  /\ refreshProperty "zz" Demo.data Demo.st = Some (VNull, Demo.st)
  /\ updateProperty "zz" Demo.feeEdit Demo.st = Some (VNull, Demo.st)
  /\ deleteProperty "zz" Demo.st
     = Some (tt, {| file := Some (VObj Demo.db); writes := S (writes Demo.st) |}).
Proof.
  apply (unknown_id_outcomes Demo.st Demo.st Demo.db [VObj Demo.property]).
  - exact demo_loads.
  - exact demo_no_record.
Defined.

(** C9 as stated fails for [deleteProperty]: for an identifier that no
    record has it answers exactly as it does for one that exists, and it
    rewrites the store. *)
Lemma delete_unknown_id_is_silent :
  no_record "zz" [VObj Demo.property]
  /\ fst <$> deleteProperty "zz" Demo.st = Some tt
  /\ fst <$> deleteProperty "zz" Demo.st = fst <$> deleteProperty "p1" Demo.st
  /\ (writes ∘ snd) <$> deleteProperty "zz" Demo.st = Some (S (writes Demo.st)).
Proof.
  split; [exact demo_no_record |]. repeat split; vm_compute; reflexivity.
Qed.

End Lookup.

Section Migration.
Import Js Storage Spec.

Lemma default_ne_str (o : gmap string value) (key x : string) :
  o !! key ≠ Some (VStr x) -> strict_eq (default VUndef (o !! key)) (VStr x) = false.
Proof.
  intros Hne. apply not_true_is_false. intros Heq. apply strict_eq_str in Heq.
  destruct (o !! key); [by simplify_eq/= | done].
Qed.

Lemma renameLegacy_free (key : string) (x : value) :
  legacy_free key x -> renameLegacy key x = Some (x, false).
Proof.
  intros (o & -> & Ha & Hb). unfold renameLegacy. cbn [getp mbind option_bind].
  rewrite (default_ne_str _ _ _ Ha). cbn [fst snd getp mbind option_bind].
  by rewrite (default_ne_str _ _ _ Hb).
Qed.

Lemma for_each_unchanged (f : value -> option (value * bool)) (l : list value) :
  Forall (fun x => f x = Some (x, false)) l -> for_each f l = Some (l, false).
Proof.
  induction 1 as [|x l Hx _ IH]; [done |]. cbn [for_each]. by rewrite Hx, IH.
Qed.

Lemma migrateProp_current (p : value) :
  current_property p -> migrateProp p = Some (p, false).
Proof.
  intros (o & rs & -> & Hr & Hfree). unfold migrateProp.
  cbn [getp mbind option_bind]. rewrite Hr. cbn.
  rewrite for_each_unchanged.
  - cbn. by rewrite insert_id.
  - eapply Forall_impl; [exact Hfree |]. intros x. apply renameLegacy_free.
Qed.

Lemma length_not_zero (l : list value) :
  l ≠ [] -> Qeq_bool (inject_Z (Z.of_nat (length l))) 0 = false.
Proof. destruct l; [done |]. intros _. reflexivity. Qed.

(** On a document of the current shape no transformation applies. *)
Lemma migrate_current (db : gmap string value) :
  current_shape db -> migrate (VObj db) = Some (VObj db, false).
Proof.
  intros (us & (s & loan & ps & Hs & Hus & Hne & _ & Hloan & Hps & Hcur) & Hfree).
  unfold migrate.
  assert (migrateSettings (VObj db) = Some (VObj db, false)) as ->.
  { unfold migrateSettings. cbn [getp mbind option_bind]. rewrite Hs. cbn.
    rewrite Hus. cbn. rewrite (length_not_zero _ Hne). cbn. by rewrite Hloan. }
  cbn [mbind option_bind fst snd].
  assert (migrateProperties (VObj db) = Some (VObj db, false)) as ->.
  { unfold migrateProperties. cbn [getp mbind option_bind]. rewrite Hps. cbn.
    rewrite for_each_unchanged.
    - cbn. by rewrite insert_id.
    - eapply Forall_impl; [exact Hcur |]. intros x. apply migrateProp_current. }
  cbn [mbind option_bind fst snd].
  assert (migrateUserIds (VObj db) = Some (VObj db, false)) as ->.
  { unfold migrateUserIds. cbn [getp mbind option_bind]. rewrite Hs. cbn.
    rewrite Hus. cbn. rewrite for_each_unchanged.
    - cbn. rewrite (insert_id s) by done. by rewrite insert_id.
    - eapply Forall_impl; [exact Hfree |]. intros x. apply renameLegacy_free. }
  reflexivity.
Qed.

(** C6, as amended.  On a store whose document has the current shape,
    where the current shape also asks that no user of the settings carries
    a legacy identifier, the migration changes nothing and does not write;
    so running it twice is running it once, and loading returns the
    document as it is. *)
Theorem migrateDb_current_is_noop (st : store) (db : gmap string value) :
  file st = Some (VObj db) -> current_shape db ->
  migrateDb st = Some (tt, st)
  /\ (let! _ := migrateDb in migrateDb) st = migrateDb st
  /\ getDb st = Some (VObj db, st).
Proof.
  intros Hfile Hcur.
  assert (migrateDb st = Some (tt, st)) as Hm.
  { unfold migrateDb, bind, readFile, lift. rewrite Hfile.
    by rewrite (migrate_current _ Hcur). }
  split; [exact Hm |]. split.
  - unfold bind. by rewrite Hm.
  - unfold getDb, ensureDb, bind, fileExists. rewrite Hfile. cbn.
    rewrite Hm. unfold readFile. by rewrite Hfile.
Qed.

Lemma demo_current : current_shape Demo.db.
Proof.
  exists [userConfig (VStr "u1") (VStr "A") (VStr "*")]. split.
  - eexists _, _, _. split; [reflexivity |]. split; [reflexivity |].
    split; [done |]. split; [repeat constructor; by eexists |].
    split; [reflexivity |]. split; [reflexivity |].
    repeat constructor. eexists _, _. split; [reflexivity |].
    split; [reflexivity | constructor].
  - repeat constructor. eexists. split; [reflexivity |]. split; vm_compute; discriminate.
Qed.

Lemma migrateDb_current_is_noop_witness :
  migrateDb Demo.st = Some (tt, Demo.st)
  /\ (let! _ := migrateDb in migrateDb) Demo.st = migrateDb Demo.st
  /\ getDb Demo.st = Some (VObj Demo.db, Demo.st).
Proof.
  apply (migrateDb_current_is_noop Demo.st Demo.db).
  - reflexivity.
  - exact demo_current.
Defined.

(** C6 as stated fails: a document with a user list that is not empty,
    a loan bundle and no property at all still has a legacy identifier
    in its settings, and the migration rewrites it. *)
Lemma migrateDb_rewrites_legacy_user :
  claimed_current Demo.legacyUserDb [userConfig (VStr "user-a") (VStr "A") (VStr "*")]
  /\ exists db',
       migrateDb {| file := Some (VObj Demo.legacyUserDb); writes := 0 |}
       = Some (tt, {| file := Some (VObj db'); writes := 1 |})
       /\ db' ≠ Demo.legacyUserDb.
Proof.
  split.
  - eexists _, _, _. split; [reflexivity |]. split; [reflexivity |].
    split; [done |]. split; [repeat constructor; by eexists |].
    split; [reflexivity |]. split; [reflexivity | constructor].
  - eexists. split; [vm_compute; reflexivity |]. vm_compute. discriminate.
Qed.

Lemma for_each_total (f : value -> option (value * bool)) (l : list value) :
  Forall (fun x => is_Some (f x)) l -> is_Some (for_each f l).
Proof.
  induction 1 as [|x l (r & Hx) _ (rs & IH)]; [done |].
  cbn [for_each]. rewrite Hx, IH. done.
Qed.

Lemma for_each_lookup (f : value -> option (value * bool)) (l l' : list value) (c : bool)
    (i : nat) (x x' : value) :
  for_each f l = Some (l', c) -> l !! i = Some x -> f x = Some (x', true) ->
  l' !! i = Some x' /\ c = true.
Proof.
  revert l' c i. induction l as [|y l IH]; intros l' c i Hrun Hi Hx; [done |].
  cbn [for_each] in Hrun.
  destruct (f y) as [[y' cy]|] eqn:Hy; [| done].
  destruct (for_each f l) as [[l0 c0]|] eqn:Hl; [| done].
  cbn in Hrun. simplify_eq. destruct i as [|i]; cbn in Hi.
  - simplify_eq. done.
  - destruct (IH _ _ _ eq_refl Hi Hx) as (Hi' & ->). split; [done |].
    apply orb_true_r.
Qed.

Lemma getp_truthy (v : value) (k : string) : truthy v = true -> is_Some (getp v k).
Proof. destruct v; done. Qed.

Lemma renameLegacy_object (key : string) (o : gmap string value) :
  exists o' c, renameLegacy key (VObj o) = Some (VObj o', c).
Proof.
  unfold renameLegacy. cbn [getp mbind option_bind].
  destruct (strict_eq _ (VStr "user-a")); cbn [setp getp mbind option_bind fst snd];
    destruct (strict_eq _ (VStr "user-b")); cbn; eauto.
Qed.

Lemma legacyRating_total (uid : string) (o : gmap string value) (partner : value) :
  is_Some (legacyRating uid (VObj o) partner).
Proof.
  unfold legacyRating. destruct (truthy partner) eqn:Ht; [| done].
  destruct (getp_truthy partner "score" Ht) as (sc & ->).
  destruct (getp_truthy partner "comment" Ht) as (cm & ->).
  cbn. by destruct (_ || _).
Qed.

Lemma migrateProp_total (p : value) : typed_property p -> is_Some (migrateProp p).
Proof.
  intros (o & -> & Hty). unfold migrateProp. cbn [getp mbind option_bind].
  destruct (o !! "ratings") as [r|] eqn:Hr; [| done]. cbn [default from_option id].
  destruct (truthy r && negb (isArray r)) eqn:Hlegacy.
  - apply andb_prop in Hlegacy as (Ht & _).
    destruct (getp_truthy r "partnerA" Ht) as (pa & ->).
    destruct (getp_truthy r "partnerB" Ht) as (pb & ->). cbn [mbind option_bind].
    destruct (legacyRating_total "u1" o pa) as (ra & ->).
    destruct (legacyRating_total "u2" o pb) as (rb & ->). done.
  - destruct (truthy r) eqn:Ht; [| done]. cbn [negb].
    destruct r as [| | | | |rs|]; try done. cbn [isArray asArray mbind option_bind].
    destruct (for_each_total (renameLegacy "userId") rs) as (res & ->); [| done].
    eapply Forall_impl; [exact (Hty rs eq_refl) |].
    intros x (ro & ->). destruct (renameLegacy_object "userId" ro) as (? & ? & ->). done.
Qed.

(** The partner-A bundle becomes one list entry. *)
Lemma migrateProp_legacy (o : gmap string value) (score comment : value) :
  o !! "ratings" = Some (legacy_ratings score comment) ->
  truthy score || truthy comment = true ->
  migrateProp (VObj o)
  = Some (VObj (<["ratings" := VArr [migrated_rating score comment (field o "createdAt")]]> o),
          true).
Proof.
  intros Hr Ht. unfold migrateProp. cbn [getp mbind option_bind]. rewrite Hr.
  cbn [default from_option id legacy_ratings obj truthy isArray negb andb getp].
  change (default VUndef (list_to_map [("partnerA", obj [("score", score); ("comment", comment)])]
                          !! "partnerA"))
    with (obj [("score", score); ("comment", comment)]).
  change (default VUndef (list_to_map [("partnerA", obj [("score", score); ("comment", comment)])]
                          !! "partnerB"))
    with VUndef.
  unfold legacyRating. cbn [obj truthy getp mbind option_bind].
  change (default VUndef (list_to_map [("score", score); ("comment", comment)] !! "score"))
    with score.
  change (default VUndef (list_to_map [("score", score); ("comment", comment)] !! "comment"))
    with comment.
  cbn [mbind option_bind]. rewrite Ht. reflexivity.
Qed.

Lemma legacyUser_objects (id dflt : string) (partner : value) :
  exists us, legacyUser id dflt partner = Some us /\ Forall is_object us.
Proof.
  unfold legacyUser. destruct (truthy partner) eqn:Ht; [| by eexists].
  destruct (getp_truthy partner "name" Ht) as (n & ->).
  destruct (getp_truthy partner "icon" Ht) as (ic & ->).
  eexists. split; [reflexivity |]. repeat constructor. by eexists.
Qed.

Lemma truthy_users_object (settings : value) :
  truthy settings = true ->
  (exists u, getp settings "users" = Some u /\ truthy u = true) ->
  exists s, settings = VObj s.
Proof.
  intros _ (u & Hu & Ht). destruct settings; simplify_eq/=; try done. by eexists.
Qed.

Lemma migrateSettings_total (db : gmap string value) :
  exists db' c,
    migrateSettings (VObj db) = Some (VObj db', c)
    /\ db' !! "properties" = db !! "properties"
    /\ (typed_users db -> typed_users db').
Proof.
  unfold migrateSettings. cbn [getp mbind option_bind].
  set (settings := default VUndef (db !! "settings")).
  assert (forall us, Forall is_object us ->
            typed_users (<["settings" := obj [("users", VArr us); ("loan", defaultLoan)]]> db))
    as Hfresh.
  { intros us Hus u. unfold field. rewrite lookup_insert_eq.
    intros [= <-] _. eauto. }
  assert (exists db' c,
            (let oldSettings := or_else settings (obj []) in
             pa ← getp oldSettings "partnerA";
             ua ← legacyUser "u1" "ユーザー1" pa;
             pb ← getp oldSettings "partnerB";
             ub ← legacyUser "u2" "ユーザー2" pb;
             let users := ua ++ ub in
             let users := if Nat.eqb (length users) 0
                          then [userConfig (VStr "u1") (VStr "ユーザー1") (VStr "👤")]
                          else users in
             db' ← setp (VObj db) "settings" (obj [("users", VArr users); ("loan", defaultLoan)]);
             Some (db', true)) = Some (VObj db', c)
            /\ db' !! "properties" = db !! "properties"
            /\ (typed_users db -> typed_users db')) as Hmissing.
  { cbn zeta.
    assert (truthy (or_else settings (obj [])) = true) as Hold.
    { unfold or_else. by destruct (truthy settings) eqn:E. }
    destruct (getp_truthy _ "partnerA" Hold) as (pa & ->).
    destruct (getp_truthy _ "partnerB" Hold) as (pb & ->). cbn [mbind option_bind].
    destruct (legacyUser_objects "u1" "ユーザー1" pa) as (ua & -> & Hua).
    destruct (legacyUser_objects "u2" "ユーザー2" pb) as (ub & -> & Hub).
    cbn [mbind option_bind setp]. eexists _, _. split; [reflexivity |].
    split; [by rewrite lookup_insert_ne |]. intros _. apply Hfresh.
    destruct (Nat.eqb _ 0); [repeat constructor; by eexists | by apply Forall_app]. }
  destruct (truthy settings) eqn:Hts; cbn [negb]; [| exact Hmissing].
  destruct (getp_truthy settings "users" Hts) as (u & Hu). rewrite Hu.
  cbn [mbind option_bind].
  destruct (truthy u) eqn:Htu; cbn [negb]; [| exact Hmissing].
  destruct (getp_truthy u "length" Htu) as (len & ->). cbn [mbind option_bind].
  destruct (strict_eq len (VNum (Num 0))); [exact Hmissing |].
  destruct (truthy_users_object settings Hts) as (s & Hs); [by eauto |].
  rewrite Hs. cbn [getp mbind option_bind].
  destruct (truthy (default VUndef (s !! "loan"))); cbn [negb setp mbind option_bind].
  - eexists _, _. split; [reflexivity |]. done.
  - eexists _, _. split; [reflexivity |]. split; [by rewrite lookup_insert_ne |].
    intros Hty v. unfold field. rewrite lookup_insert_eq. cbn.
    rewrite lookup_insert_ne by done. intros Hv Htv. apply Hty; [| done].
    unfold field. fold settings. rewrite Hs. exact Hv.
Qed.

Lemma migrateUserIds_total (db : gmap string value) :
  typed_users db ->
  exists db' c,
    migrateUserIds (VObj db) = Some (VObj db', c)
    /\ db' !! "properties" = db !! "properties".
Proof.
  intros Hty. unfold migrateUserIds. cbn [getp mbind option_bind].
  fold (field db "settings").
  assert (is_Some (getp_opt (field db "settings") "users")) as (u & Hu).
  { unfold getp_opt. by destruct (field db "settings"). }
  rewrite Hu. cbn [mbind option_bind].
  destruct (truthy u) eqn:Htu; [| by eexists _, _].
  destruct (Hty u Hu Htu) as (us & -> & Hus). cbn [iterate isArray mbind option_bind].
  destruct (for_each_total (renameLegacy "id") us) as ([us' c] & ->).
  { eapply Forall_impl; [exact Hus |].
    intros x (ro & ->). destruct (renameLegacy_object "id" ro) as (? & ? & ->). done. }
  cbn [mbind option_bind fst snd].
  assert (exists s, field db "settings" = VObj s) as (s & ->).
  { unfold getp_opt in Hu. destruct (field db "settings"); simplify_eq/=. by eexists. }
  cbn [setp mbind option_bind]. eexists _, _. split; [reflexivity |].
  by rewrite lookup_insert_ne.
Qed.

(** C7. A stored property whose ratings are the legacy bundle with a
    rating of partner A only (a score or a comment that is not empty)
    comes out of the migration with a ratings list of exactly one entry:
    user [u1], the same score and comment, and the property's [createdAt]
    as [updatedAt].  The document is typed as in [PropertyWithId] or its
    legacy form; the migrated document is written. *)
Theorem migrateDb_converts_legacy_rating (st : store) (db : gmap string value)
    (ps : list value) (i : nat) (p : gmap string value) (score comment : value) :
  file st = Some (VObj db) -> db !! "properties" = Some (VArr ps) ->
  Forall typed_property ps -> typed_users db ->
  ps !! i = Some (VObj p) ->
  p !! "ratings" = Some (legacy_ratings score comment) ->
  truthy score || truthy comment = true ->
  exists db' ps',
    migrateDb st = Some (tt, {| file := Some (VObj db'); writes := S (writes st) |})
    /\ db' !! "properties" = Some (VArr ps')
    /\ ps' !! i
       = Some (VObj (<["ratings" := VArr [migrated_rating score comment (field p "createdAt")]]> p)).
Proof.
  intros Hfile Hps Hty Husers Hi Hr Ht.
  destruct (migrateSettings_total db) as (db1 & c1 & Hm1 & Hp1 & Hu1).
  assert (exists ps' c2, for_each migrateProp ps = Some (ps', c2)) as (ps' & c2 & Hfe).
  { destruct (for_each_total migrateProp ps) as ([ps' c2] & Hfe); [| by eauto].
    eapply Forall_impl; [exact Hty |]. apply migrateProp_total. }
  destruct (for_each_lookup _ _ _ _ _ _ _ Hfe Hi (migrateProp_legacy p score comment Hr Ht))
    as (Hi' & ->).
  assert (typed_users (<["properties" := VArr ps']> db1)) as Hu2.
  { intros u. unfold field. rewrite lookup_insert_ne by done. by apply Hu1. }
  destruct (migrateUserIds_total _ Hu2) as (db3 & c3 & Hm3 & Hp3).
  exists db3, ps'. split; [| split; [| exact Hi']].
  - unfold migrateDb, bind, readFile, lift. rewrite Hfile.
    unfold migrate. rewrite Hm1. cbn [mbind option_bind fst snd].
    unfold migrateProperties. cbn [getp mbind option_bind]. rewrite Hp1, Hps.
    cbn [default from_option id truthy iterate mbind option_bind]. rewrite Hfe.
    cbn [isArray setp mbind option_bind fst snd]. rewrite Hm3.
    cbn [mbind option_bind fst snd]. rewrite orb_true_r. reflexivity.
  - rewrite Hp3. by rewrite lookup_insert_eq.
Qed.

Lemma migrateDb_converts_legacy_rating_witness :
  exists db' ps',
    migrateDb {| file := Some (VObj Demo.legacyDb); writes := 0 |}
    = Some (tt, {| file := Some (VObj db'); writes := 1 |})
    /\ db' !! "properties" = Some (VArr ps')
    /\ ps' !! 0
       = Some (VObj (<["ratings" := VArr [migrated_rating (VStr "good") (VStr "c")
                                           (field Demo.legacyProperty "createdAt")]]>
                       Demo.legacyProperty)).
Proof.
  apply (migrateDb_converts_legacy_rating {| file := Some (VObj Demo.legacyDb); writes := 0 |}
           Demo.legacyDb [VObj Demo.legacyProperty] 0 Demo.legacyProperty
           (VStr "good") (VStr "c")).
  - reflexivity.
  - reflexivity.
  - repeat constructor. eexists. split; [reflexivity |]. intros rs Hrs. vm_compute in Hrs.
    discriminate.
  - intros u Hu Htu. vm_compute in Hu. injection Hu as <-. discriminate.
  - reflexivity.
  - reflexivity.
  - reflexivity.
Defined.

End Migration.

(** * Properties of the matcher *)

Section RegexFacts.
Import Regex Scraper.
Context {A : Type}.
Implicit Types (k : mstate -> option A) (p : N -> bool) (s : jsstring).

Lemma or_try_None_r (a : option A) : or_try a None = a.
Proof. by destruct a. Qed.

Lemma run_Seq (r1 r2 : regex) (st : mstate) k :
  run (Seq r1 r2) st k = run r1 st (fun st1 => run r2 st1 k).
Proof. reflexivity. Qed.

Lemma run_Alt (r1 r2 : regex) (st : mstate) k :
  run (Alt r1 r2) st k = or_try (run r1 st k) (run r2 st k).
Proof. reflexivity. Qed.

Lemma run_Group (n : nat) (r : regex) (st : mstate) k :
  run (Group n r) st k
  = run r st (fun st1 =>
      k {| rest := rest st1;
           caps := <[n := take (length (rest st) - length (rest st1)) (rest st)]> (caps st1) |}).
Proof. reflexivity. Qed.

Lemma run_Chr p s (c : gmap nat jsstring) k :
  run (Chr p) {| rest := s; caps := c |} k
  = match s with
    | x :: s' => if p x then k {| rest := s'; caps := c |} else None
    | [] => None
    end.
Proof. reflexivity. Qed.

(** One step of a star over a character class. *)
Lemma star_chr_unfold (greedy : bool) p s (c : gmap nat jsstring) k :
  run (Star greedy (Chr p)) {| rest := s; caps := c |} k =
  match s with
  | x :: s' =>
      if p x then
        let next := run (Star greedy (Chr p)) {| rest := s'; caps := c |} k in
        if greedy then or_try next (k {| rest := s; caps := c |})
        else or_try (k {| rest := s; caps := c |}) next
      else k {| rest := s; caps := c |}
  | [] => k {| rest := s; caps := c |}
  end.
Proof.
  destruct s as [|x s']; [reflexivity |].
  cbn [run rest caps length star_loop]. destruct (p x).
  - replace (length s' <? S (length s')) with true
      by (symmetry; apply Nat.ltb_lt; lia).
    reflexivity.
  - destruct greedy; [reflexivity | apply or_try_None_r].
Qed.

(** A greedy star whose continuation refuses every input that still
    begins in the class stops exactly where the class ends. *)
Lemma star_greedy_max p s (c : gmap nat jsstring) k :
  (forall x s', p x = true -> k {| rest := x :: s'; caps := c |} = None) ->
  run (Star true (Chr p)) {| rest := s; caps := c |} k
  = k {| rest := drop_while p s; caps := c |}.
Proof.
  intros Hrej. induction s as [|x s IH]; rewrite star_chr_unfold; [reflexivity |].
  cbn [drop_while]. destruct (p x) eqn:Hx; [| reflexivity].
  cbn zeta. rewrite IH, (Hrej x s Hx). apply or_try_None_r.
Qed.

(** A greedy star takes the longest run when the continuation accepts there. *)
Lemma star_greedy_first p s (c : gmap nat jsstring) k (x : A) :
  k {| rest := drop_while p s; caps := c |} = Some x ->
  run (Star true (Chr p)) {| rest := s; caps := c |} k = Some x.
Proof.
  induction s as [|y s IH]; rewrite star_chr_unfold; [done |].
  cbn [drop_while]. destruct (p y) eqn:Hy; [| done].
  intros Hk. cbn zeta. by rewrite (IH Hk).
Qed.

Lemma run_lit (w : jsstring) s (c : gmap nat jsstring) k :
  run (lit w) {| rest := s; caps := c |} k
  = if startsWith w s then k {| rest := drop (length w) s; caps := c |} else None.
Proof.
  revert s. induction w as [|x w IH]; intros s; [reflexivity |].
  cbn [lit run chr rest caps]. destruct s as [|y s]; [reflexivity |].
  cbn [startsWith length drop]. destruct (x =? y)%N; [apply IH | reflexivity].
Qed.

Lemma length_drop_while p s : length (drop_while p s) <= length s.
Proof. induction s as [|x s IH]; cbn; [lia |]. destruct (p x); cbn; lia. Qed.

Lemma take_while_take p s :
  take (length s - length (drop_while p s)) s = take_while p s.
Proof.
  induction s as [|x s IH]; [reflexivity |]. cbn [drop_while take_while].
  destruct (p x).
  - pose proof (length_drop_while p s).
    replace (length (x :: s) - length (drop_while p s))
      with (S (length s - length (drop_while p s))) by (cbn [length]; lia).
    cbn [take]. by rewrite IH.
  - by rewrite Nat.sub_diag.
Qed.

Lemma take_while_app_drop p s : take_while p s ++ drop_while p s = s.
Proof.
  induction s as [|x s IH]; [reflexivity |]. cbn. destruct (p x); [| reflexivity].
  cbn. by rewrite IH.
Qed.

Lemma take_cons_while p (x : N) s :
  p x = true ->
  take (length (x :: s) - length (drop_while p s)) (x :: s) = take_while p (x :: s).
Proof.
  intros Hx. pose proof (length_drop_while p s).
  replace (length (x :: s) - length (drop_while p s))
    with (S (length s - length (drop_while p s))) by (cbn [length]; lia).
  cbn [take take_while]. by rewrite Hx, take_while_take.
Qed.

End RegexFacts.

Section SearchFacts.
Import Regex.

Lemma or_try_fmap {A B} (f : A -> B) (a b : option A) :
  f <$> or_try a b = or_try (f <$> a) (f <$> b).
Proof. by destruct a. Qed.

(** Group [n > 0] of a match found by [search_from] is the capture of the run. *)
Lemma search_from_group (r : regex) (n : nat) (i : nat) (s : jsstring) :
  n ≠ 0 ->
  group n <$> search_from r i s
  = match (fun st => caps st !! n) <$> run r {| rest := s; caps := ∅ |} Some with
    | Some g => Some g
    | None =>
        match s with
        | [] => None
        | _ :: s' => group n <$> search_from r (S i) s'
        end
    end.
Proof.
  intros Hn. destruct s as [|x s]; cbn [search_from];
    destruct (run r _ Some) as [st|]; cbn; try reflexivity;
    unfold group; cbn; by rewrite lookup_insert_ne.
Qed.

End SearchFacts.

(** * Properties of the text heuristics *)

Section Characters.
Import Regex.

Ltac class_facts :=
  unfold is_digit_dot, is_digit, is_space, is_line_terminator in *;
  repeat match goal with
         | H : _ = true |- _ =>
             rewrite ?orb_true_iff, ?andb_true_iff, ?N.eqb_eq, ?N.leb_le in H
         end;
  try (apply not_true_iff_false;
       rewrite ?orb_true_iff, ?andb_true_iff, ?N.eqb_eq, ?N.leb_le);
  lia.

Lemma digit_dot_not_space (c : N) : is_digit_dot c = true -> is_space c = false.
Proof. intros H. class_facts. Qed.

Lemma digit_dot_not_man (c : N) : is_digit_dot c = true -> (19975 =? c)%N = false.
Proof. intros H. class_facts. Qed.

Lemma space_not_man (c : N) : is_space c = true -> (19975 =? c)%N = false.
Proof. intros H. class_facts. Qed.

Lemma digit_is_digit_dot (c : N) : is_digit c = true -> is_digit_dot c = true.
Proof. unfold is_digit_dot. intros ->. reflexivity. Qed.

Lemma digit_not_nen (c : N) : is_digit c = true -> (24180 =? c)%N = false.
Proof. intros H. class_facts. Qed.

Lemma digit_not_terminator (c : N) : is_digit c = true -> is_line_terminator c = false.
Proof. intros H. class_facts. Qed.

End Characters.

Section Numbers.
Import Js Regex Scraper Rules.

Lemma run_bare_form (x : N) (s : jsstring) :
  is_digit_dot x = true ->
  run re_bare_form {| rest := x :: s; caps := ∅ |} Some
  = Some {| rest := drop_while is_digit_dot (x :: s);
            caps := <[3 := take_while is_digit_dot (x :: s)]> ∅ |}.
Proof.
  intros Hx. unfold re_bare_form, plus. rewrite run_Group, run_Seq, run_Chr, Hx.
  apply star_greedy_first. cbn [rest caps drop_while]. rewrite Hx.
  by rewrite take_cons_while.
Qed.

Lemma run_man_form (x : N) (s : jsstring) :
  is_digit_dot x = true ->
  run re_man_form {| rest := x :: s; caps := ∅ |} Some
  = match drop_while is_space (drop_while is_digit_dot (x :: s)) with
    | c :: r3 =>
        if (c =? c_man)%N then
          Some {| rest := drop_while is_digit_dot (drop_while is_space r3);
                  caps := <[2 := take_while is_digit_dot (drop_while is_space r3)]>
                            (<[1 := take_while is_digit_dot (x :: s)]> ∅) |}
        else None
    | [] => None
    end.
Proof.
  intros Hx. unfold re_man_form, plus.
  rewrite run_Seq, run_Group, run_Seq, run_Chr, Hx.
  rewrite star_greedy_max.
  2:{ intros y s' Hy. cbn [rest caps]. rewrite run_Seq, star_chr_unfold.
      rewrite (digit_dot_not_space y Hy). rewrite run_Seq, run_lit.
      change (js "万") with [19975%N]. cbn [startsWith].
      by rewrite (digit_dot_not_man y Hy). }
  cbn [rest caps drop_while]. rewrite Hx, take_cons_while by done.
  rewrite run_Seq, star_greedy_max.
  2:{ intros y s' Hy. rewrite run_Seq, run_lit. change (js "万") with [19975%N].
      cbn [startsWith]. by rewrite (space_not_man y Hy). }
  rewrite run_Seq, run_lit. change (js "万") with [19975%N].
  destruct (drop_while is_space (drop_while is_digit_dot s)) as [|c r3]; [reflexivity |].
  cbn [startsWith length drop]. rewrite andb_true_r, N.eqb_sym.
  unfold c_man. destruct (c =? 19975)%N; [| reflexivity].
  rewrite run_Seq. apply star_greedy_first. rewrite run_Group.
  apply star_greedy_first. cbn [rest caps]. by rewrite take_while_take.
Qed.

Lemma run_number_no_numeral (s : jsstring) :
  match s with x :: _ => is_digit_dot x = false | [] => True end ->
  run re_number {| rest := s; caps := ∅ |} Some = None.
Proof.
  intros Hs. unfold re_number, plus.
  rewrite run_Alt, run_Seq, !run_Group, !run_Seq, !run_Chr.
  destruct s as [|x s]; [reflexivity |]. by rewrite Hs.
Qed.

(** Where the literal matches first, and what it captures there. *)
Lemma search_number (t : jsstring) (i : nat) :
  three_groups <$> search_from re_number i t
  = match drop_while (fun c => negb (is_digit_dot c)) t with
    | [] => None
    | x :: s => let g := (number_groups (x :: s)).1 in Some (g !! 1, g !! 2, g !! 3)
    end.
Proof.
  revert i. induction t as [|x t IH]; intros i.
  - cbn [search_from]. by rewrite run_number_no_numeral.
  - cbn [search_from drop_while]. destruct (is_digit_dot x) eqn:Hx; cbn [negb].
    + change re_number with (Alt re_man_form re_bare_form).
      rewrite run_Alt, run_man_form, run_bare_form by done.
      unfold number_groups.
      destruct (drop_while is_space (drop_while is_digit_dot (x :: t))) as [|c r3];
        [reflexivity |].
      destruct (c =? c_man)%N; reflexivity.
    + rewrite run_number_no_numeral by done. apply IH.
Qed.

Lemma take_while_nonempty (x : N) (s : jsstring) :
  is_digit_dot x = true -> exists s', take_while is_digit_dot (x :: s) = x :: s'.
Proof. intros Hx. cbn. rewrite Hx. by eexists. Qed.

(** The source and the direct reading of the text agree on every input. *)
Lemma parseJapaneseNumber_scan (val : jsstring) :
  parseJapaneseNumber val = number_rule val.
Proof.
  unfold parseJapaneseNumber, number_rule, first_numeral, search.
  destruct val as [|v val]; [reflexivity |]. cbn [length Nat.eqb].
  pose proof (search_number (strip_commas (v :: val)) 0) as Hs.
  destruct (drop_while (fun c => negb (is_digit_dot c)) (strip_commas (v :: val)))
    as [|x s] eqn:Hd.
  - destruct (search_from re_number 0 _); [discriminate | reflexivity].
  - assert (is_digit_dot x = true) as Hx.
    { clear Hs. revert Hd. generalize (strip_commas (v :: val)). intros t.
      induction t as [|y t IH]; [done |]. cbn [drop_while].
      destruct (is_digit_dot y) eqn:Hy; cbn [negb]; [by intros [= <- _] | exact IH]. }
    destruct (search_from re_number 0 _) as [m|]; [| discriminate].
    cbn [fmap option_fmap option_map] in Hs. injection Hs as H1 H2 H3.
    unfold number_groups in H1, H2, H3.
    destruct (take_while_nonempty x s Hx) as (s' & Hrun).
    destruct (drop_while is_space (drop_while is_digit_dot (x :: s))) as [|c r3].
    + cbn in H1, H2, H3. rewrite H1, H3. reflexivity.
    + destruct (c =? c_man)%N.
      * cbn [fst] in H1, H2, H3.
        rewrite lookup_insert_ne, lookup_insert_eq in H1 by done.
        rewrite lookup_insert_eq in H2.
        rewrite H1, H2, Hrun. cbn [present default from_option id].
        by destruct (take_while is_digit_dot (drop_while is_space r3)).
      * cbn in H1, H2, H3. rewrite H1, H3. reflexivity.
Qed.




(** The first branch has no guard against a run that is not a number. *)
Example parseJapaneseNumber_lone_dot : parseJapaneseNumber (js ".万") = NaN.
Proof. vm_compute. reflexivity. Qed.

End Numbers.

Section Years.
Import Js Regex Scraper Rules.

Lemma four_digits_Some (s y : jsstring) :
  four_digits s = Some y ->
  exists d1 d2 d3 d4 s', s = d1 :: d2 :: d3 :: d4 :: s' /\ y = [d1; d2; d3; d4]
                         /\ is_digit d1 = true.
Proof.
  destruct s as [|d1 [|d2 [|d3 [|d4 s']]]]; cbn [four_digits]; try done.
  destruct (is_digit d1) eqn:H1; [| done].
  destruct (is_digit d2), (is_digit d3), (is_digit d4); cbn [andb]; try done.
  intros [= <-]. by eexists _, _, _, _, _.
Qed.

Lemma run_digit4 {A} (s : jsstring) (c : gmap nat jsstring) (k : mstate -> option A) :
  run digit4 {| rest := s; caps := c |} k
  = match four_digits s with
    | Some _ => k {| rest := drop 4 s; caps := c |}
    | None => None
    end.
Proof.
  unfold digit4. cbn [run rest caps].
  destruct s as [|d1 [|d2 [|d3 [|d4 s']]]]; cbn [four_digits];
    repeat (match goal with |- context [is_digit ?d] => destruct (is_digit d) end;
            cbn [andb]); reflexivity.
Qed.

Lemma run_group_digit4 {A} (s : jsstring) (c : gmap nat jsstring) (k : mstate -> option A) :
  run (Group 1 digit4) {| rest := s; caps := c |} k
  = match four_digits s with
    | Some y => k {| rest := drop 4 s; caps := <[1 := y]> c |}
    | None => None
    end.
Proof.
  rewrite run_Group, run_digit4. destruct (four_digits s) as [y|] eqn:Hy; [| done].
  destruct (four_digits_Some _ _ Hy) as (d1 & d2 & d3 & d4 & s' & -> & -> & _).
  cbn [rest caps]. change (drop 4 (d1 :: d2 :: d3 :: d4 :: s')) with s'.
  replace (length (d1 :: d2 :: d3 :: d4 :: s') - length s') with 4 by (cbn [length]; lia).
  reflexivity.
Qed.

(** The lazy [.*?] in front of the four digits finds the first four
    consecutive digits of the line. *)
Lemma run_year_on_line (s : jsstring) (c : gmap nat jsstring) :
  (fun st => caps st !! 1) <$> run (Seq (Star false dot) (Group 1 digit4))
                                  {| rest := s; caps := c |} Some
  = Some <$> year_on_line s.
Proof.
  induction s as [|x s IH]; rewrite run_Seq; unfold dot; rewrite star_chr_unfold;
    rewrite run_group_digit4.
  - reflexivity.
  - cbn [year_on_line]. destruct (four_digits (x :: s)) as [y|] eqn:Hy.
    + destruct (negb (is_line_terminator x)); cbn; by rewrite lookup_insert_eq.
    + destruct (is_line_terminator x); cbn [negb]; [reflexivity |].
      cbn [or_try]. rewrite run_Seq in IH. exact IH.
Qed.

Lemma run_year_after (l s : jsstring) :
  (fun st => caps st !! 1)
    <$> run (lit l) {| rest := s; caps := ∅ |}
          (fun st1 => run (Seq (Star false dot) (Group 1 digit4)) st1 Some)
  = Some <$> year_after l s.
Proof.
  rewrite run_lit. unfold year_after. destruct (startsWith l s); [| reflexivity].
  apply run_year_on_line.
Qed.

Lemma search_specificYear (s : jsstring) (i : nat) :
  group 1 <$> search_from re_specificYear i s = Some <$> labelled_year s.
Proof.
  revert i. induction s as [|x s IH]; intros i;
    rewrite search_from_group by done; unfold re_specificYear;
    rewrite run_Seq, !run_Alt, !or_try_fmap, !run_year_after, <- !or_try_fmap;
    cbn [labelled_year];
    destruct (or_try (year_after (js "築年月") _) _); cbn; try reflexivity.
  apply IH.
Qed.

Lemma run_allYears (s : jsstring) :
  run re_allYears {| rest := s; caps := ∅ |} Some
  = match four_digits s, drop 4 s with
    | Some y, c :: r =>
        if (c =? c_nen)%N then Some {| rest := r; caps := <[1 := y]> ∅ |} else None
    | _, _ => None
    end.
Proof.
  unfold re_allYears. rewrite run_Seq, run_group_digit4.
  destruct (four_digits s) as [y|]; [| reflexivity].
  rewrite run_lit. change (js "年") with [24180%N].
  destruct (drop 4 s) as [|c r]; [reflexivity |].
  cbn [startsWith length drop]. rewrite andb_true_r, N.eqb_sym. reflexivity.
Qed.

(** No token starts inside a token: 年 is not a digit. *)
Lemma four_digits_nen (s : jsstring) :
  (exists r, s = c_nen :: r) \/ (exists a r, s = a :: c_nen :: r)
  \/ (exists a b r, s = a :: b :: c_nen :: r)
  \/ (exists a b c r, s = a :: b :: c :: c_nen :: r) ->
  four_digits s = None.
Proof.
  intros [(r & ->) | [(a & r & ->) | [(a & b & r & ->) | (a & b & c & r & ->)]]];
    try destruct r as [|? [|? [|? ?]]]; cbn [four_digits]; try reflexivity;
    change (is_digit c_nen) with false;
    repeat (match goal with |- context [is_digit ?d] => destruct (is_digit d) end;
            cbn [andb]); reflexivity.
Qed.

Lemma year_tokens_cons (x : N) (s : jsstring) :
  year_tokens (x :: s)
  = match four_digits (x :: s), drop 4 (x :: s) with
    | Some y, c :: _ => if (c =? c_nen)%N then y :: year_tokens s else year_tokens s
    | _, _ => year_tokens s
    end.
Proof. reflexivity. Qed.

Lemma year_tokens_no_token (x : N) (s : jsstring) :
  four_digits (x :: s) = None -> year_tokens (x :: s) = year_tokens s.
Proof. intros H. by rewrite year_tokens_cons, H. Qed.

Lemma year_tokens_skip (d2 d3 d4 : N) (r : jsstring) :
  year_tokens (d2 :: d3 :: d4 :: c_nen :: r) = year_tokens r.
Proof.
  rewrite year_tokens_no_token by (apply four_digits_nen; eauto 10).
  rewrite year_tokens_no_token by (apply four_digits_nen; eauto 10).
  rewrite year_tokens_no_token by (apply four_digits_nen; eauto 10).
  rewrite year_tokens_no_token by (apply four_digits_nen; eauto 10).
  reflexivity.
Qed.

(** The first match of the global literal is the first token. *)
Lemma search_allYears (s : jsstring) (i : nat) :
  match search_from re_allYears i s with
  | None => year_tokens s = []
  | Some m =>
      exists j y, index m = i + j /\ group 1 m = Some y
                  /\ year_tokens s = y :: year_tokens (after m)
                  /\ length (after m) < length (drop j s)
  end.
Proof.
  revert i. induction s as [|x s IH]; intros i.
  - cbn [search_from]. rewrite run_allYears. reflexivity.
  - cbn [search_from]. rewrite run_allYears.
    assert (match search_from re_allYears (S i) s with
            | None => year_tokens s = []
            | Some m =>
                exists j y, index m = i + j /\ group 1 m = Some y
                            /\ year_tokens s = y :: year_tokens (after m)
                            /\ length (after m) < length (drop j (x :: s))
            end) as Hnext.
    { specialize (IH (S i)). destruct (search_from re_allYears (S i) s); [| done].
      destruct IH as (j & y & Hi & Hg & Hy & Hl). exists (S j), y.
      split; [lia |]. done. }
    destruct (four_digits (x :: s)) as [y|] eqn:Hy.
    2:{ rewrite (year_tokens_no_token _ _ Hy). exact Hnext. }
    destruct (drop 4 (x :: s)) as [|c r] eqn:Hd.
    { rewrite year_tokens_cons, Hy, Hd. exact Hnext. }
    destruct (c =? c_nen)%N eqn:Hc.
    2:{ rewrite year_tokens_cons, Hy, Hd, Hc. exact Hnext. }
    apply N.eqb_eq in Hc. subst c.
    destruct (four_digits_Some _ _ Hy) as (d1 & d2 & d3 & d4 & s' & Hs & -> & _).
    rewrite Hs in Hd. change (s' = c_nen :: r) in Hd. subst s'. injection Hs as -> ->.
    exists 0, [d1; d2; d3; d4]. unfold group. cbn [index after groups caps rest].
    split; [lia |]. split; [by rewrite lookup_insert_ne, lookup_insert_eq |]. split.
    + rewrite year_tokens_cons, Hy.
      cbn [skipn]. rewrite N.eqb_refl. by rewrite year_tokens_skip.
    + cbn. lia.
Qed.

Lemma matchAll_years (fuel : nat) (s : jsstring) (i : nat) :
  length s < fuel ->
  map (group 1) (matchAll_from fuel re_allYears i s) = map Some (year_tokens s).
Proof.
  revert s i. induction fuel as [|fuel IH]; intros s i Hlen; [lia |].
  cbn [matchAll_from]. pose proof (search_allYears s i) as Hs.
  destruct (search_from re_allYears i s) as [m|]; [| by rewrite Hs].
  destruct Hs as (j & y & Hi & Hg & Hy & Hl).
  rewrite Hi. replace (i + j - i) with j by lia.
  apply Nat.ltb_lt in Hl as Hl'. rewrite Hl'. cbn [map]. rewrite Hg, Hy. cbn [map].
  f_equal. apply IH. rewrite length_drop in Hl. lia.
Qed.

Lemma run_yearRelative (s : jsstring) :
  (fun st => caps st !! 1) <$> run re_yearRelative {| rest := s; caps := ∅ |} Some
  = Some <$> match s with
             | c :: s' =>
                 if (c =? 31689)%N then
                   match take_while is_digit s', drop_while is_digit s' with
                   | d :: ds, n :: _ => if (n =? c_nen)%N then Some (d :: ds) else None
                   | _, _ => None
                   end
                 else None
             | [] => None
             end.
Proof.
  unfold re_yearRelative. rewrite run_Seq, run_lit. change (js "築") with [31689%N].
  destruct s as [|c s']; [reflexivity |].
  cbn [startsWith length drop]. rewrite andb_true_r, N.eqb_sym.
  destruct (c =? 31689)%N; [| reflexivity].
  change (drop 0 s') with s'.
  rewrite run_Seq, run_Group. unfold plus. rewrite run_Seq, run_Chr.
  destruct s' as [|d s'']; [reflexivity |]. cbn [take_while drop_while].
  destruct (is_digit d) eqn:Hd; [| reflexivity].
  rewrite star_greedy_max.
  2:{ intros y t Hy. cbn [rest caps]. rewrite run_lit. change (js "年") with [24180%N].
      cbn [startsWith]. by rewrite (digit_not_nen y Hy). }
  cbn [rest caps]. rewrite take_cons_while by done. rewrite run_lit.
  change (js "年") with [24180%N].
  destruct (drop_while is_digit s'') as [|n r]; [reflexivity |].
  cbn [startsWith length drop]. rewrite andb_true_r, N.eqb_sym. unfold c_nen.
  destruct (n =? 24180)%N; [| reflexivity].
  cbn. rewrite lookup_insert_eq. by rewrite Hd.
Qed.

Lemma search_yearRelative (s : jsstring) (i : nat) :
  group 1 <$> search_from re_yearRelative i s = Some <$> relative_age s.
Proof.
  revert i. induction s as [|x s IH]; intros i;
    rewrite search_from_group by done; rewrite run_yearRelative; [reflexivity |].
  cbn [relative_age].
  destruct (if (x =? 31689)%N then _ else None); cbn; [reflexivity | apply IH].
Qed.

(** The source and the direct reading of the text agree on every input. *)
Lemma yearBuilt_scan (bodyText : jsstring) (thisYear : Z) :
  yearBuilt bodyText thisYear = year_rule bodyText thisYear.
Proof.
  unfold yearBuilt, year_rule, search.
  pose proof (search_specificYear bodyText 0) as Hl.
  destruct (search_from re_specificYear 0 bodyText) as [m|];
    destruct (labelled_year bodyText) as [y|]; cbn in Hl; try discriminate.
  - injection Hl as ->. reflexivity.
  - clear Hl.
    assert (map (fun m => parseInt (default [] (group 1 m))) (matchAll re_allYears bodyText)
            = map parseInt (year_tokens bodyText)) as ->.
    { unfold matchAll.
      pose proof (matchAll_years (S (length bodyText)) bodyText 0 (Nat.lt_succ_diag_r _)) as H.
      revert H. generalize (matchAll_from (S (length bodyText)) re_allYears 0 bodyText).
      generalize (year_tokens bodyText). intros ts ms. revert ts.
      induction ms as [|m ms IH]; intros [|t ts] H; cbn in H; try discriminate; [done |].
      injection H as Hm Hms. cbn [map]. rewrite Hm. cbn. f_equal. by apply IH. }
    fold (in_range thisYear).
    destruct (List.filter (in_range thisYear) _); [| reflexivity].
    pose proof (search_yearRelative bodyText 0) as Hr.
    destruct (search_from re_yearRelative 0 bodyText) as [m|];
      destruct (relative_age bodyText) as [a|]; cbn in Hr; try discriminate; [| done].
    injection Hr as ->. reflexivity.
Qed.

Lemma Qle_bool_false (a b : Q) : Qle_bool a b = false -> Qle_bool b a = true.
Proof.
  intros H. apply Qle_bool_iff. apply Qlt_le_weak. apply Qnot_le_lt.
  intros Hle. apply Qle_bool_iff in Hle. congruence.
Qed.

Lemma Qle_bool_trans (a b c : Q) :
  Qle_bool a b = true -> Qle_bool b c = true -> Qle_bool a c = true.
Proof. rewrite !Qle_bool_iff. apply Qle_trans. Qed.

(** [Math.min] of a list of numbers is one of them and is below all of them. *)
Lemma min_of_least (q : Q) (qs : list Q) :
  exists m, min_of (Num q) (map Num qs) = Num m /\ m ∈ q :: qs
            /\ Forall (fun z => Qle_bool m z = true) (q :: qs).
Proof.
  unfold min_of. revert q. induction qs as [|a qs IH]; intros q.
  - exists q. split; [done |]. split; [apply list_elem_of_here |].
    repeat constructor. apply Qle_bool_iff, Qle_refl.
  - cbn [map fold_left num_min]. destruct (Qle_bool q a) eqn:Hqa.
    + destruct (IH q) as (m & -> & Hin & Hall). exists m. split; [done |].
      apply Forall_cons in Hall as (Hmq & Hall). split.
      * apply elem_of_cons in Hin as [-> | Hin]; [apply list_elem_of_here |].
        by do 2 apply list_elem_of_further.
      * repeat (apply Forall_cons; split); eauto using Qle_bool_trans.
    + destruct (IH a) as (m & -> & Hin & Hall). exists m. split; [done |].
      apply Forall_cons in Hall as (Hma & Hall). split.
      * by apply list_elem_of_further.
      * repeat (apply Forall_cons; split); eauto using Qle_bool_trans, Qle_bool_false.
Qed.

(** C5. For every body text and every current year the construction
    year left by the generic heuristic is the one of [year_rule]: the four
    digits that follow the first label 築年月, 竣工 or 建築 on its line when
    there are such; otherwise the least of the four-digit tokens followed
    by 年 that lie in (1900, current year], [Math.min] being one of the
    listed numbers and below all of them; otherwise the current year minus
    the N of the first 築N年; otherwise nothing.  A text with the years 2015
    and 2003 gives 2003, and a labelled 2010 wins over another year. *)
Theorem yearBuilt_follows_year_rule :
  (forall (bodyText : jsstring) (thisYear : Z),
     yearBuilt bodyText thisYear = year_rule bodyText thisYear)
  /\ (forall (q : Q) (qs : list Q),
        exists m, min_of (Num q) (map Num qs) = Num m /\ m ∈ q :: qs
                  /\ Forall (fun z => Qle_bool m z = true) (q :: qs))
  /\ yearBuilt (js "2015年に大規模修繕、2003年に完成") 2026 = Some (num_of_Z 2003)
  /\ yearBuilt (js "2003年に完成、2015年に大規模修繕") 2026 = Some (num_of_Z 2003)
  /\ yearBuilt (js "築年月 2010年3月 / 2003年に分譲開始") 2026 = Some (num_of_Z 2010)
  /\ yearBuilt (js "築15年のマンション") 2026 = Some (num_of_Z 2011).
Proof.
  split; [exact yearBuilt_scan |]. split; [exact min_of_least |].
  repeat split; vm_compute; reflexivity.
Qed.

End Years.

Section Images.
Import Js Regex Scraper Rules.

Lemma fold_left_invariant {X Y} (P : X -> Prop) (f : X -> Y -> X) (l : list Y) (x : X) :
  (forall x y, P x -> P (f x y)) -> P x -> P (fold_left f l x).
Proof. intros Hf. revert x. induction l as [|y l IH]; intros x Hx; cbn; eauto. Qed.

Lemma existsb_str_eqb (s : jsstring) (l : list jsstring) :
  existsb (str_eqb s) l = false -> s ∉ l.
Proof.
  intros H Hin. apply not_true_iff_false in H. apply H.
  apply existsb_exists. exists s. split; [by apply list_elem_of_In |].
  by apply bool_decide_eq_true.
Qed.

Lemma pushImg_cases (l : list jsstring) (i : img) :
  pushImg l i = l
  \/ exists s, pushImg l i = l ++ [s] /\ startsWith (js "http") s = true /\ s ∉ l.
Proof.
  unfold pushImg. destruct (attr_or _ _) as [s|]; [| by left].
  destruct (present (Some s)); cbn [andb]; [| by left].
  destruct (startsWith (js "http") s) eqn:Hh; cbn [andb]; [| by left].
  destruct (existsb (str_eqb s) l) eqn:He; cbn [negb andb]; [by left |].
  destruct (str_includes _ s); cbn [negb]; [by left |].
  right. exists s. eauto using existsb_str_eqb.
Qed.

(** The part of the postcondition that holds on every page: no entry
    occurs twice. *)
Lemma images_NoDup (p : page) : NoDup (images p).
Proof.
  unfold images. apply fold_left_invariant.
  - intros l sel Hl. unfold gatherSelector. destruct (12 <=? length l); [done |].
    apply fold_left_invariant; [| done].
    intros l' i Hl'. destruct (pushImg_cases l' i) as [-> | (s & -> & _ & Hs)]; [done |].
    apply NoDup_app. split; [done |]. split; [| apply NoDup_singleton].
    intros x Hx Hin. apply list_elem_of_singleton in Hin. by subst.
  - destruct (present (ogImage p)); [apply NoDup_singleton | apply NoDup_nil_2].
Qed.

(** Every entry taken from a gallery element is absolute. *)
Lemma images_absolute_from_gallery (p : page) :
  ogImage p = None -> Forall (fun s => startsWith (js "http") s = true) (images p).
Proof.
  intros Hog. unfold images. rewrite Hog. cbn [present]. apply fold_left_invariant; [| done].
  intros l sel Hl. unfold gatherSelector. destruct (12 <=? length l); [done |].
  apply fold_left_invariant; [| done].
  intros l' i Hl'. destruct (pushImg_cases l' i) as [-> | (s & -> & Hs & _)]; [done |].
  apply Forall_app. split; [done |]. by repeat constructor.
Qed.

(** C10 fails on the code.  The cap of 12 is tested between two
    selectors only, so one selector with thirteen pictures gives thirteen
    entries; and the [og:image] is taken as it is, so a path given there
    is an entry that does not begin with "http". *)
Theorem images_cap_and_absolute_fail :
  length (images crowdedPage) = 13
  /\ images relativeOgPage = [js "/img/top.jpg"]
  /\ startsWith (js "http") (js "/img/top.jpg") = false.
Proof. repeat split; vm_compute; reflexivity. Qed.

End Images.

(** * Further properties of the store *)

Section StoreSteps.
Import Js Storage Spec.

(** Loading a store whose document has the current shape returns the
    document and leaves the store alone. *)
Lemma getDb_current (db : gmap string value) (w : nat) :
  current_shape db ->
  getDb {| file := Some (VObj db); writes := w |}
  = Some (VObj db, {| file := Some (VObj db); writes := w |}).
Proof.
  intros Hcur. set (st := {| file := Some (VObj db); writes := w |}).
  assert (migrateDb st = Some (tt, st)) as Hm.
  { unfold migrateDb, bind, readFile, lift. cbn [file st].
    by rewrite (migrate_current _ Hcur). }
  unfold getDb, ensureDb, bind, fileExists. cbn [file st bool_decide].
  change (bool_decide (is_Some (Some (VObj db)))) with true. cbn iota.
  unfold ret. fold st. by rewrite Hm.
Qed.

Lemma current_shape_properties (db : gmap string value) (ps ps' : list value) :
  current_shape db -> db !! "properties" = Some (VArr ps) ->
  Forall current_property ps' ->
  current_shape (<["properties" := VArr ps']> db).
Proof.
  intros (us & (s & loan & ps0 & Hs & Hus & Hne & Hobj & Hloan & Hps & Hcur) & Hfree) _ Hps'.
  exists us. split; [| done]. exists s, loan, ps'.
  rewrite lookup_insert_ne by done. rewrite lookup_insert_eq. done.
Qed.

Lemma current_shape_props (db : gmap string value) (ps : list value) :
  current_shape db -> db !! "properties" = Some (VArr ps) -> Forall current_property ps.
Proof.
  intros (us & (s & loan & ps0 & _ & _ & _ & _ & _ & Hps & Hcur) & _) Hps'.
  by simplify_eq.
Qed.

Lemma current_property_object (p : value) : current_property p -> is_object p.
Proof. intros (o & rs & -> & _). by eexists. Qed.

(** A store of the current shape loads as it is. *)
Lemma loads_current (db : gmap string value) (ps : list value) (w : nat) :
  current_shape db -> db !! "properties" = Some (VArr ps) ->
  loads {| file := Some (VObj db); writes := w |} db ps
        {| file := Some (VObj db); writes := w |}.
Proof. intros Hcur Hps. split; [by apply getDb_current | done]. Qed.

Lemma find_no_url (url : value) (ps : list value) :
  no_url url ps -> find (hasUrl url) ps = Some VUndef.
Proof. induction 1 as [|p ps Hp _ IH]; [done |]. cbn [find]. by rewrite Hp. Qed.

End StoreSteps.

Section Adding.
Import Js Storage Spec.

Lemma addProperty_fresh_record (st st1 : store) (db : gmap string value) (ps : list value)
    (property : gmap string value) (uuid now : string) :
  loads st db ps st1 -> no_url (field property "url") ps ->
  exists new,
    addProperty property uuid now st = Some (VObj new, saved st1 db (VObj new :: ps))
    /\ new !! "id" = Some (VStr uuid) /\ new !! "createdAt" = Some (VStr now)
    /\ new !! "status" = Some (VStr "considering") /\ new !! "ratings" = Some (VArr [])
    /\ (forall k, k ∉ internalFields -> new !! k = property !! k).
Proof.
  intros (Hload & Hps) Hno. eexists. split.
  - unfold addProperty. unfold bind at 1. rewrite Hload.
    unfold bind, lift. cbn [getp]. rewrite Hps.
    cbn [default from_option id asArray]. fold (field property "url").
    rewrite (find_no_url _ _ Hno). reflexivity.
  - repeat split; try (by simplify_map_eq).
    intros k Hk. rewrite !lookup_insert_ne; [done | | | |];
      intros <-; apply Hk; repeat constructor.
Qed.


(** X1. A property whose URL no stored record has is put in front of
    the list with the given fresh identifier and time stamp, status
    [considering] and no rating; its other fields are the payload's. *)
Theorem addProperty_new_url (st st1 : store) (db : gmap string value) (ps : list value)
    (property : gmap string value) (uuid now : string) :
  loads st db ps st1 -> no_url (field property "url") ps ->
  exists new,
    addProperty property uuid now st = Some (VObj new, saved st1 db (VObj new :: ps))
    /\ new !! "id" = Some (VStr uuid) /\ new !! "createdAt" = Some (VStr now)
    /\ new !! "status" = Some (VStr "considering") /\ new !! "ratings" = Some (VArr [])
    /\ (forall k, k ∉ internalFields -> new !! k = property !! k).
Proof. apply addProperty_fresh_record. Qed.

Lemma demo_no_url : no_url (field Demo.otherData "url") [VObj Demo.property].
Proof. repeat constructor. Qed.

Lemma addProperty_new_url_witness :
  exists new,
    addProperty Demo.otherData "uuid-2" "2026-01-02T00:00:00.000Z" Demo.st
    = Some (VObj new, saved Demo.st Demo.db (VObj new :: [VObj Demo.property]))
    /\ new !! "id" = Some (VStr "uuid-2")
    /\ new !! "createdAt" = Some (VStr "2026-01-02T00:00:00.000Z")
    /\ new !! "status" = Some (VStr "considering") /\ new !! "ratings" = Some (VArr [])
    /\ (forall k, k ∉ internalFields -> new !! k = Demo.otherData !! k).
Proof.
  apply (addProperty_new_url Demo.st Demo.st Demo.db [VObj Demo.property] Demo.otherData).
  - exact demo_loads.
  - exact demo_no_url.
Defined.



End Adding.

Section Dedicated.
Import Js Storage Spec.

(** What [findIndex] answers when its test throws on no element. *)
Lemma findIndex_spec (f : value -> option bool) (l : list value) :
  Forall (fun x => is_Some (f x)) l ->
  (exists i x, findIndex f l = Some (Some i) /\ l !! i = Some x /\ f x = Some true
               /\ forall j y, j < i -> l !! j = Some y -> f y = Some false)
  \/ (findIndex f l = Some None /\ Forall (fun x => f x = Some false) l).
Proof.
  induction 1 as [|x l (b & Hx) _ IH].
  - right. by split.
  - cbn [findIndex]. rewrite Hx. cbn. destruct b.
    + left. exists 0, x. repeat split; [done |]. intros j y Hj. lia.
    + destruct IH as [(i & y & -> & Hi & Hy & Hbefore) | (-> & Hall)].
      * left. exists (S i), y. repeat split; [done | done |].
        intros [|j] z Hj Hz; simplify_eq/=; [done |]. apply (Hbefore j z); [lia | done].
      * right. split; [done |]. by constructor.
Qed.

(** X3. [updatePropertyStatus] on a record that exists sets its status
    and nothing else: the other fields of the record, the other records
    and the length of the list are as before. *)
Theorem updatePropertyStatus_touches_status_only (st st1 : store) (db : gmap string value)
    (ps : list value) (id status : string) (i : nat) (cur : gmap string value) :
  loads st db ps st1 -> record_at id ps i cur ->
  exists new ps',
    updatePropertyStatus id status st = Some (VObj new, saved st1 db ps')
    /\ ps' !! i = Some (VObj new) /\ length ps' = length ps
    /\ new !! "status" = Some (VStr status)
    /\ (forall k, k ≠ "status" -> new !! k = cur !! k)
    /\ (forall j, j ≠ i -> ps' !! j = ps !! j).
Proof.
  intros Hload Hrec. unfold updatePropertyStatus.
  rewrite (lookup_steps _ _ _ _ _ _ Hload), (findIndex_record _ _ _ _ Hrec).
  pose proof (record_at_lt _ _ _ _ Hrec) as Hlt. destruct Hrec as (Hi & _).
  rewrite Hi. cbn [from_option Datatypes.id]. unfold bind at 1. cbn [lift setp].
  rewrite putProperty_saved. eexists _, _. split; [reflexivity |].
  split; [by apply list_lookup_insert_eq |]. split; [apply length_insert |].
  split; [apply lookup_insert_eq |]. split.
  - intros k Hk. by rewrite lookup_insert_ne.
  - intros j Hj. by rewrite list_lookup_insert_ne.
Qed.

Lemma updatePropertyStatus_touches_status_only_witness :
  exists new ps',
    updatePropertyStatus "p1" "viewed" Demo.st = Some (VObj new, saved Demo.st Demo.db ps')
    /\ ps' !! 0 = Some (VObj new) /\ length ps' = length [VObj Demo.property]
    /\ new !! "status" = Some (VStr "viewed")
    /\ (forall k, k ≠ "status" -> new !! k = Demo.property !! k)
    /\ (forall j, j ≠ 0 -> ps' !! j = [VObj Demo.property] !! j).
Proof.
  apply (updatePropertyStatus_touches_status_only Demo.st Demo.st Demo.db
           [VObj Demo.property] "p1" "viewed" 0 Demo.property).
  - exact demo_loads.
  - exact demo_record.
Defined.

Lemma rating_user_test (userId : string) (r : value) :
  is_object r ->
  exists b, (v ← getp r "userId"; Some (strict_eq v (VStr userId))) = Some b
            /\ (b = true <-> rating_user r = VStr userId).
Proof.
  intros (o & ->). eexists. split; [reflexivity |]. unfold rating_user. cbn.
  apply strict_eq_str.
Qed.

(** X4. [updateRating] on a record that exists leaves the record with
    a rating of the given user that carries the submitted data and the
    given time stamp; the ratings of the other users stay, the list grows
    by at most one entry, and when no user had two ratings before, none
    has two after.  Only the [ratings] field of the record is replaced. *)
Theorem updateRating_one_rating_per_user (st st1 : store) (db : gmap string value)
    (ps : list value) (id userId now : string) (i : nat) (cur : gmap string value)
    (rs : list value) (ratingData : gmap string value) :
  loads st db ps st1 -> record_at id ps i cur ->
  cur !! "ratings" = Some (VArr rs) -> Forall is_object rs ->
  ratingData !! "userId" = None ->
  exists rs' r,
    updateRating id userId ratingData now st
    = Some (VObj (<["ratings" := VArr rs']> cur),
            saved st1 db (<[i := VObj (<["ratings" := VArr rs']> cur)]> ps))
    /\ r ∈ rs' /\ rating_user r = VStr userId
    /\ getp r "updatedAt" = Some (VStr now)
    /\ (forall k v, k ≠ "updatedAt" -> ratingData !! k = Some v -> getp r k = Some v)
    /\ (forall q, q ∈ rs -> rating_user q ≠ VStr userId -> q ∈ rs')
    /\ (NoDup (rating_user <$> rs) -> NoDup (rating_user <$> rs'))
    /\ length rs <= length rs' <= S (length rs).
Proof.
  intros Hload Hrec Hr Hobj Hnone. unfold updateRating.
  rewrite (lookup_steps _ _ _ _ _ _ Hload), (findIndex_record _ _ _ _ Hrec).
  destruct Hrec as (Hi & _). rewrite Hi. cbn [from_option Datatypes.id].
  unfold bind at 1. cbn [lift getp]. rewrite Hr. cbn [from_option Datatypes.id].
  unfold bind at 1. cbn [lift asArray]. unfold bind at 1.
  set (f := fun r : value => v ← getp r "userId"; Some (strict_eq v (VStr userId))).
  assert (forall r, is_object r ->
            exists b, f r = Some b /\ (b = true <-> rating_user r = VStr userId)) as Hf
    by (intros r; apply rating_user_test).
  assert (forall r, is_object r -> f r = Some false -> rating_user r ≠ VStr userId) as Hff.
  { intros r Hro Hfr. destruct (Hf r Hro) as (b & Hb & Hiff). rewrite Hfr in Hb.
    injection Hb as <-. intros E. apply Hiff in E. discriminate. }
  assert (forall r, is_object r -> f r = Some true -> rating_user r = VStr userId) as Hft.
  { intros r Hro Hfr. destruct (Hf r Hro) as (b & Hb & Hiff). rewrite Hfr in Hb.
    injection Hb as <-. by apply Hiff. }
  destruct (findIndex_spec f rs) as [(ri & x & -> & Hri & Hx & _) | (-> & Hall)].
  { eapply Forall_impl; [exact Hobj |]. intros r Hro. destruct (Hf r Hro) as (b & -> & _).
    done. }
  - (* the user has a rating: it is replaced where it stands *)
    cbn [lift]. rewrite Hri. cbn [from_option Datatypes.id].
    unfold bind at 1. cbn [lift setp]. rewrite putProperty_saved.
    assert (is_object x) as (xo & ->).
    { rewrite Forall_forall in Hobj. apply Hobj. by eapply list_elem_of_lookup_2. }
    pose proof (Hft _ (ex_intro _ xo eq_refl) Hx) as Hux.
    pose proof (lookup_lt_Some _ _ _ Hri) as Hlt.
    eexists _, _. split; [reflexivity |].
    split; [by apply list_elem_of_insert |].
    assert (rating_user (VObj (<["updatedAt" := VStr now]> (ratingData ∪ spread (VObj xo))))
            = VStr userId) as Hnew.
    { unfold rating_user in *. cbn [getp spread] in *.
      rewrite lookup_insert_ne by done. by rewrite lookup_union_r. }
    split; [exact Hnew |].
    split; [cbn; by rewrite lookup_insert_eq |]. split.
    { intros k v Hk Hv. cbn. rewrite lookup_insert_ne by done.
      by rewrite (lookup_union_Some_l _ _ _ _ Hv). }
    split.
    { intros q Hq Hne. apply list_elem_of_lookup in Hq as (j & Hj).
      apply list_elem_of_lookup. exists j. rewrite list_lookup_insert_ne; [done |].
      intros <-. rewrite Hri in Hj. injection Hj as <-. by apply Hne. }
    split.
    { intros Hnd. rewrite list_fmap_insert, Hnew. rewrite list_insert_id; [done |].
      rewrite list_lookup_fmap, Hri. cbn [fmap option_fmap option_map]. by rewrite Hux. }
    rewrite length_insert. lia.
  - (* the user has none: one is appended *)
    cbn [lift]. unfold bind at 1. cbn [lift setp]. rewrite putProperty_saved.
    assert (rating_user (VObj (<["updatedAt" := VStr now]>
                                 (ratingData ∪ {["userId" := VStr userId]})))
            = VStr userId) as Hnew.
    { unfold rating_user. cbn [getp]. rewrite lookup_insert_ne by done.
      rewrite lookup_union_r by done. by rewrite lookup_singleton_eq. }
    eexists _, _. split; [reflexivity |].
    split; [apply elem_of_app; right; apply list_elem_of_here |].
    split; [exact Hnew |].
    split; [cbn; by rewrite lookup_insert_eq |]. split.
    { intros k v Hk Hv. cbn. rewrite lookup_insert_ne by done.
      by rewrite (lookup_union_Some_l _ _ _ _ Hv). }
    split; [intros q Hq _; apply elem_of_app; by left |]. split.
    { intros Hnd. rewrite fmap_app. apply NoDup_app. split; [done |].
      split; [| apply NoDup_singleton]. intros u Hu Hin.
      apply list_elem_of_singleton in Hin. rewrite Hin, Hnew in Hu.
      apply list_elem_of_fmap in Hu as (q & Hq & Hqin).
      rewrite Forall_forall in Hall, Hobj. by apply (Hff q (Hobj q Hqin) (Hall q Hqin)). }
    rewrite length_app. cbn. lia.
Qed.

Lemma updateRating_one_rating_per_user_witness :
  exists rs' r,
    updateRating "p1" "u1" Demo.ratingData "2026-01-03T00:00:00.000Z" Demo.st
    = Some (VObj (<["ratings" := VArr rs']> Demo.property),
            saved Demo.st Demo.db
              (<[0 := VObj (<["ratings" := VArr rs']> Demo.property)]> [VObj Demo.property]))
    /\ r ∈ rs' /\ rating_user r = VStr "u1"
    /\ getp r "updatedAt" = Some (VStr "2026-01-03T00:00:00.000Z")
    /\ (forall k v, k ≠ "updatedAt" -> Demo.ratingData !! k = Some v -> getp r k = Some v)
    /\ (forall q, q ∈ [] -> rating_user q ≠ VStr "u1" -> q ∈ rs')
    /\ (NoDup (rating_user <$> []) -> NoDup (rating_user <$> rs'))
    /\ length (A := value) [] <= length rs' <= S (length (A := value) []).
Proof.
  apply (updateRating_one_rating_per_user Demo.st Demo.st Demo.db [VObj Demo.property]
           "p1" "u1" "2026-01-03T00:00:00.000Z" 0 Demo.property [] Demo.ratingData).
  - exact demo_loads.
  - exact demo_record.
  - reflexivity.
  - constructor.
  - reflexivity.
Defined.

End Dedicated.

Section Deleting.
Import Js Storage Spec.

Lemma filterM_keeps (id : string) (ps : list value) :
  Forall is_object ps ->
  exists kept,
    filterM (fun p => b ← hasId id p; Some (negb b)) ps = Some kept
    /\ kept `sublist_of` ps
    /\ no_record id kept
    /\ (forall q, q ∈ ps -> hasId id q = Some false -> q ∈ kept).
Proof.
  induction 1 as [|p ps (o & ->) _ (kept & Hk & Hsub & Hno & Hin)].
  - exists []. repeat split; [constructor | constructor |]. intros q Hq. by apply elem_of_nil in Hq.
  - cbn [filterM]. rewrite Hk. unfold hasId at 1. cbn [getp mbind option_bind].
    destruct (strict_eq (default VUndef (o !! "id")) (VStr id)) eqn:E; cbn [negb].
    + exists kept. split; [done |]. split; [by apply sublist_cons |]. split; [done |].
      intros q Hq Hid. apply elem_of_cons in Hq as [-> | Hq]; [| by apply Hin].
      unfold hasId in Hid. cbn in Hid. congruence.
    + exists (VObj o :: kept). split; [done |]. split; [by apply sublist_skip |]. split.
      * constructor; [| done]. unfold hasId. cbn. by rewrite E.
      * intros q Hq Hid. apply elem_of_cons in Hq as [-> | Hq];
          [apply list_elem_of_here | apply list_elem_of_further; by apply Hin].
Qed.

Lemma deleteProperty_result (st st1 : store) (db : gmap string value) (ps : list value)
    (id : string) :
  loads st db ps st1 -> Forall is_object ps ->
  exists kept,
    deleteProperty id st = Some (tt, saved st1 db kept)
    /\ kept `sublist_of` ps /\ no_record id kept
    /\ (forall q, q ∈ ps -> hasId id q = Some false -> q ∈ kept).
Proof.
  intros (Hload & Hps) Hobj. destruct (filterM_keeps id ps Hobj) as (kept & Hk & Hrest).
  exists kept. split; [| exact Hrest].
  unfold deleteProperty. unfold bind at 1. rewrite Hload.
  unfold bind, lift. cbn [getp]. rewrite Hps. cbn [default from_option Datatypes.id asArray].
  by rewrite Hk.
Qed.

(** X5. [deleteProperty] writes back the list without the records of
    the given identifier: what is left is a sublist of the old list (same
    order), no record of it has the identifier, and every record with
    another identifier is still there. *)
Theorem deleteProperty_removes_record (st st1 : store) (db : gmap string value)
    (ps : list value) (id : string) :
  loads st db ps st1 -> Forall is_object ps ->
  exists kept,
    deleteProperty id st = Some (tt, saved st1 db kept)
    /\ kept `sublist_of` ps /\ no_record id kept
    /\ (forall q, q ∈ ps -> hasId id q = Some false -> q ∈ kept).
Proof. apply deleteProperty_result. Qed.

Lemma deleteProperty_removes_record_witness :
  exists kept,
    deleteProperty "p1" Demo.st = Some (tt, saved Demo.st Demo.db kept)
    /\ kept `sublist_of` [VObj Demo.property] /\ no_record "p1" kept
    /\ (forall q, q ∈ [VObj Demo.property] -> hasId "p1" q = Some false -> q ∈ kept).
Proof.
  apply (deleteProperty_removes_record Demo.st Demo.st Demo.db [VObj Demo.property] "p1").
  - exact demo_loads.
  - repeat constructor. by eexists.
Defined.

Lemma Forall_sublist_of {X} (P : X -> Prop) (l k : list X) :
  l `sublist_of` k -> Forall P k -> Forall P l.
Proof.
  induction 1 as [|x l k _ IH|x l k _ IH]; intros Hk; [done | |].
  - apply Forall_cons in Hk as (? & ?). constructor; eauto.
  - apply Forall_cons in Hk as (? & ?). eauto.
Qed.

(** X6. After a record was deleted from a store of the current shape,
    every operation that looks its identifier up answers [null] and writes
    nothing, and a second deletion leaves the same list. *)
Theorem deleted_record_is_gone (db : gmap string value) (ps : list value) (w : nat)
    (id userId status now : string) (ratingData data updates : gmap string value) :
  current_shape db -> db !! "properties" = Some (VArr ps) ->
  exists st2 kept,
    deleteProperty id {| file := Some (VObj db); writes := w |} = Some (tt, st2)
    /\ file st2 = Some (VObj (<["properties" := VArr kept]> db))
    /\ updateRating id userId ratingData now st2 = Some (VNull, st2)
    /\ updatePropertyStatus id status st2 = Some (VNull, st2)
    /\ refreshProperty id data st2 = Some (VNull, st2)
    /\ updateProperty id updates st2 = Some (VNull, st2)
    /\ deleteProperty id st2
       = Some (tt, {| file := file st2; writes := S (writes st2) |}).
Proof.
  intros Hcur Hps.
  pose proof (current_shape_props _ _ Hcur Hps) as Hprops.
  assert (Forall is_object ps) as Hobj
    by (eapply Forall_impl; [exact Hprops | apply current_property_object]).
  destruct (deleteProperty_result _ _ _ _ id (loads_current db ps w Hcur Hps) Hobj)
    as (kept & Hdel & Hsub & Hno & _).
  eexists _, kept. split; [exact Hdel |]. split; [reflexivity |].
  assert (current_shape (<["properties" := VArr kept]> db)) as Hcur'.
  { apply (current_shape_properties db ps); [done | done |].
    by eapply Forall_sublist_of. }
  assert (loads (saved {| file := Some (VObj db); writes := w |} db kept)
                (<["properties" := VArr kept]> db) kept
                (saved {| file := Some (VObj db); writes := w |} db kept)) as Hload'.
  { apply loads_current; [done | apply lookup_insert_eq]. }
  unfold updateRating, updatePropertyStatus, refreshProperty, updateProperty.
  rewrite !(lookup_steps _ _ _ _ _ _ Hload'), (findIndex_no_record _ _ Hno).
  repeat (split; [reflexivity |]).
  destruct Hload' as (Hload' & Hkept).
  unfold deleteProperty. unfold bind at 1. rewrite Hload'.
  unfold bind, lift. cbn [getp]. rewrite Hkept.
  cbn [default from_option Datatypes.id asArray].
  rewrite (filterM_no_record _ _ Hno). cbn. by rewrite insert_insert_eq.
Qed.

Lemma deleted_record_is_gone_witness :
  exists st2 kept,
    deleteProperty "p1" {| file := Some (VObj Demo.db); writes := 0 |} = Some (tt, st2)
    /\ file st2 = Some (VObj (<["properties" := VArr kept]> Demo.db))
    /\ updateRating "p1" "u1" Demo.ratingData "2026-01-03T00:00:00.000Z" st2
       = Some (VNull, st2)
    /\ updatePropertyStatus "p1" "viewed" st2 = Some (VNull, st2)
    /\ refreshProperty "p1" Demo.data st2 = Some (VNull, st2)
    /\ updateProperty "p1" Demo.priceEdit st2 = Some (VNull, st2)
    /\ deleteProperty "p1" st2
       = Some (tt, {| file := file st2; writes := S (writes st2) |}).
Proof.
  apply (deleted_record_is_gone Demo.db [VObj Demo.property] 0 "p1").
  - exact demo_current.
  - reflexivity.
Defined.

End Deleting.

Section Tracker.
Import Js Storage Spec.

Lemma set_add_str (m : string) (s : list value) (x : value) :
  x ∈ set_add (VStr m) s <-> x ∈ s \/ x = VStr m.
Proof.
  unfold set_add. destruct (existsb _ s) eqn:E.
  - apply existsb_str in E. split; [by left |]. by intros [? | ->].
  - rewrite elem_of_app, list_elem_of_singleton. done.
Qed.

Lemma new_Set_str (n : string) (l : list value) : VStr n ∈ new_Set l <-> VStr n ∈ l.
Proof.
  unfold new_Set.
  assert (forall acc, VStr n ∈ fold_left (fun s x => set_add x s) l acc
                      <-> VStr n ∈ acc \/ VStr n ∈ l) as H.
  { induction l as [|y l IH]; intros acc; cbn [fold_left].
    - split; [by left |]. intros [? | H]; [done |]. by apply elem_of_nil in H.
    - rewrite IH, elem_of_cons. unfold set_add. destruct (existsb _ acc) eqn:E.
      + split; [intros [? | ?]; eauto |]. intros [? | [Hy | ?]]; eauto.
        left. subst y. by apply existsb_str.
      + rewrite elem_of_app, list_elem_of_singleton.
        split; [intros [[? | ?] | ?] | intros [? | [? | ?]]]; eauto. }
  rewrite H. split; [intros [Hn | ?]; [by apply elem_of_nil in Hn | done] | by right].
Qed.

Lemma untracked_cases (key : string) :
  negb (String.eqb key "manuallyEditedFields") && negb (String.eqb key "ratings")
    && negb (String.eqb key "status") = true ->
  key ≠ "fees" -> key ∉ untrackedKeys.
Proof.
  intros H Hne Hin. apply existsb_eqb_elem in Hin. cbn in Hin.
  destruct (String.eqb_spec key "fees"); [done |]. cbn in Hin.
  destruct (String.eqb key "manuallyEditedFields"); [done |].
  destruct (String.eqb key "ratings"); [done |].
  destruct (String.eqb key "status"); done.
Qed.

Lemma tracked_cases (key : string) :
  negb (String.eqb key "manuallyEditedFields") && negb (String.eqb key "ratings")
    && negb (String.eqb key "status") = false ->
  key ∈ untrackedKeys.
Proof.
  intros H. apply existsb_eqb_elem. cbn.
  destruct (String.eqb key "manuallyEditedFields"); [by rewrite orb_true_r |].
  destruct (String.eqb key "ratings"); [by rewrite !orb_true_r |].
  destruct (String.eqb key "status"); [by rewrite !orb_true_r | done].
Qed.

Lemma cond_add (b : bool) (P : Prop) (m : string) (s : list value) (x : value) :
  (b = true <-> P) ->
  x ∈ (if b then set_add (VStr m) s else s) <-> x ∈ s \/ (P /\ x = VStr m).
Proof.
  intros Hb. destruct b; rewrite ?set_add_str.
  - assert P by (by apply Hb). tauto.
  - assert (~ P) by (intros HP; apply Hb in HP; discriminate). tauto.
Qed.

Lemma tracked_fees (updates f : gmap string value) (x : value) :
  updates !! "fees" = Some (VObj f) ->
  tracked updates "fees" x
  <-> (is_Some (f !! "management") /\ x = VStr "fees.management")
      \/ (is_Some (f !! "repair") /\ x = VStr "fees.repair")
      \/ (is_Some (f !! "parking") /\ x = VStr "fees.parking").
Proof.
  intros Hf. unfold tracked. split.
  - intros [(Hu & _) | (_ & f' & k & Hf' & Hk & Hs & ->)].
    + exfalso. apply Hu. apply existsb_eqb_elem. reflexivity.
    + rewrite Hf in Hf'. injection Hf' as <-. unfold feeFields in Hk.
      rewrite !elem_of_cons, elem_of_nil in Hk.
      destruct Hk as [-> | [-> | [-> | []]]]; eauto.
  - intros [(Hs & ->) | [(Hs & ->) | (Hs & ->)]]; right; (split; [done |]);
      [exists f, "management" | exists f, "repair" | exists f, "parking"];
      (split; [done |]); (split; [apply existsb_eqb_elem; reflexivity |]); done.
Qed.

(** One key of the update adds exactly what [tracked] says. *)
Lemma trackKey_mem (updates : gmap string value) (s : list value) (key : string) :
  fees_typed updates -> is_Some (updates !! key) ->
  exists s', trackKey updates s key = Some s'
             /\ forall x, x ∈ s' <-> x ∈ s \/ tracked updates key x.
Proof.
  intros Hty Hkey. unfold trackKey.
  destruct (String.eqb_spec key "fees") as [-> | Hne].
  - destruct Hty as [Hn | (f & Hf)]; [rewrite Hn in Hkey; by destruct Hkey |].
    rewrite Hf. cbn [default from_option id truthy andb has_key mbind option_bind].
    eexists. split; [reflexivity |]. intros x.
    rewrite (tracked_fees updates f x Hf).
    rewrite (cond_add _ (is_Some (f !! "parking"))) by apply bool_decide_eq_true.
    rewrite (cond_add _ (is_Some (f !! "repair"))) by apply bool_decide_eq_true.
    rewrite (cond_add _ (is_Some (f !! "management"))) by apply bool_decide_eq_true.
    tauto.
  - cbn [andb]. destruct (negb _ && negb _ && negb _) eqn:E.
    + eexists. split; [reflexivity |]. intros x. rewrite set_add_str. unfold tracked.
      pose proof (untracked_cases key E Hne). split; [intros [? | ?]; eauto |].
      intros [? | [(_ & ?) | (? & _)]]; eauto. done.
    + eexists. split; [reflexivity |]. intros x. unfold tracked.
      pose proof (tracked_cases key E). split; [by left |].
      intros [? | [(? & _) | (? & _)]]; done.
Qed.

(** The whole update adds what its keys add. *)
Lemma trackKeys_mem (updates : gmap string value) (s : list value) :
  fees_typed updates ->
  exists s', trackKeys updates s = Some s'
             /\ forall x, x ∈ s' <-> x ∈ s \/ exists key, is_Some (updates !! key)
                                                          /\ tracked updates key x.
Proof.
  intros Hty. unfold trackKeys.
  assert (forall key, key ∈ keys updates -> is_Some (updates !! key)) as Hin.
  { intros key Hk. unfold keys in Hk. apply list_elem_of_fmap in Hk as ([k v] & -> & Hkv).
    apply elem_of_map_to_list in Hkv. by eexists. }
  assert (forall key, is_Some (updates !! key) -> key ∈ keys updates) as Hout.
  { intros key (v & Hv). unfold keys. apply list_elem_of_fmap. exists (key, v).
    split; [done |]. by apply elem_of_map_to_list. }
  assert (forall l s0, (forall key, key ∈ l -> is_Some (updates !! key)) ->
            exists s', fold_left (fun acc key => s1 ← acc; trackKey updates s1 key) l (Some s0)
                       = Some s'
                       /\ forall x, x ∈ s' <-> x ∈ s0 \/ exists key, key ∈ l
                                                                   /\ tracked updates key x)
    as Hfold.
  { induction l as [|key l IH]; intros s0 Hl.
    - exists s0. split; [done |]. intros x. split; [by left |].
      intros [? | (key & Hk & _)]; [done |]. by apply elem_of_nil in Hk.
    - destruct (trackKey_mem updates s0 key Hty) as (s1 & Hs1 & Hmem1);
        [apply Hl; apply list_elem_of_here |].
      destruct (IH s1) as (s' & Hs' & Hmem');
        [intros k Hk; apply Hl; by apply list_elem_of_further |].
      exists s'. cbn [fold_left mbind option_bind]. rewrite Hs1. split; [exact Hs' |].
      intros x. rewrite Hmem', Hmem1. split.
      + intros [[? | ?] | (k & Hk & Ht)]; eauto.
        * right. exists key. split; [apply list_elem_of_here | done].
        * right. exists k. split; [by apply list_elem_of_further | done].
      + intros [? | (k & Hk & Ht)]; [by left; left |].
        apply elem_of_cons in Hk as [-> | Hk]; [by left; right | right; eauto]. }
  destruct (Hfold (keys updates) s Hin) as (s' & Hs' & Hmem).
  exists s'. split; [exact Hs' |]. intros x. rewrite Hmem. split.
  - intros [? | (key & Hk & Ht)]; eauto.
  - intros [? | (key & Hk & Ht)]; eauto.
Qed.

Lemma update_tracks (st st1 : store) (db : gmap string value) (ps : list value)
    (id : string) (i : nat) (cur : gmap string value) (ed : list value)
    (updates : gmap string value) :
  loads st db ps st1 -> record_at id ps i cur -> edited_fields cur ed -> fees_typed updates ->
  exists new ed',
    updateProperty id updates st = Some (VObj new, saved st1 db (<[i := VObj new]> ps))
    /\ new = <["manuallyEditedFields" := VArr ed']>
               (<["fees" := if truthy (field updates "fees")
                            then VObj (spread (field updates "fees") ∪ spread (field cur "fees"))
                            else field cur "fees"]> (updates ∪ cur))
    /\ forall n, VStr n ∈ ed'
                 <-> VStr n ∈ ed \/ exists key, is_Some (updates !! key)
                                               /\ tracked updates key (VStr n).
Proof.
  intros Hload Hrec Hed Hty.
  destruct (update_result _ _ _ _ _ _ _ _ _ Hload Hrec Hed Hty)
    as (ed' & new & Hrun & Htrack & Hnew).
  destruct (trackKeys_mem updates (new_Set ed) Hty) as (ed'' & Htrack' & Hmem).
  rewrite Htrack in Htrack'. injection Htrack' as <-.
  exists new, ed'. split; [exact Hrun |]. split; [exact Hnew |].
  intros n. by rewrite Hmem, new_Set_str.
Qed.

Lemma fee_name_not_admin (k n : string) :
  k ∈ feeFields -> n ∈ ["manuallyEditedFields"; "ratings"; "status"] ->
  VStr n ≠ VStr ("fees." +:+ k).
Proof.
  intros Hk Hn. apply existsb_eqb_elem in Hk, Hn. cbn in Hk, Hn.
  repeat (apply orb_prop in Hk as [Hk | Hk]; [apply String.eqb_eq in Hk; subst k |]);
    try discriminate;
    repeat (apply orb_prop in Hn as [Hn | Hn]; [apply String.eqb_eq in Hn; subst n |]);
    try discriminate.
Qed.

(** X7. The edited-field tracker of [updateProperty].  The names in the
    new [manuallyEditedFields] are those of the old set, the keys of the
    update other than [fees], [manuallyEditedFields], [ratings] and
    [status], and [fees.k] for each of the three fee sub-fields [k] the
    update's fee bundle holds: the set only grows, and the three
    administrative names never enter it. *)
Theorem updateProperty_tracks_edited_fields (st st1 : store) (db : gmap string value)
    (ps : list value) (id : string) (i : nat) (cur : gmap string value) (ed : list value)
    (updates : gmap string value) :
  loads st db ps st1 -> record_at id ps i cur -> edited_fields cur ed -> fees_typed updates ->
  exists new ed',
    updateProperty id updates st = Some (VObj new, saved st1 db (<[i := VObj new]> ps))
    /\ new !! "manuallyEditedFields" = Some (VArr ed')
    /\ (forall n, VStr n ∈ ed'
                  <-> VStr n ∈ ed \/ exists key, is_Some (updates !! key)
                                                /\ tracked updates key (VStr n))
    /\ (forall n, VStr n ∈ ed -> VStr n ∈ ed')
    /\ (forall n, n ∈ ["manuallyEditedFields"; "ratings"; "status"] ->
                  VStr n ∈ ed' -> VStr n ∈ ed).
Proof.
  intros Hload Hrec Hed Hty.
  destruct (update_tracks _ _ _ _ _ _ _ _ _ Hload Hrec Hed Hty)
    as (new & ed' & Hrun & -> & Hmem).
  eexists _, ed'. split; [exact Hrun |]. split; [apply lookup_insert_eq |].
  split; [exact Hmem |]. split.
  - intros n Hn. apply Hmem. by left.
  - intros n Hn Hin. apply Hmem in Hin as [? | (key & _ & [(Hu & Heq) | (_ & f & k & _ & Hk & _ & Heq)])];
      [done | |].
    + injection Heq as <-. exfalso. apply Hu. unfold untrackedKeys.
      by apply list_elem_of_further.
    + exfalso. by apply (fee_name_not_admin k n).
Qed.

Lemma updateProperty_tracks_edited_fields_witness :
  exists new ed',
    updateProperty "p1" Demo.feeEdit Demo.st
    = Some (VObj new, saved Demo.st Demo.db (<[0 := VObj new]> [VObj Demo.property]))
    /\ new !! "manuallyEditedFields" = Some (VArr ed')
    /\ (forall n, VStr n ∈ ed'
                  <-> VStr n ∈ [VStr "price"; VStr "fees.management"]
                      \/ exists key, is_Some (Demo.feeEdit !! key)
                                     /\ tracked Demo.feeEdit key (VStr n))
    /\ (forall n, VStr n ∈ [VStr "price"; VStr "fees.management"] -> VStr n ∈ ed')
    /\ (forall n, n ∈ ["manuallyEditedFields"; "ratings"; "status"] ->
                  VStr n ∈ ed' -> VStr n ∈ [VStr "price"; VStr "fees.management"]).
Proof.
  apply (updateProperty_tracks_edited_fields Demo.st Demo.st Demo.db [VObj Demo.property]
           "p1" 0 Demo.property [VStr "price"; VStr "fees.management"] Demo.feeEdit).
  - exact demo_loads.
  - exact demo_record.
  - exact demo_edited.
  - right. eexists. reflexivity.
Defined.

End Tracker.

Section EditThenRefresh.
Import Js Storage Spec.




(** X9. Refresh with nothing new.  When every field of the extracted
    data has the value the record already holds, and the record has a fee
    bundle, [refreshProperty] returns the record as it was and writes the
    document back unchanged. *)
Theorem refresh_identical_data (st st1 : store) (db : gmap string value) (ps : list value)
    (id : string) (i : nat) (cur cf : gmap string value) (ed : list value)
    (data : gmap string value) :
  loads st db ps st1 -> record_at id ps i cur -> edited_fields cur ed ->
  cur !! "fees" = Some (VObj cf) -> data ⊆ cur ->
  refreshProperty id data st
  = Some (VObj cur, {| file := Some (VObj db); writes := S (writes st1) |}).
Proof.
  intros Hload Hrec Hed Hcf Hsub.
  assert (fees_typed data) as Hdt.
  { unfold fees_typed. destruct (data !! "fees") as [v|] eqn:Hv; [| by left].
    right. exists cf. rewrite <- Hcf. symmetry.
    by apply (lookup_weaken _ _ _ _ Hv Hsub). }
  destruct (refresh_result _ _ _ _ _ _ _ _ _ Hload Hrec Hed Hdt)
    as (upd & nf & Hrun & Hupd & Hnf).
  rewrite Hrun.
  assert (<["fees" := VObj (nf ∪ spread (field cur "fees"))]> (upd ∪ cur) = cur) as ->.
  { apply map_eq. intros k. destruct (decide (k = "fees")) as [-> | Hne].
    - rewrite lookup_insert_eq, Hcf. do 2 f_equal. unfold field. rewrite Hcf.
      cbn [default from_option Datatypes.id spread]. apply map_eq. intros j.
      destruct (nf !! j) as [v|] eqn:Hj.
      + rewrite (lookup_union_Some_l _ _ _ _ Hj). rewrite Hnf in Hj.
        destruct (_ && _); [done |]. unfold field in Hj.
        destruct (data !! "fees") as [df|] eqn:Hd; [| done].
        rewrite (lookup_weaken _ _ _ _ Hd Hsub) in Hcf. injection Hcf as ->. done.
      + by rewrite lookup_union_r.
    - rewrite lookup_insert_ne by done. destruct (upd !! k) as [v|] eqn:Hk.
      + rewrite (lookup_union_Some_l _ _ _ _ Hk). rewrite Hupd in Hk by done.
        destruct (_ && _); [done |]. symmetry. by apply (lookup_weaken _ _ _ _ Hk Hsub).
      + by rewrite lookup_union_r. }
  destruct Hrec as (Hi & _). destruct Hload as (_ & Hps).
  unfold saved. rewrite (list_insert_id _ _ _ Hi). by rewrite insert_id.
Qed.

Lemma refresh_identical_data_witness :
  refreshProperty "p1" Demo.feeEdit
    {| file := Some (VObj (<["properties" :=
         VArr [VObj (<["fees" := Storage.obj [("management", VNum (Num 13000))]]> Demo.property)]]>
         Demo.db)); writes := 0 |}
  = Some (VObj (<["fees" := Storage.obj [("management", VNum (Num 13000))]]> Demo.property),
          {| file := Some (VObj (<["properties" :=
               VArr [VObj (<["fees" := Storage.obj [("management", VNum (Num 13000))]]>
                              Demo.property)]]> Demo.db));
             writes := 1 |}).
Proof.
  apply (refresh_identical_data
           {| file := Some (VObj (<["properties" :=
                VArr [VObj (<["fees" := Storage.obj [("management", VNum (Num 13000))]]>
                               Demo.property)]]> Demo.db)); writes := 0 |}
           {| file := Some (VObj (<["properties" :=
                VArr [VObj (<["fees" := Storage.obj [("management", VNum (Num 13000))]]>
                               Demo.property)]]> Demo.db)); writes := 0 |}
           _ [VObj (<["fees" := Storage.obj [("management", VNum (Num 13000))]]> Demo.property)]
           "p1" 0 _ (list_to_map [("management", VNum (Num 13000))])
           [VStr "price"; VStr "fees.management"]).
  - split; vm_compute; reflexivity.
  - split; [reflexivity |]. split; [reflexivity |]. intros j q Hj. lia.
  - reflexivity.
  - reflexivity.
  - apply map_subseteq_spec. intros k v Hk.
    destruct (decide (k = "fees")) as [-> | Hne].
    + vm_compute in Hk. injection Hk as <-. reflexivity.
    + exfalso. revert Hk. unfold Demo.feeEdit. cbn [list_to_map foldr uncurry].
      rewrite lookup_insert_ne by done. by rewrite lookup_empty.
Defined.

End EditThenRefresh.

(** * Further properties of the migration *)

Section MigrationShape.
Import Js Storage Spec.

Lemma strict_eq_false_lookup (o : gmap string value) (key x : string) :
  strict_eq (default VUndef (o !! key)) (VStr x) = false -> o !! key ≠ Some (VStr x).
Proof. intros H E. rewrite E in H. cbn in H. by rewrite String.eqb_refl in H. Qed.

(** After the two renaming tests an object carries no legacy identifier,
    and it is the same object when the flag stays down. *)
Lemma renameLegacy_after (key : string) (o : gmap string value) :
  exists x c, renameLegacy key (VObj o) = Some (x, c) /\ legacy_free key x
              /\ (c = false -> x = VObj o).
Proof.
  unfold renameLegacy. cbn [getp mbind option_bind].
  destruct (strict_eq (default VUndef (o !! key)) (VStr "user-a")) eqn:Ea;
    cbn [setp getp mbind option_bind fst snd].
  - rewrite lookup_insert_eq. cbn [default from_option id strict_eq String.eqb Ascii.eqb Bool.eqb].
    cbn [mbind option_bind fst snd orb]. eexists _, _. split; [reflexivity |].
    split; [| done]. eexists. split; [reflexivity |].
    rewrite lookup_insert_eq. split; intros [=].
  - destruct (strict_eq (default VUndef (o !! key)) (VStr "user-b")) eqn:Eb;
      cbn [setp mbind option_bind fst snd orb].
    + eexists _, _. split; [reflexivity |]. split; [| done].
      eexists. split; [reflexivity |]. rewrite lookup_insert_eq. split; intros [=].
    + eexists _, _. split; [reflexivity |]. split; [| done].
      eexists. split; [reflexivity |]. split; by apply strict_eq_false_lookup.
Qed.

Lemma for_each_after (P Q : value -> Prop) (f : value -> option (value * bool))
    (l : list value) :
  (forall x, P x -> exists x' c, f x = Some (x', c) /\ Q x' /\ (c = false -> x' = x)) ->
  Forall P l ->
  exists l' c, for_each f l = Some (l', c) /\ Forall Q l' /\ length l' = length l
               /\ (c = false -> l' = l).
Proof.
  intros Hf. induction 1 as [|x l Hx _ (l' & c & Hl & HQ & Hlen & Hsame)].
  - exists [], false. done.
  - destruct (Hf x Hx) as (x' & cx & Hfx & Hq & Hsx).
    exists (x' :: l'), (cx || c). cbn [for_each]. rewrite Hfx, Hl. cbn.
    split; [done |]. split; [by constructor |]. split; [by rewrite Hlen |].
    intros Hc. apply orb_false_elim in Hc as (-> & ->). by rewrite Hsx, Hsame.
Qed.

Lemma legacyRating_after (uid : string) (o : gmap string value) (partner : value) :
  uid = "u1" \/ uid = "u2" ->
  exists l, legacyRating uid (VObj o) partner = Some l /\ Forall (legacy_free "userId") l.
Proof.
  intros Huid. unfold legacyRating. destruct (truthy partner) eqn:Ht; [| by eexists].
  destruct (getp_truthy partner "score" Ht) as (sc & ->).
  destruct (getp_truthy partner "comment" Ht) as (cm & ->). cbn [mbind option_bind getp].
  destruct (truthy sc || truthy cm); [| by eexists].
  eexists. split; [reflexivity |]. repeat constructor. eexists. split; [reflexivity |].
  destruct Huid as [-> | ->]; split; vm_compute; discriminate.
Qed.

(** Every typed property leaves the loop body with a ratings list free
    of legacy identifiers. *)
Lemma migrateProp_after (p : value) :
  typed_property p ->
  exists p' c, migrateProp p = Some (p', c) /\ current_property p'
               /\ (c = false -> p' = p).
Proof.
  intros (o & -> & Hty). unfold migrateProp. cbn [getp mbind option_bind].
  destruct (o !! "ratings") as [r|] eqn:Hr; cbn [default from_option id].
  2:{ cbn. eexists _, _. split; [reflexivity |]. split; [| done].
      eexists _, []. split; [reflexivity |]. by rewrite lookup_insert_eq. }
  destruct (truthy r && negb (isArray r)) eqn:Hlegacy.
  - apply andb_prop in Hlegacy as (Ht & _).
    destruct (getp_truthy r "partnerA" Ht) as (pa & ->).
    destruct (getp_truthy r "partnerB" Ht) as (pb & ->). cbn [mbind option_bind].
    destruct (legacyRating_after "u1" o pa) as (ra & -> & Hra); [by left |].
    destruct (legacyRating_after "u2" o pb) as (rb & -> & Hrb); [by right |].
    cbn [mbind option_bind setp]. eexists _, _. split; [reflexivity |]. split; [| done].
    eexists _, (ra ++ rb). split; [reflexivity |]. rewrite lookup_insert_eq.
    split; [done | by apply Forall_app].
  - destruct (truthy r) eqn:Ht; cbn [negb].
    2:{ cbn. eexists _, _. split; [reflexivity |]. split; [| done].
        eexists _, []. split; [reflexivity |]. by rewrite lookup_insert_eq. }
    destruct r as [| | | | |rs|]; try done. cbn [isArray asArray mbind option_bind].
    destruct (for_each_after is_object (legacy_free "userId") (renameLegacy "userId") rs)
      as (rs' & c & -> & Hfree & _ & Hsame); [| by apply Hty |].
    { intros x (ro & ->). apply renameLegacy_after. }
    cbn [mbind option_bind setp fst snd]. eexists _, _. split; [reflexivity |]. split.
    + eexists _, rs'. split; [reflexivity |]. by rewrite lookup_insert_eq.
    + intros ->. rewrite Hsame by done. by rewrite insert_id.
Qed.

Lemma fresh_settings_settled (db : gmap string value) (us : list value) :
  us ≠ [] -> Forall is_object us ->
  settled (<["settings" := obj [("users", VArr us); ("loan", defaultLoan)]]> db).
Proof.
  intros Hne Hobj. eexists _, us, _. rewrite lookup_insert_eq.
  split; [reflexivity |]. split; [reflexivity |]. split; [done |]. split; [done |].
  reflexivity.
Qed.

Lemma length_zero_test (us : list value) :
  strict_eq (VNum (num_of_nat (length us))) (VNum (Num 0)) = false -> us ≠ [].
Proof. intros H ->. discriminate. Qed.

(** After the settings step there is a user list that is not empty and a
    loan bundle. *)
Lemma migrateSettings_after (db : gmap string value) :
  typed_users db -> typed_loan db ->
  exists db1 c,
    migrateSettings (VObj db) = Some (VObj db1, c)
    /\ db1 !! "properties" = db !! "properties" /\ settled db1
    /\ (c = false -> db1 = db).
Proof.
  intros Husers Hloan. unfold migrateSettings. cbn [getp mbind option_bind].
  fold (field db "settings"). set (settings := field db "settings") in *.
  assert (exists db' c,
            (let oldSettings := or_else settings (obj []) in
             pa ← getp oldSettings "partnerA";
             ua ← legacyUser "u1" "ユーザー1" pa;
             pb ← getp oldSettings "partnerB";
             ub ← legacyUser "u2" "ユーザー2" pb;
             let users := ua ++ ub in
             let users := if Nat.eqb (length users) 0
                          then [userConfig (VStr "u1") (VStr "ユーザー1") (VStr "👤")]
                          else users in
             db' ← setp (VObj db) "settings" (obj [("users", VArr users); ("loan", defaultLoan)]);
             Some (db', true)) = Some (VObj db', c)
            /\ db' !! "properties" = db !! "properties" /\ settled db'
            /\ (c = false -> db' = db)) as Hmissing.
  { cbn zeta.
    assert (truthy (or_else settings (obj [])) = true) as Hold.
    { unfold or_else. by destruct (truthy settings) eqn:E. }
    destruct (getp_truthy _ "partnerA" Hold) as (pa & ->).
    destruct (getp_truthy _ "partnerB" Hold) as (pb & ->). cbn [mbind option_bind].
    destruct (legacyUser_objects "u1" "ユーザー1" pa) as (ua & -> & Hua).
    destruct (legacyUser_objects "u2" "ユーザー2" pb) as (ub & -> & Hub).
    cbn [mbind option_bind setp]. eexists _, _. split; [reflexivity |].
    split; [by rewrite lookup_insert_ne |]. split; [| done].
    apply fresh_settings_settled.
    - destruct (ua ++ ub); [done | done].
    - destruct (Nat.eqb _ 0); [repeat constructor; by eexists | by apply Forall_app]. }
  destruct (truthy settings) eqn:Hts; cbn [negb]; [| exact Hmissing].
  destruct (getp_truthy settings "users" Hts) as (u & Hu). rewrite Hu.
  cbn [mbind option_bind].
  destruct (truthy u) eqn:Htu; cbn [negb]; [| exact Hmissing].
  assert (getp_opt settings "users" = Some u) as Hu'.
  { unfold getp_opt. by destruct settings. }
  destruct (Husers u Hu' Htu) as (us & -> & Hobj).
  cbn [getp String.eqb Ascii.eqb Bool.eqb mbind option_bind].
  destruct (strict_eq (VNum (num_of_nat (length us))) (VNum (Num 0))) eqn:Hlen;
    [exact Hmissing |].
  apply length_zero_test in Hlen.
  destruct (truthy_users_object settings Hts) as (s & Hs); [by eauto |].
  assert (db !! "settings" = Some (VObj s)) as Hdbs.
  { unfold settings, field in Hs. destruct (db !! "settings"); by simplify_eq/=. }
  assert (s !! "users" = Some (VArr us)) as Hsu.
  { rewrite Hs in Hu. cbn in Hu. destruct (s !! "users"); by simplify_eq/=. }
  rewrite Hs. cbn [getp mbind option_bind].
  destruct (truthy (default VUndef (s !! "loan"))) eqn:Htl; cbn [negb setp mbind option_bind].
  - eexists _, _. split; [reflexivity |]. split; [done |]. split; [| done].
    destruct (Hloan (default VUndef (s !! "loan"))) as (loan & Hl); [| done |].
    { unfold getp_opt. fold settings. rewrite Hs. reflexivity. }
    exists s, us, loan. repeat split; try done.
    destruct (s !! "loan"); by simplify_eq/=.
  - eexists _, _. split; [reflexivity |]. split; [by rewrite lookup_insert_ne |].
    split; [| done]. eexists _, us, _. rewrite lookup_insert_eq.
    split; [reflexivity |]. rewrite lookup_insert_ne by done. rewrite lookup_insert_eq.
    split; [done |]. split; [done |]. split; [done |]. reflexivity.
Qed.

Lemma legacy_free_object (key : string) (x : value) : legacy_free key x -> is_object x.
Proof. intros (o & -> & _). by eexists. Qed.

(** After the last step no user carries a legacy identifier. *)
Lemma migrateUserIds_after (db : gmap string value) :
  settled db ->
  exists db3 c s us loan,
    migrateUserIds (VObj db) = Some (VObj db3, c)
    /\ db3 !! "properties" = db !! "properties"
    /\ db3 !! "settings" = Some (VObj s) /\ s !! "users" = Some (VArr us) /\ us ≠ []
    /\ Forall (legacy_free "id") us /\ s !! "loan" = Some (VObj loan)
    /\ (c = false -> db3 = db).
Proof.
  intros (s & us & loan & Hs & Hus & Hne & Hobj & Hloan).
  unfold migrateUserIds. cbn [getp mbind option_bind]. rewrite Hs.
  cbn [default from_option id getp_opt is_nullish getp]. rewrite Hus.
  cbn [default from_option id mbind option_bind truthy iterate isArray].
  destruct (for_each_after is_object (legacy_free "id") (renameLegacy "id") us)
    as (us' & c & -> & Hfree & Hlen & Hsame); [| done |].
  { intros x (ro & ->). apply renameLegacy_after. }
  cbn [mbind option_bind setp fst snd].
  eexists _, c, _, us', loan. split; [reflexivity |].
  split; [by rewrite lookup_insert_ne |]. rewrite lookup_insert_eq.
  split; [reflexivity |]. rewrite lookup_insert_eq. split; [done |].
  split; [intros ->; by destruct us |]. split; [done |].
  split; [by rewrite lookup_insert_ne |].
  intros Hc. rewrite Hsame by done. rewrite (insert_id s) by done. by rewrite insert_id.
Qed.

(** One run of the transformations leaves a typed document in the
    current shape, and leaves it as it was when nothing changed. *)
Lemma migrate_after (db : gmap string value) (ps : list value) :
  db !! "properties" = Some (VArr ps) -> Forall typed_property ps ->
  typed_users db -> typed_loan db ->
  exists db' c,
    migrate (VObj db) = Some (VObj db', c) /\ current_shape db'
    /\ (c = false -> db' = db).
Proof.
  intros Hps Hty Husers Hloan.
  destruct (migrateSettings_after db Husers Hloan) as (db1 & c1 & Hm1 & Hp1 & Hset1 & Hsame1).
  destruct (for_each_after typed_property current_property migrateProp ps)
    as (ps' & c2 & Hfe & Hcur & _ & Hsame2); [apply migrateProp_after | done |].
  assert (settled (<["properties" := VArr ps']> db1)) as Hset2.
  { destruct Hset1 as (s & us & loan & Hs & Hrest). exists s, us, loan.
    by rewrite lookup_insert_ne. }
  destruct (migrateUserIds_after _ Hset2)
    as (db3 & c3 & s & us & loan & Hm3 & Hp3 & Hs3 & Hus3 & Hne3 & Hfree3 & Hloan3 & Hsame3).
  exists db3, (c1 || c2 || c3). split.
  - unfold migrate. rewrite Hm1. cbn [mbind option_bind fst snd].
    unfold migrateProperties. cbn [getp mbind option_bind]. rewrite Hp1, Hps.
    cbn [default from_option id truthy iterate mbind option_bind]. rewrite Hfe.
    cbn [isArray setp mbind option_bind fst snd]. rewrite Hm3. reflexivity.
  - split.
    + exists us. split; [| done]. exists s, loan, ps'.
      rewrite Hp3, lookup_insert_eq. repeat split; try done.
      eapply Forall_impl; [exact Hfree3 | apply legacy_free_object].
    + intros Hc. apply orb_false_elim in Hc as (Hc & ->).
      apply orb_false_elim in Hc as (-> & ->).
      rewrite Hsame3, Hsame2, Hsame1 by done. by rewrite insert_id.
Qed.

(** X10. The migration is idempotent on every typed document.  Its first
    run leaves the store with a document of the current shape, writing at
    most once, and a second run changes nothing and writes nothing. *)
Theorem migrateDb_reaches_current_shape (st : store) (db : gmap string value)
    (ps : list value) :
  file st = Some (VObj db) -> db !! "properties" = Some (VArr ps) ->
  Forall typed_property ps -> typed_users db -> typed_loan db ->
  exists st' db',
    migrateDb st = Some (tt, st') /\ file st' = Some (VObj db') /\ current_shape db'
    /\ writes st <= writes st' <= S (writes st)
    /\ migrateDb st' = Some (tt, st').
Proof.
  intros Hfile Hps Hty Husers Hloan.
  destruct (migrate_after db ps Hps Hty Husers Hloan) as (db' & c & Hm & Hcur & Hsame).
  assert (forall st0, file st0 = Some (VObj db') -> migrateDb st0 = Some (tt, st0)) as Hnoop.
  { intros st0 Hf. unfold migrateDb, bind, readFile, lift. rewrite Hf.
    by rewrite (migrate_current _ Hcur). }
  unfold migrateDb at 1. unfold bind, readFile, lift. rewrite Hfile, Hm. cbn [snd fst].
  destruct c.
  - eexists _, db'. split; [reflexivity |]. split; [reflexivity |]. split; [done |].
    split; [cbn; lia |]. by apply Hnoop.
  - rewrite Hsame in * by done. exists st, db. split; [reflexivity |].
    split; [done |]. split; [done |]. split; [lia |]. by apply Hnoop.
Qed.

Lemma migrateDb_reaches_current_shape_witness :
  exists st' db',
    migrateDb {| file := Some (VObj Demo.legacyDb); writes := 0 |} = Some (tt, st')
    /\ file st' = Some (VObj db') /\ current_shape db'
    /\ 0 <= writes st' <= 1
    /\ migrateDb st' = Some (tt, st').
Proof.
  apply (migrateDb_reaches_current_shape {| file := Some (VObj Demo.legacyDb); writes := 0 |}
           Demo.legacyDb [VObj Demo.legacyProperty]).
  - reflexivity.
  - reflexivity.
  - repeat constructor. eexists. split; [reflexivity |]. intros rs Hrs. vm_compute in Hrs.
    discriminate.
  - intros u Hu Htu. vm_compute in Hu. injection Hu as <-. discriminate.
  - intros l Hl Htl. vm_compute in Hl. injection Hl as <-. discriminate.
Defined.

End MigrationShape.

Section SettingsOps.
Import Js Storage Spec.

(** X11. Round trip of the settings.  On a store of the current shape,
    when the merged settings keep the document in that shape,
    [updateUserSettings] returns the old settings overlaid with the update
    (keys of the update win, the others stay), writes once, and a later
    [getSettings] reads back exactly these settings without writing. *)
Theorem updateUserSettings_round_trip (db s : gmap string value) (w : nat)
    (updates : gmap string value) :
  current_shape db -> db !! "settings" = Some (VObj s) ->
  current_shape (<["settings" := VObj (updates ∪ s)]> db) ->
  exists st2,
    updateUserSettings updates {| file := Some (VObj db); writes := w |}
    = Some (VObj (updates ∪ s), st2)
    /\ writes st2 = S w
    /\ getSettings st2 = Some (VObj (updates ∪ s), st2).
Proof.
  intros Hcur Hs Hcur'. eexists. split.
  - unfold updateUserSettings. unfold bind at 1. rewrite (getDb_current _ _ Hcur).
    unfold bind, lift. cbn [getp]. rewrite Hs. reflexivity.
  - split; [reflexivity |].
    unfold getSettings. unfold bind at 1. rewrite (getDb_current _ _ Hcur').
    unfold bind, lift. cbn [getp]. rewrite lookup_insert_eq. reflexivity.
Qed.

Lemma updateUserSettings_round_trip_witness :
  exists st2,
    updateUserSettings (list_to_map [("loan", defaultLoan)])
      {| file := Some (VObj Demo.db); writes := 0 |}
    = Some (VObj (list_to_map [("loan", defaultLoan)]
                  ∪ list_to_map [("users", VArr [userConfig (VStr "u1") (VStr "A") (VStr "*")]);
                                 ("loan", defaultLoan)]), st2)
    /\ writes st2 = 1
    /\ getSettings st2
       = Some (VObj (list_to_map [("loan", defaultLoan)]
                     ∪ list_to_map [("users", VArr [userConfig (VStr "u1") (VStr "A") (VStr "*")]);
                                    ("loan", defaultLoan)]), st2).
Proof.
  apply (updateUserSettings_round_trip Demo.db _ 0 (list_to_map [("loan", defaultLoan)])).
  - exact demo_current.
  - reflexivity.
  - assert (<["settings" := VObj (list_to_map [("loan", defaultLoan)]
              ∪ list_to_map [("users", VArr [userConfig (VStr "u1") (VStr "A") (VStr "*")]);
                             ("loan", defaultLoan)])]> Demo.db = Demo.db) as ->
      by (vm_compute; reflexivity).
    exact demo_current.
Defined.

Lemma migrateProperties_current (db : gmap string value) :
  current_shape db -> migrateProperties (VObj db) = Some (VObj db, false).
Proof.
  intros (us & (s & loan & ps & Hs & Hus & Hne & _ & Hloan & Hps & Hcur) & Hfree).
  unfold migrateProperties. cbn [getp mbind option_bind]. rewrite Hps. cbn.
  rewrite for_each_unchanged.
  - cbn. by rewrite insert_id.
  - eapply Forall_impl; [exact Hcur |]. intros x. apply migrateProp_current.
Qed.

Lemma migrateUserIds_current (db : gmap string value) :
  current_shape db -> migrateUserIds (VObj db) = Some (VObj db, false).
Proof.
  intros (us & (s & loan & ps & Hs & Hus & Hne & _ & Hloan & Hps & Hcur) & Hfree).
  unfold migrateUserIds. cbn [getp mbind option_bind]. rewrite Hs. cbn.
  rewrite Hus. cbn. rewrite for_each_unchanged.
  - cbn. rewrite (insert_id s) by done. by rewrite insert_id.
  - eapply Forall_impl; [exact Hfree |]. intros x. apply renameLegacy_free.
Qed.

Lemma getDb_rewrites (v v' : value) (w : nat) :
  migrate v = Some (v', true) ->
  getDb {| file := Some v; writes := w |}
  = Some (v', {| file := Some v'; writes := S w |}).
Proof.
  intros Hm. set (st := {| file := Some v; writes := w |}).
  assert (migrateDb st = Some (tt, {| file := Some v'; writes := S w |})) as Hd.
  { unfold migrateDb, bind, readFile, lift. cbn [file st]. by rewrite Hm. }
  unfold getDb, ensureDb, bind, fileExists. cbn [file st bool_decide].
  change (bool_decide (is_Some (Some v))) with true. cbn iota.
  unfold ret. fold st. by rewrite Hd.
Qed.

(** X12. Emptying the user list loses the rest of the settings.  When
    an update stores an empty user list and the merged settings have no
    legacy partner entry, the next load synthesises the settings afresh:
    [getSettings] answers the default single user with the default loan
    bundle, whatever loan or other key was stored. *)
Theorem empty_user_list_resets_settings (db s : gmap string value) (w : nat)
    (updates : gmap string value) (ps : list value) :
  current_shape db -> db !! "settings" = Some (VObj s) ->
  db !! "properties" = Some (VArr ps) ->
  updates !! "users" = Some (VArr []) ->
  (updates ∪ s) !! "partnerA" = None -> (updates ∪ s) !! "partnerB" = None ->
  exists st2 st3,
    updateUserSettings updates {| file := Some (VObj db); writes := w |}
    = Some (VObj (updates ∪ s), st2)
    /\ getSettings st2 = Some (defaultSettings, st3)
    /\ writes st3 = S (S w).
Proof.
  intros Hcur Hs Hps Hu Ha Hb.
  set (db2 := <["settings" := VObj (updates ∪ s)]> db).
  exists {| file := Some (VObj db2); writes := S w |},
         {| file := Some (VObj (<["settings" := defaultSettings]> db2)); writes := S (S w) |}.
  split.
  - unfold updateUserSettings. unfold bind at 1. rewrite (getDb_current _ _ Hcur).
    unfold bind, lift. cbn [getp]. rewrite Hs. reflexivity.
  - assert (migrateSettings (VObj db2)
            = Some (VObj (<["settings" := defaultSettings]> db2), true)) as Hm1.
    { unfold migrateSettings, db2. cbn [getp mbind option_bind].
      rewrite lookup_insert_eq. cbn [default from_option id truthy negb getp].
      rewrite (lookup_union_Some_l _ _ _ _ Hu).
      cbn [default from_option id truthy negb mbind option_bind getp String.eqb Ascii.eqb
           Bool.eqb length]. cbn [strict_eq num_of_nat num_of_Z num_eqb].
      change (Qeq_bool (inject_Z (Z.of_nat 0)) 0) with true. cbn iota.
      cbn [or_else truthy getp]. rewrite Ha, Hb.
      cbn [default from_option id legacyUser truthy mbind option_bind app length Nat.eqb setp].
      reflexivity. }
    assert (current_shape (<["settings" := defaultSettings]> db2)) as Hcur3.
    { exists [userConfig (VStr "u1") (VStr "ユーザー1") (VStr "👤")]. split.
      - eexists _, _, ps. rewrite lookup_insert_eq. split; [reflexivity |].
        split; [reflexivity |]. split; [done |]. split; [repeat constructor; by eexists |].
        split; [reflexivity |]. unfold db2. rewrite !lookup_insert_ne by done.
        split; [done |]. by eapply current_shape_props.
      - repeat constructor. eexists. split; [reflexivity |]. split; vm_compute; discriminate. }
    assert (migrate (VObj db2) = Some (VObj (<["settings" := defaultSettings]> db2), true))
      as Hm.
    { unfold migrate. rewrite Hm1. cbn [mbind option_bind fst snd].
      rewrite (migrateProperties_current _ Hcur3). cbn [mbind option_bind fst snd].
      rewrite (migrateUserIds_current _ Hcur3). reflexivity. }
    split; [| reflexivity].
    unfold getSettings. unfold bind at 1. rewrite (getDb_rewrites _ _ _ Hm).
    unfold bind, lift. cbn [getp]. rewrite lookup_insert_eq. reflexivity.
Qed.

Lemma empty_user_list_resets_settings_witness :
  exists st2 st3,
    updateUserSettings (list_to_map [("users", VArr [])])
      {| file := Some (VObj Demo.db); writes := 0 |}
    = Some (VObj (list_to_map [("users", VArr [])]
                  ∪ list_to_map [("users", VArr [userConfig (VStr "u1") (VStr "A") (VStr "*")]);
                                 ("loan", defaultLoan)]), st2)
    /\ getSettings st2 = Some (defaultSettings, st3)
    /\ writes st3 = 2.
Proof.
  apply (empty_user_list_resets_settings Demo.db _ 0 (list_to_map [("users", VArr [])])
           [VObj Demo.property]).
  - exact demo_current.
  - reflexivity.
  - reflexivity.
  - reflexivity.
  - reflexivity.
  - reflexivity.
Defined.

End SettingsOps.

(** ** The scraper beyond the claims *)

Section Scanning.
Import Js Regex Scraper Rules.

Lemma drop_while_skip (p : N -> bool) (a r : jsstring) :
  forallb p a = true -> drop_while p (a ++ r) = drop_while p r.
Proof.
  induction a as [|x a IH]; [done |]. cbn [forallb app drop_while].
  intros [Hx Ha]%andb_prop. rewrite Hx. by apply IH.
Qed.

Lemma drop_while_stops (p : N -> bool) (r : jsstring) :
  stops p r = true -> drop_while p r = r.
Proof. destruct r as [|c r]; [done |]. cbn. by intros ->%negb_true_iff. Qed.

Lemma take_while_run (p : N -> bool) (a r : jsstring) :
  forallb p a = true -> stops p r = true -> take_while p (a ++ r) = a.
Proof.
  intros Ha Hr. induction a as [|x a IH].
  - destruct r as [|c r]; [done |]. cbn in *. by apply negb_true_iff in Hr as ->.
  - cbn [forallb] in Ha. apply andb_prop in Ha as [Hx Ha].
    cbn [app take_while]. rewrite Hx. f_equal. by apply IH.
Qed.

Lemma forallb_weaken (p q : N -> bool) (a : jsstring) :
  (forall c, p c = true -> q c = true) -> forallb p a = true -> forallb q a = true.
Proof.
  intros Hpq. induction a as [|x a IH]; [done |]. cbn [forallb].
  intros [Hx Ha]%andb_prop. by rewrite (Hpq _ Hx), IH.
Qed.

Lemma stops_app (p q : N -> bool) (a r : jsstring) :
  (forall c, p c = true -> q c = false) ->
  forallb p a = true -> stops q r = true -> stops q (a ++ r) = true.
Proof.
  intros Hpq. destruct a as [|x a]; [done |]. cbn [forallb app stops].
  intros [Hx _]%andb_prop _. by rewrite (Hpq _ Hx).
Qed.

Lemma space_not_digit_dot (c : N) : is_space c = true -> is_digit_dot c = false.
Proof.
  intros Hs. destruct (is_digit_dot c) eqn:Hd; [| done].
  apply digit_dot_not_space in Hd. congruence.
Qed.

Lemma digit_not_space (c : N) : is_digit c = true -> is_space c = false.
Proof. intros Hd. by apply digit_dot_not_space, digit_is_digit_dot. Qed.

Lemma digits_value_snoc_acc (ds : jsstring) (acc : Z) :
  (0 <= acc)%Z -> forallb is_digit ds = true ->
  (0 <= fold_left (fun acc c => acc * 10 + (Z.of_N c - 48)) ds acc)%Z.
Proof.
  revert acc. induction ds as [|d ds IH]; intros acc Hacc; [done |].
  cbn [forallb fold_left]. intros [Hd Hds]%andb_prop. apply IH; [| done].
  unfold is_digit in Hd. apply andb_prop in Hd as [Hl _]. apply N.leb_le in Hl. lia.
Qed.

Lemma digits_value_nonneg (ds : jsstring) :
  forallb is_digit ds = true -> (0 <= digits_value ds)%Z.
Proof. by apply digits_value_snoc_acc. Qed.

Lemma take_while_forallb (p : N -> bool) (s : jsstring) :
  forallb p (take_while p s) = true.
Proof.
  induction s as [|c s IH]; [done |]. cbn [take_while].
  destruct (p c) eqn:Hc; [| done]. cbn [forallb]. by rewrite Hc.
Qed.

Lemma take_while_all (p : N -> bool) (a : jsstring) :
  forallb p a = true -> take_while p a = a.
Proof. intros Ha. rewrite <- (app_nil_r a) at 1. by apply take_while_run. Qed.

Lemma drop_while_all (p : N -> bool) (a : jsstring) :
  forallb p a = true -> drop_while p a = [].
Proof. intros Ha. rewrite <- (app_nil_r a). by rewrite drop_while_skip. Qed.

Lemma parseFloat_digits (a : jsstring) :
  a <> [] -> forallb is_digit a = true -> parseFloat a = num_of_Z (digits_value a).
Proof.
  intros Hne Ha. unfold parseFloat. rewrite take_while_all, drop_while_all by done.
  destruct a as [|d a]; [done |]. cbn [length Nat.eqb andb]. by rewrite app_nil_r.
Qed.

Lemma parseInt_digits (a : jsstring) :
  a <> [] -> forallb is_digit a = true -> parseInt a = num_of_Z (digits_value a).
Proof.
  intros Hne Ha. unfold parseInt. rewrite take_while_all by done.
  by destruct a as [|d a].
Qed.

Lemma strip_commas_nil (val : jsstring) : strip_commas val <> [] -> val <> [].
Proof. by intros H ->. Qed.

Lemma first_numeral_run (pre a r : jsstring) :
  forallb (fun c => negb (is_digit_dot c)) pre = true ->
  a <> [] -> forallb is_digit a = true -> stops is_digit_dot r = true ->
  first_numeral (pre ++ a ++ r) = Some (a, r).
Proof.
  intros Hpre Hne Ha Hr. unfold first_numeral. rewrite drop_while_skip by done.
  assert (forallb is_digit_dot a = true) as Hdd
    by (eapply forallb_weaken; [apply digit_is_digit_dot | done]).
  destruct a as [|d a]; [done |]. cbn [app drop_while].
  assert (is_digit_dot d = true) as Hd.
  { cbn [forallb] in Hdd. by apply andb_prop in Hdd as [? _]. }
  rewrite Hd. cbn [negb].
  change (if is_digit_dot d then drop_while is_digit_dot (a ++ r) else d :: a ++ r)
    with (drop_while is_digit_dot ((d :: a) ++ r)).
  change (d :: a ++ r) with ((d :: a) ++ r).
  by rewrite take_while_run, drop_while_skip, drop_while_stops.
Qed.

End Scanning.

Section NumberForms.
Import Js Regex Scraper Rules.

Lemma parseFloat_not_negative (s : jsstring) :
  parseFloat s = NaN \/ exists q, parseFloat s = Num q /\ (0 <= q)%Q.
Proof.
  unfold parseFloat.
  set (ip := take_while is_digit s).
  set (fp := match drop_while is_digit s with
             | c :: s' => if (c =? 46)%N then take_while is_digit s' else []
             | [] => []
             end).
  destruct (Nat.eqb (length ip) 0 && Nat.eqb (length fp) 0); [by left |]. right.
  eexists. split; [reflexivity |]. unfold Qle. cbn [Qnum Qden].
  assert (forallb is_digit (ip ++ fp) = true) as Hd.
  { rewrite forallb_app. unfold ip, fp. rewrite take_while_forallb. cbn [andb].
    destruct (drop_while is_digit s) as [|c s']; [done |].
    destruct (c =? 46)%N; [apply take_while_forallb | done]. }
  pose proof (digits_value_nonneg _ Hd). lia.
Qed.

(** X13. A normalised amount is never negative.  On every text
    [parseJapaneseNumber] gives a number that is zero or above, or NaN (as
    for the text ".万", where the run in front of 万 holds no digit); it
    gives no negative number, whatever sign the text shows. *)
Theorem parseJapaneseNumber_never_negative (val : jsstring) :
  parseJapaneseNumber val = NaN
  \/ exists q, parseJapaneseNumber val = Num q /\ (0 <= q)%Q.
Proof.
  assert (forall n, (n = NaN \/ exists q, n = Num q /\ (0 <= q)%Q) ->
                    num_or0 n = NaN \/ exists q, num_or0 n = Num q /\ (0 <= q)%Q) as Hor.
  { intros n [-> | (q & -> & Hq)]; cbn [num_or0]; right.
    - by exists 0%Q.
    - destruct (Qeq_bool q 0); [by exists 0%Q | by exists q]. }
  rewrite parseJapaneseNumber_scan. unfold number_rule.
  destruct (first_numeral (strip_commas val)) as [[numeral rest]|]; [| right; by exists 0%Q].
  assert (forall second,
            num_add (num_mul (parseFloat numeral) (Num 10000))
                    (match second with [] => Num 0 | _ => parseFloat second end) = NaN
            \/ exists q, num_add (num_mul (parseFloat numeral) (Num 10000))
                           (match second with [] => Num 0 | _ => parseFloat second end) = Num q
                         /\ (0 <= q)%Q) as Hman.
  { intros second.
    destruct (parseFloat_not_negative numeral) as [-> | (q1 & -> & Hq1)]; [by left |].
    assert (match second with [] => Num 0 | _ => parseFloat second end = NaN
            \/ exists q, match second with [] => Num 0 | _ => parseFloat second end = Num q
                         /\ (0 <= q)%Q) as [-> | (q2 & -> & Hq2)].
    { destruct second; [right; by exists 0%Q | apply parseFloat_not_negative]. }
    - by left.
    - right. eexists. split; [reflexivity |].
      apply Qle_trans with (0 + 0)%Q; [done |]. apply Qplus_le_compat; [| done].
      apply Qmult_le_0_compat; done. }
  destruct (drop_while is_space rest) as [|c rest'];
    [apply Hor, parseFloat_not_negative |].
  destruct (c =? c_man)%N; [apply Hman | apply Hor, parseFloat_not_negative].
Qed.

(** X14. An amount written with 万.  When, commas removed, the text
    reads: characters that are neither digit nor dot, a run [a] of digits,
    optional blanks, 万, optional blanks, a run [b] of digits (possibly
    empty), and then the end or a character that is neither digit, dot nor
    blank, [parseJapaneseNumber] gives [a] times 10000 plus [b].  The runs
    are short enough for the arithmetic on doubles to be exact. *)
Theorem parseJapaneseNumber_man_amount (val pre a sp1 sp2 b post : jsstring) :
  strip_commas val = pre ++ a ++ sp1 ++ c_man :: sp2 ++ b ++ post ->
  forallb (fun c => negb (is_digit_dot c)) pre = true ->
  a <> [] -> forallb is_digit a = true -> forallb is_digit b = true ->
  forallb is_space sp1 = true -> forallb is_space sp2 = true ->
  stops (fun c => is_digit_dot c || is_space c) post = true ->
  length a <= 11 -> length b <= 15 ->
  parseJapaneseNumber val = num_of_Z (digits_value a * 10000 + digits_value b).
Proof.
  intros Hval Hpre Hne Ha Hb Hs1 Hs2 Hpost _ _.
  assert (stops is_digit_dot post = true /\ stops is_space post = true) as [Hpd Hps].
  { destruct post as [|c post]; [done |]. cbn in *.
    apply negb_true_iff, orb_false_elim in Hpost as [-> ->]. done. }
  rewrite parseJapaneseNumber_scan. unfold number_rule. rewrite Hval.
  rewrite first_numeral_run; [| done | done | done |].
  2:{ eapply stops_app; [apply space_not_digit_dot | done | done]. }
  rewrite drop_while_skip, (drop_while_stops is_space (c_man :: _)) by done.
  change (c_man =? c_man)%N with true. cbn iota.
  rewrite drop_while_skip by done.
  rewrite (drop_while_stops is_space (b ++ post))
    by (eapply stops_app; [apply digit_not_space | done | done]).
  rewrite (take_while_run is_digit_dot b post); [| | done].
  2:{ eapply forallb_weaken; [apply digit_is_digit_dot | done]. }
  rewrite (parseFloat_digits a) by done.
  destruct b as [|d b].
  - unfold num_of_Z, num_mul, num_add, inject_Z, Qmult, Qplus. cbn [Qnum Qden digits_value fold_left].
    do 2 f_equal. lia.
  - rewrite (parseFloat_digits (d :: b)) by done.
    unfold num_of_Z, num_mul, num_add, inject_Z, Qmult, Qplus. cbn [Qnum Qden].
    do 2 f_equal. lia.
Qed.

Lemma parseJapaneseNumber_man_amount_witness :
  parseJapaneseNumber (js "管理費：1万2,500円／月") = num_of_Z (digits_value (js "1") * 10000
                                                            + digits_value (js "2500")).
Proof.
  apply (parseJapaneseNumber_man_amount (js "管理費：1万2,500円／月") (js "管理費：") (js "1") [] []
           (js "2500") (js "円／月")).
  - vm_compute. reflexivity.
  - vm_compute. reflexivity.
  - discriminate.
  - vm_compute. reflexivity.
  - vm_compute. reflexivity.
  - reflexivity.
  - reflexivity.
  - vm_compute. reflexivity.
  - vm_compute. lia.
  - vm_compute. lia.
Defined.

(** X15. An amount written with digits only.  When, commas removed,
    the text reads: characters that are neither digit nor dot, a run [a]
    of digits, and then the end or a character that is neither digit nor
    dot, with no 万 after optional blanks, [parseJapaneseNumber] gives the
    value of [a]; whatever stands further right is not looked at.  The
    run is short enough to be read exactly as a double. *)
Theorem parseJapaneseNumber_plain_amount (val pre a post : jsstring) :
  strip_commas val = pre ++ a ++ post ->
  forallb (fun c => negb (is_digit_dot c)) pre = true ->
  a <> [] -> forallb is_digit a = true ->
  stops is_digit_dot post = true ->
  stops (fun c => (c =? c_man)%N) (drop_while is_space post) = true ->
  length a <= 15 ->
  parseJapaneseNumber val = num_of_Z (digits_value a).
Proof.
  intros Hval Hpre Hne Ha Hpost Hman _.
  rewrite parseJapaneseNumber_scan. unfold number_rule. rewrite Hval.
  rewrite first_numeral_run by done. rewrite (parseFloat_digits a) by done.
  assert (num_or0 (num_of_Z (digits_value a)) = num_of_Z (digits_value a)) as Hor.
  { unfold num_or0, num_of_Z. destruct (Qeq_bool _ 0) eqn:Hz; [| done].
    apply Qeq_bool_iff in Hz. unfold Qeq, inject_Z in Hz. cbn in Hz.
    do 2 f_equal. unfold inject_Z. f_equal. lia. }
  destruct (drop_while is_space post) as [|c r]; [done |].
  cbn [stops] in Hman. apply negb_true_iff in Hman. by rewrite Hman.
Qed.

Lemma parseJapaneseNumber_plain_amount_witness :
  parseJapaneseNumber (js "修繕積立金 8,000円 (駐車場 1万円)") = num_of_Z (digits_value (js "8000")).
Proof.
  apply (parseJapaneseNumber_plain_amount (js "修繕積立金 8,000円 (駐車場 1万円)") (js "修繕積立金 ")
           (js "8000") (js "円 (駐車場 1万円)")).
  - vm_compute. reflexivity.
  - vm_compute. reflexivity.
  - discriminate.
  - vm_compute. reflexivity.
  - vm_compute. reflexivity.
  - vm_compute. reflexivity.
  - vm_compute. lia.
Defined.

End NumberForms.

Section Pictures.
Import Js Regex Scraper Rules.

Lemma fold_left_invariant_in {X Y} (P : X -> Prop) (f : X -> Y -> X) (l : list Y) (x : X) :
  (forall x y, y ∈ l -> P x -> P (f x y)) -> P x -> P (fold_left f l x).
Proof.
  revert x. induction l as [|y l IH]; intros x Hf Hx; [done |]. cbn [fold_left].
  apply IH.
  - intros x' y' Hy'. apply Hf. by apply list_elem_of_further.
  - apply Hf; [apply list_elem_of_here | done].
Qed.

Lemma pushImg_pushed (l : list jsstring) (i : img) :
  pushImg l i = l
  \/ exists s, pushImg l i = l ++ [s] /\ picture_source i = Some s
               /\ startsWith (js "http") s = true /\ (s ∉ l)
               /\ str_includes (js "spacer.gif") s = false.
Proof.
  unfold pushImg. fold (picture_source i).
  destruct (picture_source i) as [s|]; [| by left].
  destruct (present (Some s)); cbn [andb]; [| by left].
  destruct (startsWith (js "http") s) eqn:Hh; cbn [andb]; [| by left].
  destruct (existsb (str_eqb s) l) eqn:He; cbn [negb andb]; [by left |].
  destruct (str_includes _ s) eqn:Hsp; cbn [negb]; [by left |].
  right. exists s. eauto 6 using existsb_str_eqb.
Qed.

Lemma pushImg_length (l : list jsstring) (els : list img) :
  length (fold_left pushImg els l) <= length l + length els.
Proof.
  revert l. induction els as [|i els IH]; intros l; cbn [fold_left length]; [lia |].
  specialize (IH (pushImg l i)).
  destruct (pushImg_pushed l i) as [Heq | (s & Heq & _)]; rewrite Heq in *;
    [| rewrite length_app in IH; cbn [length] in IH]; lia.
Qed.

Lemma gather_length (p : page) (k : nat) (sels : list string) (l : list jsstring) :
  Forall (fun sel => length (locator p sel) <= k) sels ->
  length l <= 11 + k ->
  length (fold_left (gatherSelector p) sels l) <= 11 + k.
Proof.
  intros Hk. revert l. induction Hk as [|sel sels Hsel Hsels IH]; intros l Hl; [done |].
  cbn [fold_left]. apply IH. unfold gatherSelector.
  destruct (12 <=? length l) eqn:Hc; [done |]. apply Nat.leb_gt in Hc.
  pose proof (pushImg_length l (locator p sel)). lia.
Qed.

(** X16. Where the pictures come from.  No picture is listed twice,
    and every listed picture is either the content of the page's og:image
    tag, taken as it is, or the [rel], [data-src], [data-original] or
    [src] attribute (the first that is set) of an element matched by one
    of the gallery selectors, which then begins with "http" and does not
    hold "spacer.gif". *)
Theorem images_sources (p : page) :
  NoDup (images p)
  /\ forall s, s ∈ images p -> ogImage p = Some s \/ from_gallery p s.
Proof.
  split; [apply images_NoDup |].
  unfold images.
  apply (fold_left_invariant_in
           (fun l => forall s, s ∈ l -> ogImage p = Some s \/ from_gallery p s)).
  - intros l sel Hsel Hl. unfold gatherSelector. destruct (12 <=? length l); [done |].
    apply fold_left_invariant_in; [| done].
    intros l' i Hi Hl'.
    destruct (pushImg_pushed l' i) as [-> | (s & -> & Hsrc & Hh & _ & Hsp)]; [done |].
    intros s' [Hs' | ->%list_elem_of_singleton]%elem_of_app; [by apply Hl' |].
    right. by exists sel, i.
  - destruct (ogImage p) as [[|c o]|]; cbn [present default from_option id];
      try (intros s Hs; by apply elem_of_nil in Hs).
    intros s ->%list_elem_of_singleton. by left.
Qed.

(** X17. How far the list of pictures can grow.  The limit of twelve
    is looked at before each gallery selector only: when no selector
    matches more than [k] elements the list has at most [11 + k] entries,
    so the limit of twelve holds on a page whose selectors match one
    element each. *)
Theorem images_at_most (p : page) (k : nat) :
  Forall (fun sel => length (locator p sel) <= k) gallerySelectors ->
  length (images p) <= 11 + k.
Proof.
  intros Hk. unfold images. apply gather_length; [done |].
  destruct (present (ogImage p)); cbn [length]; lia.
Qed.

Lemma images_at_most_witness :
  Forall (fun sel => length (locator relativeOgPage sel) <= 1) gallerySelectors
  /\ length (images relativeOgPage) <= 12.
Proof.
  assert (Forall (fun sel => length (locator relativeOgPage sel) <= 1) gallerySelectors) as H
    by (repeat constructor).
  split; [exact H |]. exact (images_at_most relativeOgPage 1 H).
Defined.

End Pictures.

Section YearBounds.
Import Js Regex Scraper Rules.

Lemma num_min_cases (a b : number) : num_min a b = a \/ num_min a b = b.
Proof.
  destruct a as [|x], b as [|y]; cbn; auto. destruct (Qle_bool x y); auto.
Qed.

Lemma min_of_mem (y : number) (ys : list number) : min_of y ys ∈ y :: ys.
Proof.
  unfold min_of. revert y. induction ys as [|a ys IH]; intros y; [apply list_elem_of_here |].
  cbn [fold_left]. specialize (IH (num_min y a)).
  apply elem_of_cons in IH as [-> | IH].
  - destruct (num_min_cases y a) as [-> | ->];
      [apply list_elem_of_here | apply list_elem_of_further, list_elem_of_here].
  - by do 2 apply list_elem_of_further.
Qed.

Lemma parseInt_cases (s : jsstring) :
  parseInt s = NaN \/ exists z, (0 <= z)%Z /\ parseInt s = num_of_Z z.
Proof.
  unfold parseInt. destruct (Nat.eqb _ 0); [by left |]. right.
  eexists. split; [| reflexivity]. apply digits_value_nonneg, take_while_forallb.
Qed.

Lemma relative_age_digits (s age : jsstring) :
  relative_age s = Some age -> age <> [] /\ forallb is_digit age = true.
Proof.
  induction s as [|c s IH]; [done |]. cbn [relative_age].
  destruct (c =? 31689)%N; [| exact IH].
  destruct (take_while is_digit s) as [|d ds] eqn:Ht; [exact IH |].
  destruct (drop_while is_digit s) as [|n r]; [exact IH |].
  destruct (n =? c_nen)%N; [| exact IH].
  intros [= <-]. split; [done |]. rewrite <- Ht. apply take_while_forallb.
Qed.

(** X18. A year that is not labelled never lies in the future.  When
    the body text has none of the labels 築年月, 竣工, 建築 followed on its
    line by four digits, the construction year that the generic heuristic
    leaves, if any, is a whole number not above the current year. *)
Theorem yearBuilt_not_in_future (bodyText : jsstring) (thisYear : Z) (y : number) :
  search re_specificYear bodyText = None ->
  yearBuilt bodyText thisYear = Some y ->
  exists z, y = num_of_Z z /\ (z <= thisYear)%Z.
Proof.
  intros Hno. rewrite yearBuilt_scan. unfold year_rule.
  pose proof (search_specificYear bodyText 0) as Hl. unfold search in Hno. rewrite Hno in Hl.
  destruct (labelled_year bodyText); [discriminate |]. clear Hl Hno.
  destruct (List.filter _ _) as [|v vs] eqn:Hf.
  - destruct (relative_age bodyText) as [age|] eqn:Hage; [| done].
    apply relative_age_digits in Hage as [Hne Hd]. intros [= <-].
    rewrite parseInt_digits by done. exists (thisYear - digits_value age)%Z. split.
    + unfold num_sub, num_of_Z, inject_Z, Qminus, Qplus, Qopp. cbn [Qnum Qden].
      do 2 f_equal. lia.
    + pose proof (digits_value_nonneg age Hd). lia.
  - intros [= <-]. pose proof (min_of_mem v vs) as Hin. rewrite <- Hf in Hin.
    apply list_elem_of_In, filter_In in Hin as [Hin Hr].
    apply in_map_iff in Hin as (t & Ht & _). rewrite <- Ht in *.
    destruct (parseInt_cases t) as [Hn | (z & _ & Hz)]; rewrite ?Hn, ?Hz in *; [done |].
    exists z. split; [done |]. unfold in_range in Hr. apply andb_prop in Hr as [_ Hr].
    cbn in Hr. apply Qle_bool_iff in Hr. by rewrite Zle_Qle.
Qed.

Lemma yearBuilt_not_in_future_witness :
  exists z, num_of_Z 2011 = num_of_Z z /\ (z <= 2026)%Z.
Proof.
  apply (yearBuilt_not_in_future (js "築15年のマンション、2030年に修繕予定") 2026 (num_of_Z 2011)).
  - vm_compute. reflexivity.
  - vm_compute. reflexivity.
Defined.

End YearBounds.

Section Fees.
Import Js Regex Scraper Rules.

Lemma amount_not_en (c : N) : is_amount c = true -> (c_en =? c)%N = false.
Proof.
  unfold is_amount, is_digit, c_en. intros H. apply N.eqb_neq. intros <-.
  vm_compute in H. discriminate.
Qed.

Lemma run_amount_here (s : jsstring) (c : gmap nat jsstring) :
  (fun st => caps st !! 1)
    <$> run (Seq (Group 1 (plus (Chr is_amount))) (lit (js "円")))
          {| rest := s; caps := c |} Some
  = Some <$> amount_here s.
Proof.
  unfold plus, amount_here. rewrite run_Seq, run_Group, run_Seq, run_Chr.
  destruct s as [|x s]; [reflexivity |]. cbn [take_while drop_while].
  destruct (is_amount x) eqn:Hx; [| reflexivity].
  rewrite star_greedy_max.
  2:{ intros y s' Hy. cbn [rest caps]. rewrite run_lit. change (js "円") with [c_en].
      cbn [startsWith]. by rewrite (amount_not_en y Hy). }
  cbn [rest caps]. rewrite run_lit. change (js "円") with [c_en].
  destruct (drop_while is_amount s) as [|e r] eqn:Hd; [reflexivity |].
  cbn [startsWith]. rewrite andb_true_r, N.eqb_sym.
  destruct (e =? c_en)%N; [| reflexivity].
  cbn [fmap option_fmap option_map caps]. rewrite lookup_insert_eq. f_equal.
  rewrite <- Hd, take_cons_while by done. cbn [take_while]. by rewrite Hx.
Qed.

(** The lazy [.*?] in front of the amount finds the first amount of the line. *)
Lemma run_amount_on_line (s : jsstring) (c : gmap nat jsstring) :
  (fun st => caps st !! 1)
    <$> run (Seq (Star false dot) (Seq (Group 1 (plus (Chr is_amount))) (lit (js "円"))))
          {| rest := s; caps := c |} Some
  = Some <$> amount_on_line s.
Proof.
  induction s as [|x s IH]; rewrite run_Seq; unfold dot; rewrite star_chr_unfold.
  - rewrite run_amount_here. reflexivity.
  - cbn [amount_on_line]. pose proof (run_amount_here (x :: s) c) as Hh.
    destruct (amount_here (x :: s)) as [a|].
    + destruct (run _ {| rest := x :: s; caps := c |} Some) as [st|]; [| discriminate].
      by destruct (negb (is_line_terminator x)).
    + destruct (run _ {| rest := x :: s; caps := c |} Some) as [st|]; [discriminate |].
      destruct (is_line_terminator x); cbn [negb]; [reflexivity |].
      cbn [or_try]. rewrite run_Seq in IH. exact IH.
Qed.

Lemma search_fee (label : string) (s : jsstring) (i : nat) :
  group 1 <$> search_from (re_fee label) i s = Some <$> labelled_amount (js label) s.
Proof.
  revert i. induction s as [|x s IH]; intros i;
    rewrite search_from_group by done; unfold re_fee;
    rewrite run_Seq, run_lit; cbn [labelled_amount]; unfold amount_after;
    (destruct (startsWith (js label) _);
     [rewrite run_amount_on_line; destruct (amount_on_line _); cbn; try reflexivity
     | cbn; try reflexivity]); apply IH.
Qed.

Lemma amount_here_shape (s a : jsstring) :
  amount_here s = Some a ->
  a <> [] /\ forallb is_amount a = true /\ exists r, s = a ++ c_en :: r.
Proof.
  unfold amount_here. destruct (take_while is_amount s) as [|c t] eqn:Ht; [done |].
  destruct (drop_while is_amount s) as [|e r] eqn:Hd; [done |].
  destruct (e =? c_en)%N eqn:He; [| done]. intros [= <-]. apply N.eqb_eq in He as ->.
  split; [done |]. split; [rewrite <- Ht; apply take_while_forallb |].
  exists r. by rewrite <- Ht, <- Hd, take_while_app_drop.
Qed.

Lemma amount_on_line_shape (s a : jsstring) :
  amount_on_line s = Some a ->
  a <> [] /\ forallb is_amount a = true
  /\ exists mid r, s = mid ++ a ++ c_en :: r
                   /\ forallb (fun c => negb (is_line_terminator c)) mid = true.
Proof.
  induction s as [|x s IH]; cbn [amount_on_line].
  - done.
  - destruct (amount_here (x :: s)) as [b|] eqn:Hh.
    + intros [= <-]. apply amount_here_shape in Hh as (? & ? & r & Hr).
      split; [done |]. split; [done |]. by exists [], r.
    + destruct (is_line_terminator x) eqn:Hx; [done |]. intros Ha.
      destruct (IH Ha) as (? & ? & mid & r & -> & Hmid). split; [done |]. split; [done |].
      exists (x :: mid), r. split; [done |]. cbn [forallb]. by rewrite Hx.
Qed.

Lemma startsWith_app (l s : jsstring) :
  startsWith l s = true -> s = l ++ drop (length l) s.
Proof.
  revert s. induction l as [|x l IH]; intros s; [done |].
  destruct s as [|y s]; [done |]. cbn [startsWith length drop app].
  intros [->%N.eqb_eq Hl]%andb_prop. f_equal. by apply IH.
Qed.

Lemma labelled_amount_shape (l s a : jsstring) :
  labelled_amount l s = Some a ->
  a <> [] /\ forallb is_amount a = true
  /\ exists pre mid r, s = pre ++ l ++ mid ++ a ++ c_en :: r
                       /\ forallb (fun c => negb (is_line_terminator c)) mid = true.
Proof.
  induction s as [|x s IH]; cbn [labelled_amount]; unfold amount_after.
  - destruct (startsWith l []) eqn:Hl.
    + destruct (amount_on_line (drop (length l) [])) as [b|] eqn:Hb; [| done].
      intros [= <-]. apply amount_on_line_shape in Hb as (? & ? & mid & r & Hs & ?).
      split; [done |]. split; [done |]. exists [], mid, r. split; [| done].
      cbn [app]. rewrite <- Hs. by apply startsWith_app.
    + done.
  - destruct (startsWith l (x :: s)) eqn:Hl;
      [destruct (amount_on_line (drop (length l) (x :: s))) as [b|] eqn:Hb |].
    + intros [= <-]. apply amount_on_line_shape in Hb as (? & ? & mid & r & Hs & ?).
      split; [done |]. split; [done |]. exists [], mid, r. split; [| done].
      cbn [app]. rewrite <- Hs. by apply startsWith_app.
    + intros Ha. destruct (IH Ha) as (? & ? & pre & mid & r & -> & ?).
      split; [done |]. split; [done |]. by exists (x :: pre), mid, r.
    + intros Ha. destruct (IH Ha) as (? & ? & pre & mid & r & -> & ?).
      split; [done |]. split; [done |]. by exists (x :: pre), mid, r.
Qed.

(** X19. How a fee is read from the body text.  For each of the labels
    管理費, 修繕 and 駐車場 the fee is looked for at the first occurrence of
    the label that has, further right on the same line, a run of the
    characters 0-9 , 万 . followed at once by 円: the first such run of
    that line is normalised by [parseJapaneseNumber].  When no occurrence
    of the label has such a run on its line the fee stays unset. *)
Theorem feeAmount_first_amount_on_label_line (label : string) (bodyText : jsstring) :
  feeAmount label bodyText = parseJapaneseNumber <$> labelled_amount (js label) bodyText.
Proof.
  unfold feeAmount, search. pose proof (search_fee label bodyText 0) as H.
  destruct (search_from (re_fee label) 0 bodyText) as [m|];
    destruct (labelled_amount (js label) bodyText) as [a|]; cbn in H; try discriminate.
  - injection H as ->. reflexivity.
  - reflexivity.
Qed.

(** X20. A fee comes from the label's own line.  When a fee is set,
    the body text holds the label, then characters none of which ends a
    line, then a non-empty run of the characters 0-9 , 万 . and 円, and the
    fee is the normalised value of that run. *)
Theorem feeAmount_on_the_label_line (label : string) (bodyText : jsstring) (v : number) :
  feeAmount label bodyText = Some v ->
  exists pre mid a r,
    bodyText = pre ++ js label ++ mid ++ a ++ c_en :: r
    /\ forallb (fun c => negb (is_line_terminator c)) mid = true
    /\ a <> [] /\ forallb is_amount a = true
    /\ v = parseJapaneseNumber a.
Proof.
  unfold feeAmount, search. pose proof (search_fee label bodyText 0) as H.
  destruct (search_from (re_fee label) 0 bodyText) as [m|]; [| done].
  destruct (labelled_amount (js label) bodyText) as [a|] eqn:Ha; cbn in H; [| discriminate].
  injection H as ->. intros [= <-].
  apply labelled_amount_shape in Ha as (? & ? & pre & mid & r & ? & ?).
  by exists pre, mid, a, r.
Qed.

Lemma feeAmount_on_the_label_line_witness :
  exists pre mid a r,
    js "管理費：1万2,500円／月" ++ 10%N :: js "修繕積立金：8,000円"
    = pre ++ js "修繕" ++ mid ++ a ++ c_en :: r
    /\ forallb (fun c => negb (is_line_terminator c)) mid = true
    /\ a <> [] /\ forallb is_amount a = true
    /\ num_of_Z 8000 = parseJapaneseNumber a.
Proof.
  apply (feeAmount_on_the_label_line "修繕"
           (js "管理費：1万2,500円／月" ++ 10%N :: js "修繕積立金：8,000円") (num_of_Z 8000)).
  vm_compute. reflexivity.
Defined.

End Fees.

(** ** Reading the list back *)

Section Listing.
Import Js Storage Spec.

(** The first load of a store that has no file writes the initial
    document, which the migration then leaves alone. *)
Lemma getDb_missing (w : nat) :
  getDb {| file := None; writes := w |}
  = Some (defaultDb, {| file := Some defaultDb; writes := S w |}).
Proof.
  set (st := {| file := Some defaultDb; writes := S w |}).
  assert (migrateDb st = Some (tt, st)) as Hm.
  { unfold migrateDb, bind, readFile, lift. cbn [file st].
    assert (migrate defaultDb = Some (defaultDb, false)) as -> by (vm_compute; reflexivity).
    reflexivity. }
  unfold getDb, ensureDb, bind, fileExists. cbn [file].
  change (bool_decide (is_Some (@None value))) with false. cbn iota.
  unfold saveDb at 1. cbn [writes]. fold st. by rewrite Hm.
Qed.

(** X21. A store without file starts from the initial document.  The
    first operation writes the initial document once; [getProperties] then
    answers the empty list and [getSettings] the initial settings, and a
    property added to such a store is stored alone, with a second write. *)
Theorem missing_file_starts_from_default (w : nat) :
  getProperties {| file := None; writes := w |}
  = Some (VArr [], {| file := Some defaultDb; writes := S w |})
  /\ getSettings {| file := None; writes := w |}
     = Some (defaultSettings, {| file := Some defaultDb; writes := S w |})
  /\ forall (property : gmap string value) (uuid now : string),
       exists new db,
         addProperty property uuid now {| file := None; writes := w |}
         = Some (VObj new, {| file := Some (VObj db); writes := S (S w) |})
         /\ db !! "properties" = Some (VArr [VObj new])
         /\ db !! "settings" = Some defaultSettings
         /\ new !! "id" = Some (VStr uuid).
Proof.
  split; [| split].
  - unfold getProperties. unfold bind at 1. rewrite getDb_missing. reflexivity.
  - unfold getSettings. unfold bind at 1. rewrite getDb_missing. reflexivity.
  - intros property uuid now.
    destruct (addProperty_fresh_record {| file := None; writes := w |}
                {| file := Some defaultDb; writes := S w |}
                (list_to_map [("properties", VArr []); ("settings", defaultSettings)]) []
                property uuid now) as (new & Hrun & Hid & _).
    + split; [apply getDb_missing | reflexivity].
    + constructor.
    + exists new. eexists. split; [exact Hrun |]. split; [apply lookup_insert_eq |].
      split; [| exact Hid]. rewrite lookup_insert_ne by done. reflexivity.
Qed.



End Listing.
